(** * Spectral time-series pipeline of [data_analysis.py]: a shallow embedding

    The development follows the stages of the pipeline in the order in which
    [process_data.main] runs them: time-axis standardisation, smoothing,
    band merging, feature extraction, cross-experiment aggregation.

    Conventions of the embedding.
    - Python exceptions are values of [Py.exn]; a computation that may raise
      has type [Py.result A]; [try ... except] is [Py.try_except].
    - A float64 is modelled by [Num.fval]: an exact rational, or one of the
      three IEEE specials.  Rounding of the binary representation is not
      modelled: arithmetic on finite values is exact.
    - A pandas data frame is a list of column labels and a list of rows, each
      row carrying its index label.
    - The functions of scipy are not part of the repository:
      [savgol_filter] is a parameter of the development (its argument checks
      are written out, its numeric kernel is a section variable). *)

From Stdlib Require Import List ZArith QArith Qcanon Bool Arith Lia String Ascii
  DecimalString Sorted Permutation.
Import ListNotations.

Set Implicit Arguments.
Local Open Scope Z_scope.

(* ------------------------------------------------------------------------- *)
(** ** Python exceptions and results *)

Module Py.

Inductive exn : Type :=
| FileNotFoundError
| IndexError
| ValueError
| KeyError
| ZeroDivisionError
| ParserError.

Definition exn_eqb (a b : exn) : bool :=
  match a, b with
  | FileNotFoundError, FileNotFoundError
  | IndexError, IndexError
  | ValueError, ValueError
  | KeyError, KeyError
  | ZeroDivisionError, ZeroDivisionError
  | ParserError, ParserError => true
  | _, _ => false
  end.

Inductive result (A : Type) : Type :=
| Ok (a : A)
| Raise (e : exn).

Arguments Ok {A} a.
Arguments Raise {A} e.

Definition bind {A B : Type} (c : result A) (k : A -> result B) : result B :=
  match c with
  | Ok a => k a
  | Raise e => Raise e
  end.

(** [try c except (e1, ..., en): h]: the handler runs when [c] raises one of
    the listed exceptions; another exception goes through. *)
Definition try_except {A : Type} (c : result A) (caught : list exn)
    (h : exn -> result A) : result A :=
  match c with
  | Ok a => Ok a
  | Raise e => if existsb (exn_eqb e) caught then h e else Raise e
  end.

(** [try c except Exception: h] *)
Definition try_except_all {A : Type} (c : result A) (h : exn -> result A)
    : result A :=
  match c with
  | Ok a => Ok a
  | Raise e => h e
  end.

(** A [for] loop that builds a list and whose body may raise. *)
Fixpoint map_result {A B : Type} (f : A -> result B) (xs : list A)
    : result (list B) :=
  match xs with
  | [] => Ok []
  | x :: r =>
      match f x with
      | Raise e => Raise e
      | Ok y =>
          match map_result f r with
          | Raise e => Raise e
          | Ok ys => Ok (y :: ys)
          end
      end
  end.

Definition raises {A : Type} (c : result A) : Prop :=
  exists e, c = Raise e.

Definition returns {A : Type} (c : result A) : Prop :=
  exists a, c = Ok a.

End Py.

Import Py.

Declare Scope py_scope.
Notation "x <- c ;; k" := (Py.bind c (fun x => k))
  (at level 61, c at next level, right associativity) : py_scope.
Notation "'ret' a" := (Py.Ok a) (at level 60) : py_scope.
Local Open Scope py_scope.

(* ------------------------------------------------------------------------- *)
(** ** Numbers: float64 values as exact rationals with the IEEE specials *)

Module Num.

Inductive fval : Type :=
| Fin (q : Qc)
| PInf
| NInf
| NaN.

Definition of_Z (z : Z) : fval := Fin (Q2Qc (inject_Z z)).
Definition of_Q (q : Q) : fval := Fin (Q2Qc q).

Definition Qc_of_nat (n : nat) : Qc := Q2Qc (inject_Z (Z.of_nat n)).

Definition one : fval := of_Z 1.
Definition zero : fval := of_Z 0.

Definition isnan (x : fval) : bool :=
  match x with NaN => true | _ => false end.

Definition isfinite (x : fval) : bool :=
  match x with Fin _ => true | _ => false end.

Definition Qc_ltb (a b : Qc) : bool :=
  match (a ?= b)%Qc with Lt => true | _ => false end.

Definition Qc_leb (a b : Qc) : bool :=
  match (a ?= b)%Qc with Gt => false | _ => true end.

Definition Qc_eqb (a b : Qc) : bool :=
  match (a ?= b)%Qc with Eq => true | _ => false end.

(** Comparisons: every comparison with NaN is false. *)
Definition ltb (x y : fval) : bool :=
  match x, y with
  | NaN, _ | _, NaN => false
  | Fin a, Fin b => Qc_ltb a b
  | NInf, NInf => false
  | NInf, _ => true
  | _, PInf => match x with PInf => false | _ => true end
  | _, _ => false
  end.

Definition leb (x y : fval) : bool :=
  match x, y with
  | NaN, _ | _, NaN => false
  | Fin a, Fin b => Qc_leb a b
  | NInf, _ => true
  | _, PInf => true
  | _, _ => false
  end.

Definition gtb (x y : fval) : bool := ltb y x.
Definition geb (x y : fval) : bool := leb y x.

(** Sign of a finite value, as a comparison with zero. *)
Definition sgn (a : Qc) : comparison := (a ?= Q2Qc 0)%Qc.

Definition signed_inf (c : comparison) : fval :=
  match c with Gt => PInf | Lt => NInf | Eq => NaN end.

Definition flip (c : comparison) : comparison := CompOpp c.

Definition sgn_mul (c d : comparison) : comparison :=
  match c, d with
  | Eq, _ | _, Eq => Eq
  | Gt, Gt | Lt, Lt => Gt
  | _, _ => Lt
  end.

Definition sign_of (x : fval) : comparison :=
  match x with
  | Fin a => sgn a
  | PInf => Gt
  | NInf => Lt
  | NaN => Eq
  end.

Definition add (x y : fval) : fval :=
  match x, y with
  | NaN, _ | _, NaN => NaN
  | Fin a, Fin b => Fin (a + b)%Qc
  | PInf, NInf | NInf, PInf => NaN
  | PInf, _ | _, PInf => PInf
  | NInf, _ | _, NInf => NInf
  end.

Definition opp (x : fval) : fval :=
  match x with
  | Fin a => Fin (- a)%Qc
  | PInf => NInf
  | NInf => PInf
  | NaN => NaN
  end.

Definition sub (x y : fval) : fval := add x (opp y).

Definition mul (x y : fval) : fval :=
  match x, y with
  | NaN, _ | _, NaN => NaN
  | Fin a, Fin b => Fin (a * b)%Qc
  | _, _ => signed_inf (sgn_mul (sign_of x) (sign_of y))
  end.

(** Division, with numpy's conventions for a zero divisor: [a/0] is an
    infinity of the sign of [a], and [0/0] is NaN.  (The sign of a zero
    divisor is not modelled.) *)
Definition div (x y : fval) : fval :=
  match x, y with
  | NaN, _ | _, NaN => NaN
  | Fin a, Fin b =>
      if Qc_eqb b (Q2Qc 0) then signed_inf (sgn a) else Fin (a / b)%Qc
  | Fin _, _ => zero
  | _, Fin b =>
      match sgn b with
      | Eq => x
      | c => signed_inf (sgn_mul (sign_of x) c)
      end
  | _, _ => NaN
  end.

Definition abs (x : fval) : fval :=
  match x with
  | Fin a => if Qc_ltb a (Q2Qc 0) then Fin (- a)%Qc else Fin a
  | PInf | NInf => PInf
  | NaN => NaN
  end.

Definition sum (xs : list fval) : fval := fold_left add xs zero.

(** [numpy.mean] / [DataFrame.mean] of a 1-D array; the mean of no value at
    all is NaN.  (pandas skips NaN cells; see [Merge.column_mean].) *)
Definition mean (xs : list fval) : fval :=
  match xs with
  | [] => NaN
  | _ => div (sum xs) (of_Z (Z.of_nat (List.length xs)))
  end.

(** Round half to even at [d] decimals, the rule of [numpy.round]. *)
Definition round_half_even (q : Q) : Z :=
  let n := Qnum q in
  let d := Z.pos (Qden q) in
  let fl := n / d in
  match (2 * (n mod d)) ?= d with
  | Lt => fl
  | Gt => fl + 1
  | Eq => if Z.even fl then fl else fl + 1
  end.

Definition round_dec (d : nat) (x : fval) : fval :=
  match x with
  | Fin a =>
      let s := inject_Z (10 ^ Z.of_nat d) in
      Fin (Q2Qc (inject_Z (round_half_even (Qred (a * s))) / s))
  | _ => x
  end.

(** Identity of two values (not the IEEE equality: NaN is the same as NaN). *)
Definition same (x y : fval) : bool :=
  match x, y with
  | Fin a, Fin b => Qc_eqb a b
  | PInf, PInf | NInf, NInf | NaN, NaN => true
  | _, _ => false
  end.

End Num.

Import Num.

(* ------------------------------------------------------------------------- *)
(** ** numpy helpers *)

Module Np.

(** [np.arange(0, stop, step, dtype=int)] on integers: [ceil(stop/step)]
    values [0, step, 2*step, ...]; a zero step raises. *)
Definition arange_len (stop step : Z) : Z :=
  Z.max 0 (- ((- stop) / step)).

Definition arange (stop step : Z) : result (list Z) :=
  if step =? 0 then Raise ZeroDivisionError
  else Ok (map (fun k => Z.of_nat k * step)
             (seq 0 (Z.to_nat (arange_len stop step)))).

End Np.

(* ------------------------------------------------------------------------- *)
(** ** Strings: the few operations of [str] and [glob] the pipeline uses *)

Module Str.

Local Open Scope string_scope.

(** [s.split(c)[0]]: the part of [s] before the first [c]. *)
Fixpoint before (c : ascii) (s : string) : string :=
  match s with
  | EmptyString => EmptyString
  | String a r => if Ascii.eqb a c then EmptyString else String a (before c r)
  end.

Definition digit_of (c : ascii) : option Z :=
  let n := nat_of_ascii c in
  if (48 <=? n)%nat && (n <=? 57)%nat then Some (Z.of_nat (n - 48)) else None.

Definition isdigit (c : ascii) : bool :=
  match digit_of c with Some _ => true | None => false end.

Fixpoint digits_acc (s : string) (acc : Z) : option Z :=
  match s with
  | EmptyString => Some acc
  | String c r =>
      match digit_of c with
      | Some d => digits_acc r (10 * acc + d)
      | None => None
      end
  end.

(** A non-empty run of decimal digits. *)
Definition digits (s : string) : option Z :=
  match s with
  | EmptyString => None
  | _ => digits_acc s 0
  end.

Definition split_sign (s : string) : bool * string :=
  match s with
  | String "-" r => (true, r)
  | String "+" r => (false, r)
  | _ => (false, s)
  end.

(** [int(s)] on an optionally signed decimal literal; anything else is a
    [ValueError].  Where [py_int] returns, [int] returns the same integer.
    The surrounding blanks and the underscores between digits that [int]
    also reads are left out: on them [py_int] raises where [int] returns,
    so the properties rest on [py_int] only where it returns. *)
Definition py_int (s : string) : result Z :=
  let '(neg, body) := split_sign s in
  match digits body with
  | Some n => Ok (if neg then - n else n)
  | None => Raise ValueError
  end.

(** Split at the first dot: the text before it, and the text after it when
    there is a dot. *)
Fixpoint split_dot (s : string) : string * option string :=
  match s with
  | EmptyString => (EmptyString, None)
  | String a r =>
      if Ascii.eqb a "." then (EmptyString, Some r)
      else let '(i, f) := split_dot r in (String a i, f)
  end.

Definition digits_or_empty (s : string) : option Z :=
  match s with
  | EmptyString => Some 0
  | _ => digits_acc s 0
  end.

(** [float(s)] on an optionally signed decimal literal with an optional
    fraction ([12], [12.5], [12.], [.5]); anything else is a [ValueError].
    Where [py_float] returns, [float] returns the same number.  The
    exponent, the surrounding blanks, the underscores and the [inf]/[nan]
    spellings that [float] also reads are not written by the pipeline into
    a column header and are left out: on them [py_float] raises where
    [float] returns, so the properties rest on [py_float] only where it
    returns. *)
Definition py_float (s : string) : result fval :=
  let '(neg, body) := split_sign s in
  let '(ip, fp) := split_dot body in
  let value :=
    match fp with
    | None =>
        match digits ip with
        | Some n => Some (inject_Z n)
        | None => None
        end
    | Some f =>
        match ip, f with
        | EmptyString, EmptyString => None
        | _, _ =>
            match digits_or_empty ip, digits_or_empty f with
            | Some n, Some m =>
                Some (inject_Z n
                      + inject_Z m / inject_Z (10 ^ Z.of_nat (String.length f)))%Q
            | _, _ => None
            end
        end
    end in
  match value with
  | Some q => Ok (of_Q (if neg then (- q)%Q else q))
  | None => Raise ValueError
  end.

(** Does [s] end with [suf]? *)
Definition ends_with (suf s : string) : bool :=
  let n := String.length s in
  let k := String.length suf in
  (k <=? n)%nat && String.eqb (substring (n - k) k s) suf.

(** [fnmatch(name, prefix + "*.csv")] for a [prefix] without wildcard
    characters: [name] is [prefix], then anything, then [.csv]. *)
Definition glob_match (pre name : string) : bool :=
  String.prefix pre name
  && ends_with ".csv" name
  && (String.length pre + 4 <=? String.length name)%nat.

End Str.

(* ------------------------------------------------------------------------- *)
(** ** Data model *)

Module Data.

(** A data frame: column labels of type [C], and the rows in order, each
    with its index label (a wavelength) and its cells. *)
Record DataFrame (C : Type) : Type := mkDF {
  columns : list C;
  rows : list (fval * list fval)
}.

Arguments mkDF {C} columns rows.
Arguments columns {C} d.
Arguments rows {C} d.

Definition index {C : Type} (df : DataFrame C) : list fval :=
  map fst (rows df).

(** [df.shape] *)
Definition nrows {C : Type} (df : DataFrame C) : nat := List.length (rows df).
Definition ncols {C : Type} (df : DataFrame C) : nat :=
  List.length (columns df).

(** The cells of column number [j], top to bottom.  A row that is too short
    reads as NaN there, as [read_csv] pads it. *)
Definition column_values {C : Type} (df : DataFrame C) (j : nat) : list fval :=
  map (fun r => nth j (snd r) NaN) (rows df).

(** What [pd.read_csv] makes of a file: it raises, or it returns a table. *)
Inductive csv (A : Type) : Type :=
| Malformed
| Table (a : A).

Arguments Malformed {A}.
Arguments Table {A} a.

Definition read_csv {A : Type} (f : csv A) : result A :=
  match f with
  | Malformed => Raise ParserError
  | Table a => Ok a
  end.

(** One row of the parameters table. *)
Record ReactionParameters : Type := mkParams {
  reaction_id : Z;
  num_measurements : Z;
  frequency : Z
}.

(** One row of [Emission_features_nir.csv]; an absent value is NaN. *)
Record FeatureRecord : Type := mkFeature {
  timestamp : string;
  max_intensity : fval;
  peak_wavelength : fval;
  fwhm_ev : fval
}.

(** The files of one run folder.  [corrected_data] is the listing of the
    raw directory in the order [glob] yields it; the other files have fixed
    names and are present or not.  Directories are not recorded: each stage
    creates its output directory on entry, whether it writes a file or
    not. *)
Record RunDir : Type := mkRun {
  corrected_data : list (string * csv (DataFrame string));
  cleaned_nir : option (csv (DataFrame string));
  cleaned_vis : option (csv (DataFrame string));
  smoothed_nir : option (csv (DataFrame string));
  smoothed_vis : option (csv (DataFrame string));
  merged : option (csv (DataFrame string));
  features : option (csv (list FeatureRecord))
}.

Inductive band : Type := NIR | VIS.

Definition band_eqb (a b : band) : bool :=
  match a, b with
  | NIR, NIR | VIS, VIS => true
  | _, _ => false
  end.

(** [NIR_PREFIX], [VIS_PREFIX] *)
Definition prefix_of (b : band) : string :=
  match b with
  | NIR => "Emission_nir"%string
  | VIS => "Emission_vis"%string
  end.

Definition cleaned (b : band) (d : RunDir) : option (csv (DataFrame string)) :=
  match b with NIR => cleaned_nir d | VIS => cleaned_vis d end.

Definition smoothed (b : band) (d : RunDir) : option (csv (DataFrame string)) :=
  match b with NIR => smoothed_nir d | VIS => smoothed_vis d end.

Definition write_cleaned (b : band) (f : DataFrame string) (d : RunDir)
    : RunDir :=
  match b with
  | NIR => mkRun (corrected_data d) (Some (Table f)) (cleaned_vis d)
             (smoothed_nir d) (smoothed_vis d) (merged d) (features d)
  | VIS => mkRun (corrected_data d) (cleaned_nir d) (Some (Table f))
             (smoothed_nir d) (smoothed_vis d) (merged d) (features d)
  end.

Definition write_smoothed (b : band) (f : DataFrame string) (d : RunDir)
    : RunDir :=
  match b with
  | NIR => mkRun (corrected_data d) (cleaned_nir d) (cleaned_vis d)
             (Some (Table f)) (smoothed_vis d) (merged d) (features d)
  | VIS => mkRun (corrected_data d) (cleaned_nir d) (cleaned_vis d)
             (smoothed_nir d) (Some (Table f)) (merged d) (features d)
  end.

Definition write_merged (f : DataFrame string) (d : RunDir) : RunDir :=
  mkRun (corrected_data d) (cleaned_nir d) (cleaned_vis d)
    (smoothed_nir d) (smoothed_vis d) (Some (Table f)) (features d).

Definition write_features (f : list FeatureRecord) (d : RunDir) : RunDir :=
  mkRun (corrected_data d) (cleaned_nir d) (cleaned_vis d)
    (smoothed_nir d) (smoothed_vis d) (merged d) (Some (Table f)).

End Data.

Import Data.

(* ------------------------------------------------------------------------- *)
(** ** pandas helpers shared by the stages *)

Module Pd.

(** [df.iloc[:, :k]] *)
Definition iloc_cols {C : Type} (k : nat) (df : DataFrame C) : DataFrame C :=
  mkDF (firstn k (columns df))
       (map (fun r => (fst r, firstn k (snd r))) (rows df)).

(** [df[mask]] / [df.loc[mask]] with a mask computed from the index. *)
Definition filter_rows {C : Type} (keep : fval -> bool) (df : DataFrame C)
    : DataFrame C :=
  mkDF (columns df) (filter (fun r => keep (fst r)) (rows df)).

(** [df.columns = labels]: the number of labels must be the number of
    columns. *)
Definition set_columns {C D : Type} (df : DataFrame C) (labels : list D)
    : result (DataFrame D) :=
  if (List.length labels =? ncols df)%nat then Ok (mkDF labels (rows df))
  else Raise ValueError.

(** [df.index = f(df.index)] for a label-wise [f]. *)
Definition map_index {C : Type} (f : fval -> fval) (df : DataFrame C)
    : DataFrame C :=
  mkDF (columns df) (map (fun r => (f (fst r), snd r)) (rows df)).

(** [df.round(d)] *)
Definition round_frame {C : Type} (d : nat) (df : DataFrame C) : DataFrame C :=
  mkDF (columns df) (map (fun r => (fst r, map (round_dec d) (snd r))) (rows df)).

(** [pd.DataFrame(data, columns=cols, index=idx)]: the array must have one
    row per index label and one cell per column label. *)
Definition make_frame {C : Type} (data : list (list fval)) (cols : list C)
    (idx : list fval) : result (DataFrame C) :=
  if (List.length data =? List.length idx)%nat
     && forallb (fun r => (List.length r =? List.length cols)%nat) data
  then Ok (mkDF cols (combine idx data))
  else Raise ValueError.

(** The text of an integer label in a CSV header. *)
Definition string_of_Z (z : Z) : string := NilZero.string_of_int (Z.to_int z).

(** [to_csv] followed by [read_csv] turns integer column labels into their
    decimal text. *)
Definition to_csv_int_columns (df : DataFrame Z) : DataFrame string :=
  mkDF (map string_of_Z (columns df)) (rows df).

End Pd.

(* ------------------------------------------------------------------------- *)
(** ** Stage 1: [standardize_time_axis] *)

Module TimeAxis.

(** [_get_file_by_prefix]: the directory is its listing in glob order. *)
Definition _get_file_by_prefix {F : Type} (directory : list (string * F))
    (prefix : string) : result (string * F) :=
  match filter (fun e => Str.glob_match prefix (fst e)) directory with
  | [] => Raise FileNotFoundError
  | f :: _ => Ok f
  end.

(** [reaction_params_df[reaction_params_df['reaction_id'] == rid].iloc[0]] *)
Definition lookup_params (tbl : list ReactionParameters) (rid : Z)
    : result ReactionParameters :=
  match filter (fun p => reaction_id p =? rid) tbl with
  | [] => Raise IndexError
  | p :: _ => Ok p
  end.

(** [np.arange(0, params['num_measurements'], params['frequency'], dtype=int)] *)
Definition time_points (p : ReactionParameters) : result (list Z) :=
  Np.arange (num_measurements p) (frequency p).

(** The wavelength cutoff, for the visible band only. *)
Definition cutoff (b : band) (df : DataFrame string) : DataFrame string :=
  match b with
  | VIS => Pd.filter_rows (fun w => geb w (of_Z 500)) df
  | NIR => df
  end.

(** Lines 66-72: trim the frame and the time axis to the shorter length. *)
Definition match_shape (df : DataFrame string) (tp : list Z)
    : DataFrame string * list Z :=
  if negb (ncols df =? List.length tp)%nat then
    let min_len := Nat.min (ncols df) (List.length tp) in
    (Pd.iloc_cols min_len df, firstn min_len tp)
  else (df, tp).

(** The frame assigned to [df] at line 75, from the frame read at line 56
    (its index already numeric). *)
Definition standardize_frame (b : band) (tp : list Z) (raw : DataFrame string)
    : result (DataFrame Z) :=
  let df := cutoff b raw in
  let '(df, current_time_points) := match_shape df tp in
  Pd.set_columns df current_time_points.

(** The body of the [try] of one band, and its two handlers. *)
Definition standardize_band (tp : list Z) (d : RunDir) (b : band)
    : result RunDir :=
  try_except_all
    (try_except
       (f <- _get_file_by_prefix (corrected_data d)
               (prefix_of b ++ "_corrected")%string ;;
        raw <- read_csv (snd f) ;;
        df <- standardize_frame b tp raw ;;
        ret (write_cleaned b (Pd.to_csv_int_columns df) d))
       [FileNotFoundError] (fun _ => Ok d))
    (fun _ => Ok d).

(** A [for] loop whose body may raise. *)
Fixpoint for_each {A S : Type} (body : S -> A -> result S) (xs : list A)
    (s : S) : result S :=
  match xs with
  | [] => Ok s
  | x :: r => s' <- body s x ;; for_each body r s'
  end.

(** Lines 43-81.  The output directory is created at line 40, before the
    lookup; a [RunDir] holds the files of a run, not its directories, so
    this is not recorded. *)
Definition standardize_time_axis (d : RunDir) (folder : string)
    (reaction_params_df : list ReactionParameters) : result RunDir :=
  match
    try_except
      (reaction_id <- Str.py_int (Str.before "_" folder) ;;
       params <- lookup_params reaction_params_df reaction_id ;;
       ret (Some params))
      [IndexError; ValueError] (fun _ => Ok None)
  with
  | Raise e => Raise e
  | Ok None => Ok d
  | Ok (Some params) =>
      tp <- time_points params ;;
      for_each (standardize_band tp) [NIR; VIS] d
  end.

(** The time axis as the specification words it: [num_measurements] values
    [0, frequency, 2*frequency, ...]. *)
Definition spec_time_axis (n f : Z) : list Z :=
  map (fun k => Z.of_nat k * f) (seq 0 (Z.to_nat n)).

End TimeAxis.

(* ------------------------------------------------------------------------- *)
(** ** Stage 2: [apply_smoothing] *)

Module Smoothing.

Section Filter.

(** The numeric kernel of scipy's [savgol_filter]: the smoothed value at
    position [i] of a 1-D signal, for a window length and a polynomial
    order. *)
Variable savgol_point : nat -> nat -> list fval -> nat -> fval.

(** The argument checks of [savgol_filter] in its default mode ([interp]):
    the order is below the window length, the window is odd, and the window
    fits in the data. *)
Definition savgol_args_ok (n window_length polyorder : nat) : bool :=
  (polyorder <? window_length)%nat
  && Nat.odd window_length
  && (window_length <=? n)%nat.

(** [savgol_filter(x, window_length, polyorder)] on a 1-D signal. *)
Definition savgol_filter (x : list fval) (window_length polyorder : nat)
    : result (list fval) :=
  if savgol_args_ok (List.length x) window_length polyorder
  then Ok (map (savgol_point window_length polyorder x)
             (seq 0 (List.length x)))
  else Raise ValueError.

(** [savgol_filter(df, window_length, polyorder, axis=0)]: every column is
    filtered on its own; the result is the array of the same shape. *)
Definition savgol_filter_axis0 {C : Type} (df : DataFrame C)
    (window_length polyorder : nat) : result (list (list fval)) :=
  if savgol_args_ok (nrows df) window_length polyorder
  then Ok (map (fun i =>
                  map (fun j => savgol_point window_length polyorder
                                  (column_values df j) i)
                      (seq 0 (ncols df)))
               (seq 0 (nrows df)))
  else Raise ValueError.

(** Lines 103-109: from the cleaned frame to the smoothed frame. *)
Definition smooth_frame (cleaned : DataFrame string)
    (window_length polyorder : nat) : result (DataFrame string) :=
  let df := Pd.map_index (round_dec 1) cleaned in
  smoothed_data <- savgol_filter_axis0 df window_length polyorder ;;
  df_smoothed <- Pd.make_frame smoothed_data (columns df) (index df) ;;
  ret (Pd.round_frame 2 df_smoothed).

Definition smooth_band (window_length polyorder : nat) (d : RunDir) (b : band)
    : result RunDir :=
  try_except_all
    (match cleaned b d with
     | None => Ok d
     | Some file =>
         df <- read_csv file ;;
         out <- smooth_frame df window_length polyorder ;;
         ret (write_smoothed b out d)
     end)
    (fun _ => Ok d).

Definition apply_smoothing (d : RunDir) (window_length polyorder : nat)
    : result RunDir :=
  TimeAxis.for_each (smooth_band window_length polyorder) [NIR; VIS] d.

End Filter.

(** The defaults of the signature of [apply_smoothing]. *)
Definition default_window_length : nat := 11.
Definition default_polyorder : nat := 2.

End Smoothing.

(* ------------------------------------------------------------------------- *)
(** ** Stage 3: [merge_vis_nir_spectra] *)

Module Merge.

(** [a.intersection(b)] on unique labels: the labels of [a] that [b] has,
    in the order of [a]. *)
Definition intersection (a b : list string) : list string :=
  filter (fun c => existsb (String.eqb c) b) a.

Fixpoint position (c : string) (cols : list string) : option nat :=
  match cols with
  | [] => None
  | x :: r =>
      if String.eqb x c then Some 0%nat
      else match position c r with
           | Some j => Some (S j)
           | None => None
           end
  end.

(** [df[labels]]: the columns of these labels, in this order; a label the
    frame does not have is a [KeyError]. *)
Definition select_columns (df : DataFrame string) (labels : list string)
    : result (DataFrame string) :=
  js <- map_result
          (fun c => match position c (columns df) with
                    | Some j => Ok j
                    | None => Raise KeyError
                    end) labels ;;
  ret (mkDF labels
         (map (fun r => (fst r, map (fun j => nth j (snd r) NaN) js))
              (rows df))).

(** The rows of the overlap window. *)
Definition region (lo hi : fval) (df : DataFrame string) : DataFrame string :=
  Pd.filter_rows (fun w => geb w lo && leb w hi) df.

(** [Series.mean()], which leaves NaN cells out. *)
Definition mean_skipna (xs : list fval) : fval :=
  mean (filter (fun x => negb (isnan x)) xs).

(** [df.mean(axis=0)]: one mean per column. *)
Definition column_means (df : DataFrame string) : list fval :=
  map (fun j => mean_skipna (column_values df j)) (seq 0 (ncols df)).

(** One element of [np.where(vis_means > threshold, nir_means / vis_means, 1.0)] *)
Definition raw_factor (min_signal_threshold vis_mean nir_mean : fval) : fval :=
  if gtb vis_mean min_signal_threshold then div nir_mean vis_mean else one.

(** [.fillna(1.0).replace([np.inf, -np.inf], 1.0)] on one element *)
Definition clean_factor (s : fval) : fval :=
  match s with
  | Fin _ => s
  | PInf | NInf | NaN => one
  end.

Definition scaling_factor (min_signal_threshold vis_mean nir_mean : fval)
    : fval :=
  clean_factor (raw_factor min_signal_threshold vis_mean nir_mean).

Definition scaling_factors (min_signal_threshold : fval)
    (vis_means nir_means : list fval) : list fval :=
  map (fun vn => scaling_factor min_signal_threshold (fst vn) (snd vn))
      (combine vis_means nir_means).

(** [df.multiply(factors, axis=1)]: column [j] is multiplied by factor [j]. *)
Definition multiply_columns (df : DataFrame string) (factors : list fval)
    : DataFrame string :=
  mkDF (columns df)
       (map (fun r => (fst r, map (fun xs => mul (fst xs) (snd xs))
                                (combine (snd r) factors)))
            (rows df)).

(** The order of [sort_index]: ascending, NaN labels last. *)
Definition label_le (a b : fval) : bool :=
  if isnan b then true else if isnan a then false else leb a b.

Fixpoint insert_row (r : fval * list fval) (rs : list (fval * list fval))
    : list (fval * list fval) :=
  match rs with
  | [] => [r]
  | x :: rest =>
      if label_le (fst x) (fst r) then x :: insert_row r rest
      else r :: x :: rest
  end.

(** [df.sort_index()], as a stable sort of the rows by label. *)
Definition sort_rows (rs : list (fval * list fval))
    : list (fval * list fval) :=
  fold_left (fun acc r => insert_row r acc) rs [].

Definition sort_index (df : DataFrame string) : DataFrame string :=
  mkDF (columns df) (sort_rows (rows df)).

(** [pd.concat([a, b])] of two frames with the same columns. *)
Definition concat_rows (a b : DataFrame string) : DataFrame string :=
  mkDF (columns a) (rows a ++ rows b).

(** The visible frame after line 173, from the two aligned frames. *)
Definition scale_vis (df_nir df_vis : DataFrame string)
    (stitch_wavelength stitch_window min_signal_threshold : fval)
    : DataFrame string :=
  let lo := sub stitch_wavelength stitch_window in
  let hi := add stitch_wavelength stitch_window in
  let nir_region := region lo hi df_nir in
  let vis_region := region lo hi df_vis in
  let vis_means := column_means vis_region in
  let nir_means := column_means nir_region in
  multiply_columns df_vis
    (scaling_factors min_signal_threshold vis_means nir_means).

(** Lines 176-179. *)
Definition stitch (df_nir df_vis_scaled : DataFrame string)
    (stitch_wavelength : fval) : DataFrame string :=
  let part_vis :=
    Pd.filter_rows (fun w => ltb w stitch_wavelength) df_vis_scaled in
  let part_nir := Pd.filter_rows (fun w => geb w stitch_wavelength) df_nir in
  sort_index (concat_rows part_vis part_nir).

(** Lines 151-179: both bands are present. *)
Definition merge_frames (df_nir df_vis : DataFrame string)
    (stitch_wavelength stitch_window min_signal_threshold : fval)
    : result (DataFrame string) :=
  let common_cols := intersection (columns df_nir) (columns df_vis) in
  df_nir <- select_columns df_nir common_cols ;;
  df_vis <- select_columns df_vis common_cols ;;
  ret (stitch df_nir
         (scale_vis df_nir df_vis stitch_wavelength stitch_window
            min_signal_threshold)
         stitch_wavelength).

Definition merge_vis_nir_spectra (d : RunDir)
    (stitch_wavelength stitch_window min_signal_threshold : fval)
    : result RunDir :=
  try_except_all
    (match smoothed_nir d, smoothed_vis d with
     | None, None => Ok d
     | Some path_nir, None =>
         df <- read_csv path_nir ;; ret (write_merged df d)
     | None, Some path_vis =>
         df <- read_csv path_vis ;; ret (write_merged df d)
     | Some path_nir, Some path_vis =>
         df_nir <- read_csv path_nir ;;
         df_vis <- read_csv path_vis ;;
         df_merged <- merge_frames df_nir df_vis stitch_wavelength
                        stitch_window min_signal_threshold ;;
         ret (write_merged df_merged d)
     end)
    (fun _ => Ok d).

(** Strictly increasing labels, and rows in strictly increasing order of
    their labels. *)
Definition increasing (labels : list fval) : Prop :=
  StronglySorted (fun a b => ltb a b = true) labels.

Definition row_lt (r s : fval * list fval) : Prop :=
  ltb (fst r) (fst s) = true.

(** The defaults of the signature. *)
Definition default_stitch_wavelength : fval := of_Z 930.
Definition default_stitch_window : fval := of_Z 10.
Definition default_min_signal_threshold : fval := of_Z 50.

End Merge.

(* ------------------------------------------------------------------------- *)
(** ** Stage 4: [extract_spectral_features] *)

Module Features.

(** [HC_CONST = 1239.84193] *)
Definition HC_CONST : fval := of_Q (123984193 # 100000).

(** [np.argmax]: the first maximum; a NaN counts as the maximum and stops
    the scan. *)
Fixpoint argmax_from (xs : list fval) (i : nat) (mp : fval) (max_ind : nat)
    : nat :=
  match xs with
  | [] => max_ind
  | x :: r =>
      if isnan mp then max_ind
      else if negb (leb x mp) then argmax_from r (S i) x i
      else argmax_from r (S i) mp max_ind
  end.

Definition argmax (xs : list fval) : result nat :=
  match xs with
  | [] => Raise ValueError
  | x :: r => Ok (argmax_from r 1 x 0)
  end.

(** [a[i]] for an index known to be in range. *)
Definition item (xs : list fval) (i : nat) : fval := nth i xs NaN.

(** [a[i:j]] *)
Definition slice (xs : list fval) (i j : nat) : list fval :=
  firstn (j - i) (skipn i xs).

(** [HC_CONST / wavelengths] *)
Definition energies_of (wavelengths : list fval) : list fval :=
  map (fun w => div HC_CONST w) wavelengths.

(** [HC_CONST / (energies ** 2)] *)
Definition jacobian_factor (energies : list fval) : list fval :=
  map (fun e => div HC_CONST (mul e e)) energies.

(** [intensity * jacobian_factor] *)
Definition to_energy_space (intensity jac : list fval) : list fval :=
  map (fun xj => mul (fst xj) (snd xj)) (combine intensity jac).

(** [np.where(mask)[0]] for the mask [i < peak and a[i] < half_max]
    (resp. [i > peak]): the indices, ascending. *)
Definition below_left (a : list fval) (peak : nat) (half_max : fval)
    : list nat :=
  filter (fun i => (i <? peak)%nat && ltb (item a i) half_max)
         (seq 0 (List.length a)).

Definition below_right (a : list fval) (peak : nat) (half_max : fval)
    : list nat :=
  filter (fun i => (peak <? i)%nat && ltb (item a i) half_max)
         (seq 0 (List.length a)).

(** [l[-1]] and [l[0]] *)
Definition last_item (l : list nat) : result nat :=
  match rev l with
  | [] => Raise IndexError
  | i :: _ => Ok i
  end.

Definition first_item (l : list nat) : result nat :=
  match l with
  | [] => Raise IndexError
  | i :: _ => Ok i
  end.

(** [interp1d(x, y)(x_new)] for the two-point tables the extractor builds:
    the points are put in ascending order of [x], a value outside their
    range is a [ValueError], and the value is read off the chord. *)
Definition interp1d (x y : list fval) (x_new : fval) : result fval :=
  match x, y with
  | [x0; x1], [y0; y1] =>
      let swap := ltb x1 x0 || (isnan x0 && negb (isnan x1)) in
      let '(x_lo, y_lo, x_hi, y_hi) :=
        if swap then (x1, y1, x0, y0) else (x0, y0, x1, y1) in
      if ltb x_new x_lo then Raise ValueError
      else if gtb x_new x_hi then Raise ValueError
      else
        let slope := div (sub y_hi y_lo) (sub x_hi x_lo) in
        Ok (add (mul slope (sub x_new x_lo)) y_lo)
  | _, _ => Raise ValueError
  end.

(** Lines 262-276, the body of the inner [try]. *)
Definition fwhm_of (intensity_ev energies : list fval) (peak_idx_ev : nat)
    (half_max : fval) : result fval :=
  left_idx <- last_item (below_left intensity_ev peak_idx_ev half_max) ;;
  right_idx <- first_item (below_right intensity_ev peak_idx_ev half_max) ;;
  e_left <- interp1d (slice intensity_ev left_idx (left_idx + 2))
              (slice energies left_idx (left_idx + 2)) half_max ;;
  e_right <- interp1d (slice intensity_ev (right_idx - 1) (right_idx + 1))
               (slice energies (right_idx - 1) (right_idx + 1)) half_max ;;
  ret (abs (sub e_left e_right)).

(** The peak index in energy space (line 258). *)
Definition peak_index_ev (wavelengths intensity : list fval) : result nat :=
  argmax (to_energy_space intensity
            (jacobian_factor (energies_of wavelengths))).

(** What the body of the loop does for one column; [gated] tells whether
    the [continue] of the noise filter was taken. *)
Record ColumnOutcome : Type := mkOutcome {
  record : FeatureRecord;
  gated : bool
}.

Definition analyse_column (wavelengths : list fval)
    (intensity_threshold time_threshold : fval)
    (timestamp : string) (intensity : list fval) : result ColumnOutcome :=
  peak_idx <- argmax intensity ;;
  let peak_int := item intensity peak_idx in
  let peak_wl := item wavelengths peak_idx in
  gate <- (if ltb peak_int intensity_threshold
           then t <- Str.py_float timestamp ;; ret (gtb t time_threshold)
           else Ok false) ;;
  if gate : bool then
    ret (mkOutcome (mkFeature timestamp peak_int NaN NaN) true)
  else
    let energies := energies_of wavelengths in
    let intensity_ev := to_energy_space intensity (jacobian_factor energies) in
    peak_idx_ev <- argmax intensity_ev ;;
    let half_max := div (item intensity_ev peak_idx_ev) (of_Z 2) in
    fwhm <- try_except
              (fwhm_of intensity_ev energies peak_idx_ev half_max)
              [IndexError; ValueError] (fun _ => Ok NaN) ;;
    ret (mkOutcome (mkFeature timestamp peak_int peak_wl fwhm) false).

(** The list [results] after the loop over the columns. *)
Definition feature_records (df : DataFrame string)
    (intensity_threshold time_threshold : fval)
    : result (list FeatureRecord) :=
  map_result
    (fun tj =>
       o <- analyse_column (index df) intensity_threshold time_threshold
              (fst tj) (column_values df (snd tj)) ;;
       ret (record o))
    (combine (columns df) (seq 0 (ncols df))).

Definition extract_spectral_features (d : RunDir)
    (intensity_threshold time_threshold : fval) : result RunDir :=
  match smoothed_nir d with
  | None => Ok d
  | Some input_file =>
      df <- read_csv input_file ;;
      results <- feature_records df intensity_threshold time_threshold ;;
      ret (write_features results d)
  end.

Definition default_intensity_threshold : fval := of_Z 50.
Definition default_time_threshold : fval := of_Z 100.

End Features.

(* ------------------------------------------------------------------------- *)
(** ** Stage 5: [compile_experiment_traces] *)

Module Traces.

(** A named pandas series: the labels are the timestamps of the feature
    file, compared as text. *)
Record Series : Type := mkSeries {
  name : string;
  s_index : list string;
  s_values : list fval
}.

(** A summary table: one column per series, one row per timestamp. *)
Record SummaryTable : Type := mkSummary {
  run_columns : list string;
  table_rows : list (string * list fval)
}.

Inductive metric : Type := MaxIntensity | PeakWavelength | FwhmEv.

(** [collector.keys()], in insertion order *)
Definition metrics : list metric := [MaxIntensity; PeakWavelength; FwhmEv].

(** [df[metric]] *)
Definition metric_column (m : metric) (recs : list FeatureRecord)
    : list fval :=
  map (match m with
       | MaxIntensity => max_intensity
       | PeakWavelength => peak_wavelength
       | FwhmEv => fwhm_ev
       end) recs.

Definition of_nat (n : nat) : fval := Fin (Qc_of_nat n).

(** The first value that is not NaN, with its position counted from [k]. *)
Fixpoint next_valid (xs : list fval) (k : nat) : option (nat * fval) :=
  match xs with
  | [] => None
  | x :: r => if isnan x then next_valid r (S k) else Some (k, x)
  end.

(** [Series.interpolate()] with its defaults: linear in the POSITION of the
    values (the index is ignored); a NaN after the last valid value takes
    that value; a NaN before the first valid value stays.  [prev] is the
    last valid value seen, with its position. *)
Fixpoint interpolate_from (prev : option (nat * fval)) (k : nat)
    (xs : list fval) : list fval :=
  match xs with
  | [] => []
  | x :: r =>
      if isnan x then
        match prev with
        | None => NaN
        | Some (i, a) =>
            match next_valid r (S k) with
            | None => a
            | Some (j, b) =>
                add (mul (div (sub b a) (of_nat (j - i))) (of_nat (k - i))) a
            end
        end :: interpolate_from prev (S k) r
      else x :: interpolate_from (Some (k, x)) (S k) r
  end.

Definition interpolate (xs : list fval) : list fval :=
  interpolate_from None 0 xs.

(** [Series.bfill()] *)
Fixpoint bfill (xs : list fval) : list fval :=
  match xs with
  | [] => []
  | x :: r =>
      let r' := bfill r in
      (if isnan x then match r' with y :: _ => y | [] => NaN end else x) :: r'
  end.

(** [Series.ffill()] *)
Fixpoint ffill_from (last : fval) (xs : list fval) : list fval :=
  match xs with
  | [] => []
  | x :: r =>
      if isnan x then last :: ffill_from last r else x :: ffill_from x r
  end.

Definition ffill (xs : list fval) : list fval := ffill_from NaN xs.

(** [df[metric].interpolate().bfill().ffill()] *)
Definition fill_gaps (xs : list fval) : list fval :=
  ffill (bfill (interpolate xs)).

(** [pd.read_csv(feature_file)] then [set_index('timestamp')]: a feature
    file without a record has no header line, and reading it raises. *)
Definition read_features (f : csv (list FeatureRecord))
    : result (list FeatureRecord) :=
  match f with
  | Malformed => Raise ParserError
  | Table [] => Raise ParserError
  | Table recs => Ok recs
  end.

Fixpoint nodupb (l : list string) : bool :=
  match l with
  | [] => true
  | x :: r => negb (existsb (String.eqb x) r) && nodupb r
  end.

Fixpoint list_eqb (a b : list string) : bool :=
  match a, b with
  | [], [] => true
  | x :: r, y :: s => String.eqb x y && list_eqb r s
  | _, _ => false
  end.

(** The union of the indexes, each label at its first appearance. *)
Definition union_index (ss : list Series) : list string :=
  fold_left
    (fun acc s =>
       acc ++ filter (fun t => negb (existsb (String.eqb t) acc))
                (s_index s))
    ss [].

(** The value of a series at a label; NaN when it has no such label. *)
Fixpoint lookup_label (t : string) (idx : list string) (vals : list fval)
    : fval :=
  match idx, vals with
  | i :: idx', v :: vals' =>
      if String.eqb i t then v else lookup_label t idx' vals'
  | _, _ => NaN
  end.

Definition value_at (s : Series) (t : string) : fval :=
  lookup_label t (s_index s) (s_values s).

(** [pd.concat(series_list, axis=1)]: an outer join on the labels.  Series
    whose indexes are all the same are put side by side; otherwise every
    index must be free of duplicates. *)
Definition concat_axis1 (ss : list Series) : result SummaryTable :=
  if forallb (fun s => nodupb (s_index s)) ss then
    Ok (mkSummary (map name ss)
          (map (fun t => (t, map (fun s => value_at s t) ss))
               (union_index ss)))
  else
    match ss with
    | [] => Ok (mkSummary [] [])
    | s0 :: _ =>
        if forallb (fun s => list_eqb (s_index s) (s_index s0)) ss then
          Ok (mkSummary (map name ss)
                (map (fun i => (nth i (s_index s0) EmptyString,
                                map (fun s => nth i (s_values s) NaN) ss))
                     (seq 0 (List.length (s_index s0)))))
        else Raise ValueError
    end.

(** The three lists of [collector]. *)
Record Collector : Type := mkCollector {
  c_max_intensity : list Series;
  c_peak_wavelength : list Series;
  c_fwhm_ev : list Series
}.

Definition collected (m : metric) (c : Collector) : list Series :=
  match m with
  | MaxIntensity => c_max_intensity c
  | PeakWavelength => c_peak_wavelength c
  | FwhmEv => c_fwhm_ev c
  end.

(** [collector[metric].append(s)] *)
Definition append_series (m : metric) (s : Series) (c : Collector)
    : Collector :=
  match m with
  | MaxIntensity =>
      mkCollector (c_max_intensity c ++ [s]) (c_peak_wavelength c) (c_fwhm_ev c)
  | PeakWavelength =>
      mkCollector (c_max_intensity c) (c_peak_wavelength c ++ [s]) (c_fwhm_ev c)
  | FwhmEv =>
      mkCollector (c_max_intensity c) (c_peak_wavelength c) (c_fwhm_ev c ++ [s])
  end.

(** The three summary files; [None]: not written. *)
Record Summaries : Type := mkSummaries {
  summary_max_intensity : option SummaryTable;
  summary_peak_wavelength : option SummaryTable;
  summary_fwhm_ev : option SummaryTable
}.

Definition summary_of (m : metric) (s : Summaries) : option SummaryTable :=
  match m with
  | MaxIntensity => summary_max_intensity s
  | PeakWavelength => summary_peak_wavelength s
  | FwhmEv => summary_fwhm_ev s
  end.

Section Filter.

Variable savgol_point : nat -> nat -> list fval -> nat -> fval.

(** Lines 308-309: the smoothed trace of one metric of one run. *)
Definition trace (folder : string) (recs : list FeatureRecord)
    (window_length polyorder : nat) (m : metric) : result Series :=
  smoothed <- Smoothing.savgol_filter savgol_point
                (fill_gaps (metric_column m recs)) window_length polyorder ;;
  ret (mkSeries folder (map timestamp recs) smoothed).

(** The body of the loop over the folders. *)
Definition collect_folder (window_length polyorder : nat) (c : Collector)
    (run : string * RunDir) : result Collector :=
  match features (snd run) with
  | None => Ok c
  | Some feature_file =>
      recs <- read_features feature_file ;;
      TimeAxis.for_each
        (fun c m =>
           s <- trace (fst run) recs window_length polyorder m ;;
           ret (append_series m s c))
        metrics c
  end.

(** Lines 313-315 for one metric. *)
Definition save_summary (c : Collector) (m : metric)
    : result (option SummaryTable) :=
  match collected m c with
  | [] => Ok None
  | series_list => t <- concat_axis1 series_list ;; ret (Some t)
  end.

Definition compile_experiment_traces (runs : list (string * RunDir))
    (window_length polyorder : nat) : result Summaries :=
  c <- TimeAxis.for_each (collect_folder window_length polyorder) runs
         (mkCollector [] [] []) ;;
  a <- save_summary c MaxIntensity ;;
  b <- save_summary c PeakWavelength ;;
  f <- save_summary c FwhmEv ;;
  ret (mkSummaries a b f).

End Filter.

(** Linear interpolation over the timestamp axis, as the specification
    words the first step of the gap filling: a missing value between two
    valid ones is read off the chord drawn over the timestamps [ts]; a
    missing value with no valid value on one side stays missing. *)
Fixpoint next_valid_at (ts : list Qc) (xs : list fval) : option (Qc * fval) :=
  match ts, xs with
  | t :: ts', x :: r => if isnan x then next_valid_at ts' r else Some (t, x)
  | _, _ => None
  end.

Fixpoint spec_interpolate_from (prev : option (Qc * fval)) (ts : list Qc)
    (xs : list fval) : list fval :=
  match ts, xs with
  | t :: ts', x :: r =>
      if isnan x then
        match prev, next_valid_at ts' r with
        | Some (ti, a), Some (tj, b) =>
            add (mul (div (sub b a) (Fin (tj - ti)%Qc)) (Fin (t - ti)%Qc)) a
        | _, _ => NaN
        end :: spec_interpolate_from prev ts' r
      else x :: spec_interpolate_from (Some (t, x)) ts' r
  | _, _ => xs
  end.

Definition spec_fill_gaps (ts : list Qc) (xs : list fval) : list fval :=
  ffill (bfill (spec_interpolate_from None ts xs)).

(** Equally spaced timestamps [t0 + k*step, t0 + (k+1)*step, ...]. *)
Definition time_at (t0 step : Qc) (n : nat) : Qc :=
  (t0 + Qc_of_nat n * step)%Qc.

Definition progression (t0 step : Qc) (k n : nat) : list Qc :=
  map (time_at t0 step) (seq k n).

(** The last valid value seen, with the timestamp of its position. *)
Definition lift (t0 step : Qc) (prev : option (nat * fval))
    : option (Qc * fval) :=
  match prev with
  | Some (i, a) => Some (time_at t0 step i, a)
  | None => None
  end.

(** The defaults of the signature of [compile_experiment_traces]. *)
Definition default_window_length : nat := 11.
Definition default_polyorder : nat := 2.

Definition has_features (run : string * RunDir) : bool :=
  match features (snd run) with
  | Some _ => true
  | None => false
  end.

(** The label of a record read as an integer, when it is the decimal
    numeral of one: the text that the time axis of stage 1 leaves in the
    header of a cleaned file, and from there in the feature file.  On a
    column of such numerals, below 2^53 in absolute value, [read_csv]
    gives integer labels, and two labels are the same integer exactly when
    they are the same text. *)
Definition integer_label (s : string) : option Z :=
  match Str.py_int s with
  | Ok z =>
      if String.eqb (Pd.string_of_Z z) s && (Z.abs z <? 2 ^ 53)%Z
      then Some z else None
  | Raise _ => None
  end.

(** The timestamps of a feature file read as integers; [None] when one of
    them is not the decimal numeral of an integer. *)
Fixpoint time_axis (recs : list FeatureRecord) : option (list Z) :=
  match recs with
  | [] => Some []
  | r :: rest =>
      match integer_label (timestamp r), time_axis rest with
      | Some z, Some zs => Some (z :: zs)
      | _, _ => None
      end
  end.

(** A run the aggregator can take in: no feature file, or a readable one
    with at least [window_length] records whose timestamps are integer
    numerals, none of them repeated. *)
Definition compilable (window_length : nat) (run : string * RunDir) : bool :=
  match features (snd run) with
  | None => true
  | Some Malformed => false
  | Some (Table recs) =>
      (window_length <=? List.length recs)%nat
      && nodupb (map timestamp recs)
      && match time_axis recs with Some _ => true | None => false end
  end.

(** Timestamps [z0, z0 + 1, z0 + 2, ...], as the time axis has them when
    the stride is 1. *)
Definition consecutive (zs : list Z) : Prop :=
  exists z0 : Z,
    zs = map (fun k => (z0 + Z.of_nat k)%Z) (seq 0 (List.length zs)).

Definition time_of (z : Z) : Qc := Q2Qc (inject_Z z).

Section Expected.

Variable savgol_point : nat -> nat -> list fval -> nat -> fval.

(** The series [trace] returns for a run, in closed form; a run without
    feature file has none. *)
Definition expected_series (window_length polyorder : nat) (m : metric)
    (run : string * RunDir) : list Series :=
  match features (snd run) with
  | Some (Table recs) =>
      let x := fill_gaps (metric_column m recs) in
      [mkSeries (fst run) (map timestamp recs)
         (map (savgol_point window_length polyorder x)
              (seq 0 (List.length x)))]
  | _ => []
  end.

(** The processing of a series as the specification words it: the gaps
    are filled over the timestamps [ts], then the filter is applied. *)
Definition spec_trace (ts : list Qc) (xs : list fval)
    (window_length polyorder : nat) : result (list fval) :=
  Smoothing.savgol_filter savgol_point (spec_fill_gaps ts xs)
    window_length polyorder.

(** What a summary table is to hold, stated on the feature files alone.
    [field] is the channel, as the column of the feature file it is read
    from. *)
Section Joined.

Variable field : FeatureRecord -> fval.
Variables window_length polyorder : nat.

(** The cell of the column of [run] in the row labelled [label]: the
    filtered value of the record of the run that has this timestamp, where
    the series filtered is the column [field] of the feature file after
    [interpolate], [bfill] and [ffill]; a missing value when the run has no
    record with this timestamp. *)
Definition column_cell (run : string * RunDir) (label : string) (c : fval)
    : Prop :=
  exists recs smoothed,
    features (snd run) = Some (Table recs) /\
    Smoothing.savgol_filter savgol_point
      (ffill (bfill (interpolate (map field recs))))
      window_length polyorder = Ok smoothed /\
    ((~ In label (map timestamp recs) /\ c = NaN) \/
     (exists i r,
        nth_error recs i = Some r /\ timestamp r = label /\
        nth_error smoothed i = Some c)).

(** The outer join on the timestamps: one column per run that has a
    feature file, in the order of the folders and named after the folder;
    one row per timestamp that occurs in some feature file, no timestamp
    twice; in each row one cell per column. *)
Definition outer_join (runs : list (string * RunDir)) (t : SummaryTable)
    : Prop :=
  run_columns t = map fst (filter has_features runs) /\
  NoDup (map fst (table_rows t)) /\
  (forall label,
     In label (map fst (table_rows t)) <->
     exists run recs,
       In run runs /\ features (snd run) = Some (Table recs) /\
       In label (map timestamp recs)) /\
  (forall label cells,
     In (label, cells) (table_rows t) ->
     Forall2 (fun run c => column_cell run label c)
       (filter has_features runs) cells).

(** A summary file: the outer join when some run has a feature file, not
    written otherwise. *)
Definition summary_is (runs : list (string * RunDir))
    (o : option SummaryTable) : Prop :=
  match o with
  | Some t => outer_join runs t
  | None => filter has_features runs = []
  end.

End Joined.

End Expected.

End Traces.

(* ------------------------------------------------------------------------- *)
(** ** [process_data.main] *)

Module Pipeline.

(** The data directory: the parameters table, when a file
    [reaction_parameters*.csv] exists, and the sub-directories in the order
    of [iterdir]. *)
Record ExperimentDir : Type := mkExperiment {
  param_file : option (csv (list ReactionParameters));
  subdirs : list (string * RunDir)
}.

(** [f.name[0].isdigit()] *)
Definition is_reaction_folder (name : string) : bool :=
  match name with
  | EmptyString => false
  | String c _ => Str.isdigit c
  end.

Inductive Outcome : Type :=
| Stopped
| Finished (runs : list (string * RunDir)) (summaries : Traces.Summaries).

Section Filter.

Variable savgol_point : nat -> nat -> list fval -> nat -> fval.

(** The body of the processing loop.  [plot_reaction_heatmap] writes images
    only and catches what it raises; it is left out. *)
Definition process_folder (reaction_params_df : list ReactionParameters)
    (run : string * RunDir) : result (string * RunDir) :=
  let folder := fst run in
  d <- TimeAxis.standardize_time_axis (snd run) folder reaction_params_df ;;
  d <- Smoothing.apply_smoothing savgol_point d
         Smoothing.default_window_length Smoothing.default_polyorder ;;
  d <- Merge.merge_vis_nir_spectra d Merge.default_stitch_wavelength
         Merge.default_stitch_window Merge.default_min_signal_threshold ;;
  d <- Features.extract_spectral_features d
         Features.default_intensity_threshold
         Features.default_time_threshold ;;
  ret (folder, d).

Definition main (data : ExperimentDir) : result Outcome :=
  let reaction_folders :=
    filter (fun e => is_reaction_folder (fst e)) (subdirs data) in
  match param_file data with
  | None => Ok Stopped
  | Some f =>
      reaction_params_df <- read_csv f ;;
      runs <- map_result (process_folder reaction_params_df)
                reaction_folders ;;
      summaries <- Traces.compile_experiment_traces savgol_point runs
                     Traces.default_window_length
                     Traces.default_polyorder ;;
      ret (Finished runs summaries)
  end.

End Filter.

End Pipeline.


(* ------------------------------------------------------------------------- *)
(** ** A reference kernel for [savgol_filter]

    The Savitzky-Golay filter in [interp] mode, in exact arithmetic: the
    value at position [i] is read off the least-squares polynomial of the
    given order through the window around [i]; near an end of the signal
    the window is the first (or the last) [window_length] values.  It
    instantiates the kernel parameter wherever a development needs a
    concrete run of the pipeline. *)

Module Savgol.

Local Open Scope Qc_scope.

Definition qsum (xs : list Qc) : Qc := fold_right Qcplus 0 xs.

(** Row [a] of the normal equations of the fit, with its right-hand side
    as last entry. *)
Definition normal_row (ys : list Qc) (p a : nat) : list Qc :=
  let pos := seq 0 (List.length ys) in
  map (fun b => qsum (map (fun i => Qc_of_nat i ^ (a + b)) pos)) (seq 0 (S p))
  ++ [qsum (map (fun iy => Qc_of_nat (fst iy) ^ a * snd iy) (combine pos ys))].

(** Gaussian elimination on [n] augmented rows; the first entry of the
    first row is the pivot. *)
Fixpoint solve (n : nat) (rows : list (list Qc)) : list Qc :=
  match n, rows with
  | S n', (a :: ptail) :: rest =>
      let prow := map (fun x => x / a) ptail in
      let rest' :=
        map (fun r =>
               match r with
               | [] => []
               | b :: rt =>
                   map (fun xy => fst xy - b * snd xy) (combine rt prow)
               end) rest in
      let sol := solve n' rest' in
      let rhs := last prow 0 in
      let coefs := removelast prow in
      (rhs - qsum (map (fun cs => fst cs * snd cs) (combine coefs sol))) :: sol
  | _, _ => []
  end.

Definition polyfit (ys : list Qc) (p : nat) : list Qc :=
  solve (S p) (map (normal_row ys p) (seq 0 (S p))).

Definition polyval (c : list Qc) (x : Qc) : Qc :=
  fold_right (fun ck acc => ck + x * acc) 0 c.

Fixpoint finite_values (xs : list fval) : option (list Qc) :=
  match xs with
  | [] => Some []
  | Fin q :: r =>
      match finite_values r with
      | Some qs => Some (q :: qs)
      | None => None
      end
  | _ :: _ => None
  end.

Definition savgol_point (window_length polyorder : nat) (x : list fval)
    (i : nat) : fval :=
  let n := List.length x in
  let half := (window_length / 2)%nat in
  let start :=
    if (i <? half)%nat then 0%nat
    else if (n - half <=? i)%nat then (n - window_length)%nat
    else (i - half)%nat in
  match finite_values (firstn window_length (skipn start x)) with
  | None => NaN
  | Some ys => Fin (polyval (polyfit ys polyorder) (Qc_of_nat (i - start)))
  end.

End Savgol.

(* ------------------------------------------------------------------------- *)
(** ** Concrete inputs used by the examples *)

Module Examples.

Local Open Scope string_scope.

(** A column of a frame, as rows of one cell. *)
Definition one_column (label : string) (wavelengths cells : list fval)
    : DataFrame string :=
  mkDF [label] (combine wavelengths (map (fun x => [x]) cells)).

(** Eleven wavelengths, the first with three decimals. *)
Definition fine_wavelengths : list fval :=
  of_Q (900123 # 1000)
  :: map of_Z [901; 902; 903; 904; 905; 906; 907; 908; 909; 910].

Definition cleaned_fine : DataFrame string :=
  one_column "0" fine_wavelengths
    (map of_Z [10; 12; 15; 20; 40; 90; 40; 20; 15; 12; 10]).

(** The example of the specification: five near-infrared wavelengths, one
    timestamp. *)
Definition nir_wavelengths : list fval := map of_Z [900; 910; 920; 930; 940].
Definition nir_intensity : list fval := map of_Z [10; 50; 100; 50; 10].
Definition nir_example : DataFrame string :=
  one_column "5" nir_wavelengths nir_intensity.

(** Two smoothed bands around the stitch point, one timestamp: the mean of
    the visible band inside the window [920, 940] is 20. *)
Definition vis_weak : DataFrame string :=
  one_column "0" (map of_Z [900; 920; 925; 935])
    (map of_Z [7; 10; 20; 30]).

Definition nir_strong : DataFrame string :=
  one_column "0" (map of_Z [925; 935; 950])
    (map of_Z [100; 200; 300]).

(** A smoothed near-infrared frame with an early bright column and a late
    dim one. *)
Definition nir_two_columns : DataFrame string :=
  mkDF ["5"; "150"]
    (combine nir_wavelengths
       (map (map of_Z) [[10; 1]; [50; 2]; [100; 3]; [50; 2]; [10; 1]])).

(** Three run folders: the first and the third have a feature file (of
    eleven and of twelve records, some of them gated out), the second has
    none. *)
Definition feature_rows (stamps : list Z) (intensity wavelength width : list Z)
    : list FeatureRecord :=
  map (fun r =>
         match r with
         | (t, i, w, f) =>
             mkFeature (Pd.string_of_Z t) (of_Z i)
               (if (w =? 0)%Z then NaN else of_Z w)
               (if (f =? 0)%Z then NaN else of_Q (f # 1000))
         end)
      (combine (combine (combine stamps intensity) wavelength) width).

Definition features_a : list FeatureRecord :=
  feature_rows [0; 5; 10; 15; 20; 25; 30; 35; 40; 45; 50]
    [60; 80; 120; 150; 140; 130; 90; 70; 55; 52; 51]
    [0; 921; 922; 0; 0; 925; 926; 926; 927; 0; 0]
    [0; 30; 31; 0; 33; 0; 35; 36; 0; 38; 0].

Definition features_b : list FeatureRecord :=
  feature_rows [0; 5; 10; 15; 20; 25; 30; 35; 40; 45; 50; 55]
    [70; 90; 110; 130; 150; 170; 160; 150; 140; 130; 120; 110]
    [930; 931; 0; 933; 934; 935; 0; 0; 938; 939; 940; 941]
    [40; 41; 42; 0; 44; 45; 46; 47; 0; 49; 50; 51].

Definition run_with (recs : option (list FeatureRecord)) : RunDir :=
  mkRun [] None None None None None
    (match recs with Some l => Some (Table l) | None => None end).

Definition three_runs : list (string * RunDir) :=
  [("01_Ratio-0.5", run_with (Some features_a));
   ("02_Ratio-1.0", run_with None);
   ("03_Ratio-2.0", run_with (Some features_b))].

(** A fourth run, acquired with a stride of 1: twelve records with the
    timestamps 0 to 11, three of them gated out. *)
Definition features_c : list FeatureRecord :=
  feature_rows [0; 1; 2; 3; 4; 5; 6; 7; 8; 9; 10; 11]
    [65; 85; 105; 125; 145; 165; 155; 145; 135; 125; 115; 105]
    [0; 931; 932; 0; 0; 935; 936; 937; 938; 939; 940; 0]
    [0; 41; 42; 0; 0; 45; 46; 47; 48; 49; 50; 0].

Definition four_runs : list (string * RunDir) :=
  three_runs ++ [("04_Ratio-4.0", run_with (Some features_c))].

(** A feature file whose last record comes after a pause: the timestamps
    are 101 to 110, then 130; the record at 110 is gated out. *)
Definition features_late : list FeatureRecord :=
  feature_rows [101; 102; 103; 104; 105; 106; 107; 108; 109; 110; 130]
    [60; 80; 120; 150; 140; 130; 90; 70; 55; 40; 51]
    [920; 921; 922; 923; 924; 925; 926; 927; 928; 0; 940]
    [30; 31; 32; 33; 34; 35; 36; 37; 38; 0; 40].

Definition late_run : list (string * RunDir) :=
  [("01_Ratio-0.5", run_with (Some features_late))].

(** A run stopped after five acquisitions: a feature file of five
    records. *)
Definition short_run : list (string * RunDir) :=
  [("01_Ratio-0.5", run_with (Some (firstn 5 features_a)))].

(** A raw near-infrared file of twelve wavelengths and [n] acquisitions,
    with a peak near 925 nm that grows with time. *)
Definition raw_nir (n : nat) : DataFrame string :=
  mkDF (map (fun j => Pd.string_of_Z (Z.of_nat j)) (seq 0 n))
       (map (fun i =>
               (of_Z (900 + 5 * Z.of_nat i),
                map (fun j =>
                       of_Z (120 - 4 * (Z.of_nat i - 5) * (Z.of_nat i - 5)
                             + Z.of_nat j))
                    (seq 0 n)))
            (seq 0 12)).

Definition raw_run (n : nat) : RunDir :=
  mkRun [("Emission_nir_corrected.csv", Table (raw_nir n))]
    None None None None None None.

(** A data directory with its parameters table and two runs: the first
    was stopped after five acquisitions, the second has twelve. *)
Definition two_runs : Pipeline.ExperimentDir :=
  Pipeline.mkExperiment
    (Some (Table [mkParams 1 5 1; mkParams 2 12 1]))
    [("01_Ratio-0.5", raw_run 5); ("02_Ratio-1.0", raw_run 12)].

(** The same directory without the short run. *)
Definition long_run_only : Pipeline.ExperimentDir :=
  Pipeline.mkExperiment
    (Some (Table [mkParams 1 5 1; mkParams 2 12 1]))
    [("02_Ratio-1.0", raw_run 12)].

(** A run folder whose only file is a smoothed near-infrared file that
    cannot be parsed. *)
Definition stale_run : RunDir :=
  mkRun [] None None (Some Malformed) None None None.

End Examples.

(* ------------------------------------------------------------------------- *)
(** ** Predicates used by the further properties *)

Module More.

(** Rows in the order of [sort_index]. *)
Definition row_le (r s : fval * list fval) : Prop :=
  Merge.label_le (fst r) (fst s) = true.

(** Labels in ascending order, none of them NaN. *)
Definition ascending (labels : list fval) : Prop :=
  StronglySorted (fun a b => leb a b = true) labels /\
  Forall (fun l => isnan l = false) labels.

(** A visible band with a strong signal in the overlap window [920, 940]:
    its mean there is 80. *)
Definition vis_bright : DataFrame string :=
  Examples.one_column "0"%string (map of_Z [900; 920; 925; 935])
    (map of_Z [7; 60; 80; 100]).

(** An ASCII letter. *)
Definition is_letter (c : ascii) : bool :=
  let n := nat_of_ascii c in
  ((65 <=? n)%nat && (n <=? 90)%nat) || ((97 <=? n)%nat && (n <=? 122)%nat).

(** Does the text hold a letter?  No spelling of an integer that [int]
    reads in base 10 has one. *)
Fixpoint has_letter (s : string) : bool :=
  match s with
  | EmptyString => false
  | String c r => is_letter c || has_letter r
  end.

(** The letters of the spellings [float] reads: those of [inf],
    [infinity] and [nan], and the [e] of the exponent, in either case. *)
Definition float_letter (c : ascii) : bool :=
  existsb (Ascii.eqb c)
    ["a"; "e"; "f"; "i"; "n"; "t"; "y";
     "A"; "E"; "F"; "I"; "N"; "T"; "Y"]%char.

(** Does the text hold a letter that no spelling of a number has? *)
Fixpoint has_foreign_letter (s : string) : bool :=
  match s with
  | EmptyString => false
  | String c r =>
      (is_letter c && negb (float_letter c)) || has_foreign_letter r
  end.

End More.
(* ========================================================================= *)
(** * Properties *)

(* ------------------------------------------------------------------------- *)
(** ** Generic facts on results and loops *)

Lemma bind_ok_inv (A B : Type) (c : result A) (k : A -> result B) (b : B) :
  Py.bind c k = Ok b -> exists a, c = Ok a /\ k a = Ok b.
Proof.
  destruct c as [a | e]; simpl; intros H; [exists a; auto | discriminate].
Qed.

Lemma try_except_all_returns (A : Type) (c : result A) (h : exn -> result A) :
  (forall e, Py.returns (h e)) -> Py.returns (Py.try_except_all c h).
Proof.
  intros Hh. destruct c as [a | e]; simpl.
  - exists a; reflexivity.
  - apply Hh.
Qed.

Lemma for_each_returns (A S : Type) (body : S -> A -> result S) (xs : list A) :
  (forall s x, Py.returns (body s x)) ->
  forall s, Py.returns (TimeAxis.for_each body xs s).
Proof.
  intros Hb. induction xs as [| x r IH]; intros s; simpl.
  - exists s; reflexivity.
  - destruct (Hb s x) as [s' Hs']. rewrite Hs'. simpl. apply IH.
Qed.

Lemma map_result_length (A B : Type) (f : A -> result B) (xs : list A)
    (ys : list B) :
  Py.map_result f xs = Ok ys -> List.length ys = List.length xs.
Proof.
  revert ys. induction xs as [| x r IH]; simpl; intros ys H.
  - inversion H; reflexivity.
  - destruct (f x) as [y | e]; [| discriminate].
    destruct (Py.map_result f r) as [ys' | e]; [| discriminate].
    inversion H; subst. simpl. f_equal. apply IH. reflexivity.
Qed.

Lemma map_result_all_ok (A B : Type) (f : A -> result B) (g : A -> B)
    (xs : list A) :
  (forall x, In x xs -> f x = Ok (g x)) ->
  Py.map_result f xs = Ok (map g xs).
Proof.
  induction xs as [| x r IH]; simpl; intros H; [reflexivity |].
  rewrite (H x (or_introl eq_refl)). rewrite IH; auto.
Qed.

(* ------------------------------------------------------------------------- *)
(** ** Numbers *)

Lemma Qc_eqb_eq (a b : Qc) : Num.Qc_eqb a b = true <-> a = b.
Proof.
  unfold Num.Qc_eqb. rewrite Qceq_alt.
  destruct (a ?= b)%Qc; split; intros H; try reflexivity; discriminate.
Qed.

Lemma same_eq (x y : fval) : Num.same x y = true <-> x = y.
Proof.
  destruct x as [a | | |], y as [b | | |]; simpl;
    try (split; [reflexivity | reflexivity]);
    try (split; intros H; discriminate).
  rewrite Qc_eqb_eq. split; intros H; [now subst | now inversion H].
Qed.

Lemma same_neq (x y : fval) : Num.same x y = false -> x <> y.
Proof.
  intros H E. apply same_eq in E. congruence.
Qed.

Lemma mul_one_r (x : fval) : Num.mul x Num.one = x.
Proof.
  destruct x as [a | | |]; try reflexivity.
  simpl. f_equal. apply Qcmult_1_r.
Qed.

Lemma ltb_irrefl (x : fval) : Num.ltb x x = false.
Proof.
  destruct x as [a | | |]; try reflexivity.
  simpl. unfold Num.Qc_ltb.
  assert (E : (a ?= a)%Qc = Eq) by now apply Qceq_alt.
  now rewrite E.
Qed.

(* ------------------------------------------------------------------------- *)
(** ** Stage 1: the time axis *)

Section TimeAxisFacts.

Lemma arange_len_ceil (stop step : Z) :
  0 < step -> Np.arange_len stop step = Z.max 0 ((stop + step - 1) / step).
Proof.
  intros Hs. unfold Np.arange_len. f_equal.
  apply Z.div_unique with (r := step - 1 - (- stop) mod step).
  - left. pose proof (Z.mod_pos_bound (- stop) step Hs). lia.
  - pose proof (Z.div_mod (- stop) step ltac:(lia)). lia.
Qed.

Lemma multiples_sorted (f : Z) (a n : nat) :
  0 < f ->
  StronglySorted Z.lt (map (fun k => Z.of_nat k * f) (seq a n)).
Proof.
  intros Hf. revert a. induction n as [| n IH]; intros a; simpl.
  - constructor.
  - constructor; [apply IH |].
    apply Forall_forall. intros t Ht.
    apply in_map_iff in Ht. destruct Ht as [k [<- Hk]].
    apply in_seq in Hk. nia.
Qed.

Lemma multiples_below (f stop : Z) (n : nat) :
  0 < f -> Z.of_nat n <= (stop + f - 1) / f ->
  Forall (fun t => 0 <= t < stop)
    (map (fun k => Z.of_nat k * f) (seq 0 n)).
Proof.
  intros Hf Hn. apply Forall_forall. intros t Ht.
  apply in_map_iff in Ht. destruct Ht as [k [<- Hk]].
  apply in_seq in Hk.
  pose proof (Z.div_mod (stop + f - 1) f ltac:(lia)) as Hd.
  pose proof (Z.mod_pos_bound (stop + f - 1) f Hf) as Hm.
  split; [nia |].
  assert (Z.of_nat k + 1 <= (stop + f - 1) / f) by lia.
  nia.
Qed.

Lemma lookup_params_found (tbl : list ReactionParameters) (rid : Z)
    (p : ReactionParameters) :
  TimeAxis.lookup_params tbl rid = Ok p -> In p tbl /\ reaction_id p = rid.
Proof.
  unfold TimeAxis.lookup_params.
  destruct (filter _ tbl) as [| q l] eqn:E; [discriminate |].
  intros H; inversion H; subst q.
  assert (Hin : In p (filter (fun p0 => reaction_id p0 =? rid) tbl))
    by (rewrite E; left; reflexivity).
  apply filter_In in Hin. destruct Hin as [Hin Hid].
  split; [exact Hin | now apply Z.eqb_eq].
Qed.

(** C1, counterexample: with 10 measurements and a stride of 5 the reaction
    is found in the table, and the time axis built for it is [0; 5]: two
    elements, not ten. *)
Lemma time_axis_count_counterexample :
  let p := mkParams 1 10 5 in
  TimeAxis.lookup_params [p] 1 = Ok p /\
  TimeAxis.time_points p = Ok [0; 5] /\
  ~ (exists tp, TimeAxis.time_points p = Ok tp /\
                tp = TimeAxis.spec_time_axis (num_measurements p)
                       (frequency p)) /\
  ~ (exists tp, TimeAxis.time_points p = Ok tp /\
                Z.of_nat (List.length tp) = num_measurements p).
Proof.
  cbv zeta. repeat split; try reflexivity.
  - intros [tp [H1 H2]]. vm_compute in H1, H2. congruence.
  - intros [tp [H1 H2]]. vm_compute in H1. inversion H1; subst tp.
    vm_compute in H2. discriminate.
Qed.

(** C1, amended: for a run found in the parameters table, with a stride of
    at least 1, the time axis is the sequence [0, f, 2f, ...] of the
    multiples of the stride below [num_measurements]; it has
    [ceil(num_measurements / frequency)] elements (none when
    [num_measurements] is not positive), is strictly increasing, and has
    exactly [num_measurements] elements when the stride is 1. *)
Theorem time_axis_is_arange (tbl : list ReactionParameters) (rid : Z)
    (p : ReactionParameters) :
  TimeAxis.lookup_params tbl rid = Ok p ->
  1 <= frequency p ->
  exists tp,
    TimeAxis.time_points p = Ok tp /\
    tp = map (fun k => Z.of_nat k * frequency p) (seq 0 (List.length tp)) /\
    Z.of_nat (List.length tp)
      = Z.max 0 ((num_measurements p + frequency p - 1) / frequency p) /\
    StronglySorted Z.lt tp /\
    Forall (fun t => 0 <= t < num_measurements p) tp /\
    (frequency p = 1 ->
     Z.of_nat (List.length tp) = Z.max 0 (num_measurements p) /\
     tp = TimeAxis.spec_time_axis (num_measurements p) (frequency p)).
Proof.
  intros _ Hf.
  unfold TimeAxis.time_points, Np.arange.
  destruct (Z.eqb_spec (frequency p) 0) as [E | _]; [lia |].
  eexists; split; [reflexivity |].
  set (n := Z.to_nat (Np.arange_len (num_measurements p) (frequency p))).
  assert (Hlen : List.length
            (map (fun k => Z.of_nat k * frequency p) (seq 0 n)) = n)
    by (rewrite length_map, length_seq; reflexivity).
  assert (Hn : Z.of_nat n
            = Z.max 0 ((num_measurements p + frequency p - 1) / frequency p)).
  { unfold n. rewrite Z2Nat.id by (unfold Np.arange_len; lia).
    apply arange_len_ceil; lia. }
  rewrite Hlen. repeat split.
  - exact Hn.
  - apply multiples_sorted; lia.
  - destruct (Z.max_spec 0 ((num_measurements p + frequency p - 1)
                              / frequency p)) as [[Hlt Hm] | [Hle Hm]].
    + apply multiples_below; lia.
    + assert (n = 0%nat) by lia. subst n. rewrite H. constructor.
  - rewrite Hn, H. replace (num_measurements p + 1 - 1) with (num_measurements p)
      by lia. now rewrite Z.div_1_r.
  - unfold TimeAxis.spec_time_axis. f_equal. f_equal. unfold n.
    rewrite arange_len_ceil by lia. rewrite H.
    replace (num_measurements p + 1 - 1) with (num_measurements p) by lia.
    rewrite Z.div_1_r. lia.
Qed.

Lemma time_axis_is_arange_witness :
  let p := mkParams 1 10 5 in
  exists tp,
    TimeAxis.time_points p = Ok tp /\
    tp = map (fun k => Z.of_nat k * frequency p) (seq 0 (List.length tp)) /\
    Z.of_nat (List.length tp)
      = Z.max 0 ((num_measurements p + frequency p - 1) / frequency p) /\
    StronglySorted Z.lt tp /\
    Forall (fun t => 0 <= t < num_measurements p) tp /\
    (frequency p = 1 ->
     Z.of_nat (List.length tp) = Z.max 0 (num_measurements p) /\
     tp = TimeAxis.spec_time_axis (num_measurements p) (frequency p)).
Proof.
  apply (@time_axis_is_arange [mkParams 1 10 5] 1 (mkParams 1 10 5)).
  - reflexivity.
  - simpl. lia.
Defined.

End TimeAxisFacts.

(* ------------------------------------------------------------------------- *)
(** ** Stage 1: truncation to the shorter of frame and time axis *)

Section TruncationFacts.

Lemma cutoff_columns (b : band) (df : DataFrame string) :
  columns (TimeAxis.cutoff b df) = columns df.
Proof. destruct b; reflexivity. Qed.

Lemma cutoff_ncols (b : band) (df : DataFrame string) :
  ncols (TimeAxis.cutoff b df) = ncols df.
Proof. unfold ncols. now rewrite cutoff_columns. Qed.

Lemma match_shape_lengths (df : DataFrame string) (tp : list Z) :
  let m := Nat.min (ncols df) (List.length tp) in
  ncols (fst (TimeAxis.match_shape df tp)) = m /\
  snd (TimeAxis.match_shape df tp) = firstn m tp.
Proof.
  unfold TimeAxis.match_shape.
  destruct (Nat.eqb_spec (ncols df) (List.length tp)) as [E | N]; simpl.
  - rewrite E, Nat.min_id. split; [reflexivity |].
    now rewrite firstn_all.
  - split; [| reflexivity].
    unfold ncols, Pd.iloc_cols; simpl. rewrite length_firstn.
    unfold ncols. lia.
Qed.

(** The cells that survive: a mismatch keeps, in every row, the leading
    cells; equal lengths keep the rows as they are. *)
Lemma match_shape_rows (df : DataFrame string) (tp : list Z) :
  let m := Nat.min (ncols df) (List.length tp) in
  rows (fst (TimeAxis.match_shape df tp))
  = if (ncols df =? List.length tp)%nat then rows df
    else map (fun r => (fst r, firstn m (snd r))) (rows df).
Proof.
  unfold TimeAxis.match_shape.
  destruct (ncols df =? List.length tp)%nat; reflexivity.
Qed.


Lemma standardize_frame_returns (b : band) (tp : list Z)
    (raw : DataFrame string) :
  Py.returns (TimeAxis.standardize_frame b tp raw).
Proof.
  unfold TimeAxis.standardize_frame.
  pose proof (match_shape_lengths (TimeAxis.cutoff b raw) tp) as Hs.
  cbv zeta in Hs.
  destruct (TimeAxis.match_shape (TimeAxis.cutoff b raw) tp) as [df ctp].
  simpl in Hs. destruct Hs as [Hc Ht].
  unfold Pd.set_columns.
  assert (Hlen : List.length ctp = ncols df).
  { rewrite Ht, Hc, length_firstn. lia. }
  rewrite Hlen, Nat.eqb_refl. eexists; reflexivity.
Qed.

(** The cleaned file of a band whose raw file is found and readable. *)
Lemma standardize_band_writes (tp : list Z) (d : RunDir) (b : band)
    (name : string) (raw : DataFrame string) :
  TimeAxis._get_file_by_prefix (corrected_data d)
    (prefix_of b ++ "_corrected")%string = Ok (name, Table raw) ->
  exists out,
    TimeAxis.standardize_frame b tp raw = Ok out /\
    TimeAxis.standardize_band tp d b
    = Ok (write_cleaned b (Pd.to_csv_int_columns out) d).
Proof.
  intros Hf.
  destruct (standardize_frame_returns b tp raw) as [out Ho].
  exists out. split; [exact Ho |].
  unfold TimeAxis.standardize_band. rewrite Hf. simpl. rewrite Ho.
  reflexivity.
Qed.

(** No band of the standardizer raises. *)
Lemma standardize_band_returns (tp : list Z) (d : RunDir) (b : band) :
  Py.returns (TimeAxis.standardize_band tp d b).
Proof.
  unfold TimeAxis.standardize_band. apply try_except_all_returns.
  intros e. exists d. reflexivity.
Qed.

End TruncationFacts.

(* ------------------------------------------------------------------------- *)
(** ** Strings: what [glob_match] accepts *)

Section StringFacts.

Local Open Scope string_scope.

Lemma length_append (a b : string) :
  String.length (a ++ b) = (String.length a + String.length b)%nat.
Proof. induction a as [| c a IH]; simpl; [reflexivity | now rewrite IH]. Qed.

Lemma append_assoc (a b c : string) : (a ++ b) ++ c = a ++ (b ++ c).
Proof. induction a as [| x a IH]; simpl; [reflexivity | now rewrite IH]. Qed.

Lemma prefix_iff (p s : string) :
  String.prefix p s = true <-> exists r, s = p ++ r.
Proof.
  revert s. induction p as [| a p IH]; intros s.
  - simpl. destruct s; split; intros _; try reflexivity; eexists; reflexivity.
  - destruct s as [| b s].
    + simpl. split; [discriminate | intros [r Hr]; discriminate].
    + cbn [String.prefix]. destruct (ascii_dec a b) as [-> | N].
      * specialize (IH s). split.
        -- intros H. apply IH in H. destruct H as [r ->]. now exists r.
        -- intros [r Hr]. apply IH. exists r. simpl in Hr. now inversion Hr.
      * split; [discriminate |]. intros [r Hr]. simpl in Hr.
        inversion Hr. congruence.
Qed.

Lemma substring_whole (s : string) : substring 0 (String.length s) s = s.
Proof. induction s as [| c s IH]; simpl; [reflexivity | now rewrite IH]. Qed.

Lemma substring_skip (p r : string) (a k : nat) :
  substring (String.length p + a) k (p ++ r) = substring a k r.
Proof. induction p as [| c p IH]; simpl; [reflexivity | exact IH]. Qed.

Lemma substring_split (s : string) (a : nat) :
  (a <= String.length s)%nat ->
  s = substring 0 a s ++ substring a (String.length s - a) s.
Proof.
  revert a. induction s as [| c s IH]; intros a Ha; simpl in *.
  - destruct a; [reflexivity | lia].
  - destruct a as [| a]; simpl.
    + now rewrite substring_whole.
    + f_equal. apply IH. lia.
Qed.

Lemma ends_with_iff (suf s : string) :
  Str.ends_with suf s = true <-> exists f, s = f ++ suf.
Proof.
  unfold Str.ends_with. split.
  - intros H. apply andb_prop in H. destruct H as [Hk He].
    apply Nat.leb_le in Hk. apply String.eqb_eq in He.
    exists (substring 0 (String.length s - String.length suf) s).
    pose proof (@substring_split s (String.length s - String.length suf)
                  ltac:(lia)) as Hs.
    replace (String.length s - (String.length s - String.length suf))%nat
      with (String.length suf) in Hs by lia.
    now rewrite He in Hs.
  - intros [f ->]. rewrite length_append.
    replace (String.length f + String.length suf - String.length suf)%nat
      with (String.length f + 0)%nat by lia.
    rewrite substring_skip, substring_whole, String.eqb_refl, andb_true_r.
    apply Nat.leb_le. lia.
Qed.

(** A name is accepted for a prefix exactly when it is the prefix, then
    any text, then [.csv]. *)
Lemma glob_match_iff (pre name : string) :
  Str.glob_match pre name = true <->
  exists mid, name = pre ++ mid ++ ".csv".
Proof.
  unfold Str.glob_match. split.
  - intros H. apply andb_prop in H. destruct H as [H Hl].
    apply andb_prop in H. destruct H as [Hp He].
    apply Nat.leb_le in Hl. apply prefix_iff in Hp. destruct Hp as [r ->].
    rewrite length_append in Hl.
    assert (Hr : Str.ends_with ".csv" r = true).
    { unfold Str.ends_with in *. apply andb_prop in He.
      destruct He as [_ He]. rewrite length_append in He.
      replace (String.length pre + String.length r - String.length ".csv")%nat
        with (String.length pre + (String.length r - String.length ".csv"))%nat
        in He by (simpl in *; lia).
      rewrite substring_skip in He. rewrite He, andb_true_r.
      apply Nat.leb_le. simpl in *. lia. }
    apply ends_with_iff in Hr. destruct Hr as [mid ->]. now exists mid.
  - intros [mid ->].
    assert (Hp : String.prefix pre (pre ++ mid ++ ".csv") = true)
      by (apply prefix_iff; eexists; reflexivity).
    assert (He : Str.ends_with ".csv" (pre ++ mid ++ ".csv") = true)
      by (apply ends_with_iff; exists (pre ++ mid); now rewrite append_assoc).
    rewrite Hp, He. simpl. apply Nat.leb_le.
    rewrite !length_append. simpl. lia.
Qed.

End StringFacts.

(* ------------------------------------------------------------------------- *)
(** ** Stage 1: locating the raw file *)

Section GlobFacts.

Variable F : Type.

Lemma filter_nil_iff (A : Type) (f : A -> bool) (l : list A) :
  filter f l = [] <-> forall x, In x l -> f x = false.
Proof.
  induction l as [| a l IH]; simpl.
  - split; [intros _ x [] | reflexivity].
  - destruct (f a) eqn:E.
    + split; [discriminate |].
      intros H. specialize (H a (or_introl eq_refl)). congruence.
    + rewrite IH. split.
      * intros H x [-> | Hx]; auto.
      * intros H x Hx. apply H. now right.
Qed.

Lemma filter_first (A : Type) (f : A -> bool) (pre post : list A) (x : A) :
  (forall y, In y pre -> f y = false) -> f x = true ->
  filter f (pre ++ x :: post) = x :: filter f post.
Proof.
  intros Hpre Hx. rewrite filter_app.
  assert (E : filter f pre = []) by now apply filter_nil_iff.
  rewrite E. simpl. now rewrite Hx.
Qed.

(** C10: [_get_file_by_prefix] raises exactly when no name of the listing
    matches [prefix*.csv], and what it raises is [FileNotFoundError]; when
    at least one name matches it returns the first match of the listing,
    whatever follows it: a second match is not an error. *)
Theorem get_file_by_prefix_first_match (directory : list (string * F))
    (prefix : string) :
  (Py.raises (TimeAxis._get_file_by_prefix directory prefix) <->
   forall e, In e directory -> Str.glob_match prefix (fst e) = false) /\
  (forall x, TimeAxis._get_file_by_prefix directory prefix = Raise x ->
             x = FileNotFoundError) /\
  (forall pre f post,
     directory = pre ++ f :: post ->
     (forall e, In e pre -> Str.glob_match prefix (fst e) = false) ->
     Str.glob_match prefix (fst f) = true ->
     TimeAxis._get_file_by_prefix directory prefix = Ok f).
Proof.
  unfold TimeAxis._get_file_by_prefix. repeat split.
  - intros [x Hx].
    destruct (filter _ directory) as [| f l] eqn:E; [| discriminate].
    exact (proj1 (filter_nil_iff _ _) E).
  - intros H.
    apply (filter_nil_iff (fun e : string * F => Str.glob_match prefix (fst e)))
      in H.
    rewrite H. exists FileNotFoundError. reflexivity.
  - intros x. destruct (filter _ directory); intros H; inversion H; reflexivity.
  - intros pre f post -> Hpre Hf.
    rewrite (filter_first (fun e : string * F => Str.glob_match prefix (fst e))
               pre post f Hpre Hf).
    reflexivity.
Qed.

End GlobFacts.

(** Two raw files with the prefix: the first of the listing is returned. *)
Lemma get_file_by_prefix_first_match_witness :
  let directory :=
    [("notes.txt", 0%nat); ("Emission_nir_corrected_a.csv", 1%nat);
     ("Emission_nir_corrected_b.csv", 2%nat)]%string in
  TimeAxis._get_file_by_prefix directory "Emission_nir_corrected"
  = Ok ("Emission_nir_corrected_a.csv"%string, 1%nat).
Proof.
  cbv zeta.
  apply (proj2 (proj2 (@get_file_by_prefix_first_match nat _ _)))
    with (pre := [("notes.txt"%string, 0%nat)])
         (post := [("Emission_nir_corrected_b.csv"%string, 2%nat)]).
  - reflexivity.
  - intros e [<- | []]. reflexivity.
  - reflexivity.
Defined.

(* ------------------------------------------------------------------------- *)
(** ** Stage 2: labels of the smoothed frame *)

Section SmoothingFacts.

Variable savgol_point : nat -> nat -> list fval -> nat -> fval.

Lemma savgol_axis0_shape (C : Type) (df : DataFrame C) (w p : nat)
    (data : list (list fval)) :
  Smoothing.savgol_filter_axis0 savgol_point df w p = Ok data ->
  List.length data = nrows df /\
  Forall (fun r => List.length r = ncols df) data.
Proof.
  unfold Smoothing.savgol_filter_axis0.
  destruct (Smoothing.savgol_args_ok (nrows df) w p); [| discriminate].
  intros H; inversion H; subst data; clear H. split.
  - now rewrite length_map, length_seq.
  - apply Forall_forall. intros r Hr.
    apply in_map_iff in Hr. destruct Hr as [i [<- _]].
    now rewrite length_map, length_seq.
Qed.

Lemma make_frame_ok (C : Type) (data : list (list fval)) (cols : list C)
    (idx : list fval) :
  List.length data = List.length idx ->
  Forall (fun r => List.length r = List.length cols) data ->
  Pd.make_frame data cols idx = Ok (mkDF cols (combine idx data)).
Proof.
  intros Hl Hr. unfold Pd.make_frame.
  rewrite Hl, Nat.eqb_refl. simpl.
  replace (forallb _ data) with true; [reflexivity |].
  symmetry. apply forallb_forall. intros r Hin.
  rewrite Forall_forall in Hr. rewrite (Hr r Hin). apply Nat.eqb_refl.
Qed.

Lemma map_fst_combine (A B : Type) (l : list A) (l' : list B) :
  List.length l = List.length l' -> map fst (combine l l') = l.
Proof.
  revert l'. induction l as [| a l IH]; intros [| b l']; simpl;
    intros H; try discriminate; [reflexivity |].
  f_equal. apply IH. now inversion H.
Qed.

Lemma map_index_index (C : Type) (f : fval -> fval) (df : DataFrame C) :
  index (Pd.map_index f df) = map f (index df).
Proof. unfold index, Pd.map_index; simpl. now rewrite !map_map. Qed.

Lemma round_frame_index (C : Type) (d : nat) (df : DataFrame C) :
  index (Pd.round_frame d df) = index df.
Proof. unfold index, Pd.round_frame; simpl. now rewrite map_map. Qed.

(** C4, amended: for every cleaned frame and every valid window (odd, not
    above the number of rows, above the polynomial order) the smoothed frame
    exists; its column labels are those of the cleaned frame, it has as many
    rows, each with one cell per column, and its row labels are the row
    labels of the cleaned frame rounded to one decimal: they are identical
    exactly for the labels that rounding leaves alone. *)
Theorem smoothed_labels (cleaned : DataFrame string) (w p : nat) :
  Nat.odd w = true -> (w <= nrows cleaned)%nat -> (p < w)%nat ->
  exists out,
    Smoothing.smooth_frame savgol_point cleaned w p = Ok out /\
    columns out = columns cleaned /\
    index out = map (round_dec 1) (index cleaned) /\
    nrows out = nrows cleaned /\
    Forall (fun r => List.length (snd r) = ncols cleaned) (rows out) /\
    (Forall (fun l => round_dec 1 l = l) (index cleaned) ->
     index out = index cleaned).
Proof.
  intros Hodd Hw Hp. unfold Smoothing.smooth_frame.
  set (df := Pd.map_index (round_dec 1) cleaned).
  assert (Hn : nrows df = nrows cleaned)
    by (unfold nrows, df, Pd.map_index; simpl; apply length_map).
  assert (Hok : Smoothing.savgol_args_ok (nrows df) w p = true).
  { unfold Smoothing.savgol_args_ok. rewrite Hn, Hodd.
    apply Nat.ltb_lt in Hp. apply Nat.leb_le in Hw. now rewrite Hp, Hw. }
  destruct (Smoothing.savgol_filter_axis0 savgol_point df w p)
    as [data | e] eqn:E.
  2:{ unfold Smoothing.savgol_filter_axis0 in E. rewrite Hok in E.
      discriminate. }
  destruct (@savgol_axis0_shape _ _ _ _ _ E) as [Hl Hr].
  assert (Hli : List.length data = List.length (index df))
    by (unfold index; rewrite length_map; exact Hl).
  cbn [Py.bind]. rewrite (@make_frame_ok _ data (columns df) (index df) Hli Hr).
  cbn [Py.bind].
  eexists; split; [reflexivity |].
  assert (Hidx : index (Pd.round_frame 2
                          (mkDF (columns df) (combine (index df) data)))
                 = map (round_dec 1) (index cleaned)).
  { rewrite round_frame_index. unfold index at 1; simpl.
    rewrite map_fst_combine by (symmetry; exact Hli).
    apply map_index_index. }
  repeat split.
  - exact Hidx.
  - unfold nrows, Pd.round_frame; simpl.
    rewrite length_map, length_combine, <- Hli, Nat.min_id, Hl. exact Hn.
  - unfold Pd.round_frame; simpl. apply Forall_forall. intros r Hin.
    apply in_map_iff in Hin. destruct Hin as [[l cells] [<- Hin]]. simpl.
    rewrite length_map. apply in_combine_r in Hin.
    rewrite Forall_forall in Hr. apply (Hr cells Hin).
  - intros Hfix. rewrite Hidx.
    clear - Hfix. induction Hfix as [| l ls Hl _ IH]; simpl;
      [reflexivity | now rewrite Hl, IH].
Qed.

(** An invalid window leaves the band without smoothed file, and does not
    raise. *)
Lemma smooth_band_returns (w p : nat) (d : RunDir) (b : band) :
  Py.returns (Smoothing.smooth_band savgol_point w p d b).
Proof.
  unfold Smoothing.smooth_band. apply try_except_all_returns.
  intros e. exists d. reflexivity.
Qed.

Lemma apply_smoothing_returns (d : RunDir) (w p : nat) :
  Py.returns (Smoothing.apply_smoothing savgol_point d w p).
Proof.
  unfold Smoothing.apply_smoothing. apply for_each_returns.
  intros s x. apply smooth_band_returns.
Qed.

End SmoothingFacts.

(** C4, counterexample: a cleaned frame of eleven rows whose first
    wavelength is 900.123, smoothed with the default window; the smoothed
    frame has the same column labels, but its first row label is 900.1: the
    row labels are not those of the cleaned input. *)
Lemma smoothed_labels_counterexample :
  exists out,
    Smoothing.smooth_frame Savgol.savgol_point Examples.cleaned_fine 11 2
    = Ok out /\
    columns out = columns Examples.cleaned_fine /\
    nth 0 (index Examples.cleaned_fine) NaN = of_Q (900123 # 1000) /\
    nth 0 (index out) NaN = of_Q (9001 # 10) /\
    index out <> index Examples.cleaned_fine.
Proof.
  eexists. split; [vm_compute; reflexivity |].
  split; [reflexivity |]. split; [reflexivity |].
  split; [apply same_eq; vm_compute; reflexivity |].
  intros H.
  assert (E : nth 0 (index Examples.cleaned_fine) NaN = of_Q (9001 # 10)).
  { rewrite <- H. apply same_eq. vm_compute. reflexivity. }
  revert E. apply same_neq. vm_compute. reflexivity.
Qed.

Lemma smoothed_labels_witness :
  exists out,
    Smoothing.smooth_frame Savgol.savgol_point Examples.cleaned_fine 11 2
    = Ok out /\
    columns out = columns Examples.cleaned_fine /\
    index out = map (round_dec 1) (index Examples.cleaned_fine) /\
    nrows out = nrows Examples.cleaned_fine /\
    Forall (fun r => List.length (snd r) = ncols Examples.cleaned_fine)
      (rows out) /\
    (Forall (fun l => round_dec 1 l = l) (index Examples.cleaned_fine) ->
     index out = index Examples.cleaned_fine).
Proof.
  apply (@smoothed_labels Savgol.savgol_point Examples.cleaned_fine 11 2).
  - reflexivity.
  - vm_compute. lia.
  - lia.
Defined.

(* ------------------------------------------------------------------------- *)
(** ** Stage 3: the scaling factor *)

Section ScalingFacts.

Lemma nth_map_combine (A B C : Type) (f : A * B -> C) (l : list A)
    (l' : list B) (j : nat) (a : A) (b : B) (c : C) :
  (j < List.length l)%nat -> (j < List.length l')%nat ->
  nth j (map f (combine l l')) c = f (nth j l a, nth j l' b).
Proof.
  revert l' j. induction l as [| x l IH]; intros [| y l'] j Hl Hl';
    simpl in *; try lia.
  destruct j as [| j]; [reflexivity |]. apply IH; lia.
Qed.

Lemma filter_rows_ncols (C : Type) (keep : fval -> bool) (df : DataFrame C) :
  ncols (Pd.filter_rows keep df) = ncols df.
Proof. reflexivity. Qed.

Lemma column_means_length (df : DataFrame string) :
  List.length (Merge.column_means df) = ncols df.
Proof. unfold Merge.column_means. now rewrite length_map, length_seq. Qed.

Lemma scaling_factor_low (thr vm nm : fval) :
  gtb vm thr = false -> Merge.scaling_factor thr vm nm = one.
Proof.
  intros H. unfold Merge.scaling_factor, Merge.raw_factor. now rewrite H.
Qed.

Lemma scaling_factor_finite (thr vm nm : fval) :
  isfinite (Merge.scaling_factor thr vm nm) = true.
Proof.
  unfold Merge.scaling_factor.
  destruct (Merge.raw_factor thr vm nm); reflexivity.
Qed.

Lemma scaling_factor_replaced (thr vm nm : fval) :
  isfinite (Merge.raw_factor thr vm nm) = false ->
  Merge.scaling_factor thr vm nm = one.
Proof.
  unfold Merge.scaling_factor.
  destruct (Merge.raw_factor thr vm nm); simpl; intros H;
    [discriminate | reflexivity | reflexivity | reflexivity].
Qed.

Lemma scaling_factor_kept (thr vm nm : fval) :
  isfinite (Merge.raw_factor thr vm nm) = true ->
  Merge.scaling_factor thr vm nm = Merge.raw_factor thr vm nm.
Proof.
  unfold Merge.scaling_factor.
  destruct (Merge.raw_factor thr vm nm); simpl; intros H;
    [reflexivity | discriminate | discriminate | discriminate].
Qed.

Lemma scaling_factors_nth (thr : fval) (vms nms : list fval) (j : nat) :
  (j < List.length vms)%nat -> (j < List.length nms)%nat ->
  nth j (Merge.scaling_factors thr vms nms) NaN
  = Merge.scaling_factor thr (nth j vms NaN) (nth j nms NaN).
Proof.
  intros Hv Hn. unfold Merge.scaling_factors.
  now rewrite (@nth_map_combine _ _ _ _ vms nms j NaN NaN NaN Hv Hn).
Qed.

Lemma multiply_by_one (df : DataFrame string) (factors : list fval)
    (j : nat) :
  (j < List.length factors)%nat -> nth j factors NaN = one ->
  column_values (Merge.multiply_columns df factors) j = column_values df j.
Proof.
  intros Hj H1. unfold column_values, Merge.multiply_columns; simpl.
  rewrite map_map. apply map_ext. intros [l cells]; simpl.
  destruct (Nat.lt_ge_cases j (List.length cells)) as [Hlt | Hge].
  - rewrite (@nth_map_combine _ _ _ _ cells factors j NaN NaN NaN Hlt Hj).
    simpl. rewrite H1. apply mul_one_r.
  - rewrite (nth_overflow cells NaN Hge). apply nth_overflow.
    rewrite length_map, length_combine. lia.
Qed.



(** A visible mean above the threshold with a near-infrared window that has
    no value: the quotient is NaN, the factor is 1. *)
Example undefined_factor_is_one :
  Merge.raw_factor (of_Z 50) (of_Z 80) NaN = NaN /\
  Merge.scaling_factor (of_Z 50) (of_Z 80) NaN = one /\
  Merge.scaling_factor (of_Z 50) (of_Z 80) PInf = one.
Proof. repeat split. Qed.

End ScalingFacts.

(* ------------------------------------------------------------------------- *)
(** ** The order on values *)

Section OrderFacts.

Lemma Qc_ltb_lt (a b : Qc) : Num.Qc_ltb a b = true <-> (a < b)%Qc.
Proof.
  unfold Num.Qc_ltb. rewrite Qclt_alt.
  destruct (a ?= b)%Qc; split; intros H; try reflexivity; discriminate.
Qed.

Lemma Qc_leb_le (a b : Qc) : Num.Qc_leb a b = true <-> (a <= b)%Qc.
Proof.
  unfold Num.Qc_leb. rewrite Qcle_alt.
  destruct (a ?= b)%Qc; split; intros H; try reflexivity;
    try discriminate; try (intros H'; discriminate).
  exfalso. apply H. reflexivity.
Qed.

Lemma ltb_leb (a b : fval) : ltb a b = true -> leb a b = true.
Proof.
  destruct a as [x | | |], b as [y | | |]; simpl; intros H;
    try reflexivity; try discriminate.
  apply Qc_leb_le. apply Qclt_le_weak. now apply Qc_ltb_lt.
Qed.

Lemma ltb_leb_trans (a s b : fval) :
  ltb a s = true -> leb s b = true -> ltb a b = true.
Proof.
  destruct a as [x | | |], s as [z | | |], b as [y | | |]; simpl;
    intros H1 H2; try reflexivity; try discriminate.
  apply Qc_ltb_lt. apply Qclt_le_trans with z.
  - now apply Qc_ltb_lt.
  - now apply Qc_leb_le.
Qed.

Lemma ltb_not_geb (a s : fval) : ltb a s = true -> geb a s = false.
Proof.
  unfold geb. intros H.
  destruct (leb s a) eqn:E; [| reflexivity].
  pose proof (ltb_leb_trans _ _ _ H E) as C.
  rewrite ltb_irrefl in C. discriminate.
Qed.

Lemma ltb_not_nan (a b : fval) :
  ltb a b = true -> isnan a = false /\ isnan b = false.
Proof.
  destruct a as [x | | |], b as [y | | |]; simpl; intros H;
    try discriminate; split; reflexivity.
Qed.

End OrderFacts.

(* ------------------------------------------------------------------------- *)
(** ** Sorted lists *)

Section SortedFacts.

Variables (A : Type) (R : A -> A -> Prop).

Lemma sorted_app (l1 l2 : list A) :
  StronglySorted R l1 -> StronglySorted R l2 ->
  (forall a b, In a l1 -> In b l2 -> R a b) ->
  StronglySorted R (l1 ++ l2).
Proof.
  intros H1 H2 H. induction H1 as [| a l Hs IH Hf]; simpl; [exact H2 |].
  constructor.
  - apply IH. intros x y Hx Hy. apply H; [now right | exact Hy].
  - apply Forall_app. split; [exact Hf |].
    apply Forall_forall. intros y Hy. apply H; [now left | exact Hy].
Qed.

Lemma sorted_before (a b : list A) (x : A) :
  StronglySorted R (a ++ x :: b) -> Forall (fun y => R y x) a.
Proof.
  induction a as [| y a IH]; simpl; intros H; [constructor |].
  inversion H as [| ? ? Hs Hf]; subst. constructor.
  - rewrite Forall_forall in Hf. apply Hf. apply in_elt.
  - now apply IH.
Qed.

Lemma sorted_filter (f : A -> bool) (l : list A) :
  StronglySorted R l -> StronglySorted R (filter f l).
Proof.
  induction 1 as [| a l Hs IH Hf]; simpl; [constructor |].
  destruct (f a); [| exact IH]. constructor; [exact IH |].
  rewrite Forall_forall in *. intros x Hx. apply Hf.
  now apply filter_In in Hx.
Qed.

Lemma sorted_nodup (l : list A) :
  (forall x, ~ R x x) -> StronglySorted R l -> NoDup l.
Proof.
  intros Hirr. induction 1 as [| a l Hs IH Hf]; constructor; [| exact IH].
  intros Hin. rewrite Forall_forall in Hf. exact (Hirr a (Hf a Hin)).
Qed.

End SortedFacts.

Lemma sorted_map (A B : Type) (R : B -> B -> Prop) (g : A -> B) (l : list A) :
  StronglySorted (fun a b => R (g a) (g b)) l <->
  StronglySorted R (map g l).
Proof.
  induction l as [| a l IH]; simpl.
  - split; constructor.
  - split; intros H; inversion H as [| ? ? Hs Hf]; subst; constructor.
    + now apply IH.
    + rewrite Forall_forall in *. intros y Hy.
      apply in_map_iff in Hy. destruct Hy as [x [<- Hx]]. now apply Hf.
    + now apply IH.
    + rewrite Forall_forall in *. intros x Hx.
      apply Hf. now apply in_map.
Qed.

(* ------------------------------------------------------------------------- *)
(** ** Stage 3: stitching *)

Section StitchFacts.

Import Merge (increasing, row_lt).

Lemma insert_row_last (r : fval * list fval)
    (acc : list (fval * list fval)) :
  Forall (fun x => row_lt x r) acc -> Merge.insert_row r acc = acc ++ [r].
Proof.
  induction 1 as [| x acc Hx _ IH]; simpl; [reflexivity |].
  unfold row_lt in Hx. destruct (ltb_not_nan _ _ Hx) as [Hnx Hnr].
  unfold Merge.label_le. rewrite Hnr, Hnx, (ltb_leb _ _ Hx).
  now rewrite IH.
Qed.

Lemma sort_sorted_rows (l acc : list (fval * list fval)) :
  StronglySorted row_lt (acc ++ l) ->
  fold_left (fun acc r => Merge.insert_row r acc) l acc = acc ++ l.
Proof.
  revert acc. induction l as [| r l IH]; intros acc H; simpl.
  - now rewrite app_nil_r.
  - rewrite (insert_row_last (sorted_before _ _ _ H)).
    rewrite IH; rewrite <- app_assoc; simpl; [reflexivity | exact H].
Qed.

Lemma sort_rows_id (l : list (fval * list fval)) :
  StronglySorted row_lt l -> Merge.sort_rows l = l.
Proof.
  intros H. unfold Merge.sort_rows. now rewrite sort_sorted_rows.
Qed.

Lemma multiply_columns_index (df : DataFrame string) (fs : list fval) :
  index (Merge.multiply_columns df fs) = index df.
Proof. unfold index, Merge.multiply_columns; simpl. now rewrite map_map. Qed.

(** The two parts of the stitch, put end to end, are already in order. *)
Lemma parts_sorted (nir vis : list (fval * list fval)) (sw : fval) :
  StronglySorted row_lt nir -> StronglySorted row_lt vis ->
  StronglySorted row_lt
    (filter (fun r => ltb (fst r) sw) vis
     ++ filter (fun r => geb (fst r) sw) nir).
Proof.
  intros Hn Hv. apply sorted_app.
  - now apply sorted_filter.
  - now apply sorted_filter.
  - intros a b Ha Hb. apply filter_In in Ha, Hb.
    destruct Ha as [_ Ha], Hb as [_ Hb].
    unfold row_lt. exact (ltb_leb_trans _ _ _ Ha Hb).
Qed.

Lemma stitch_rows (df_nir df_vis_scaled : DataFrame string) (sw : fval) :
  increasing (index df_nir) -> increasing (index df_vis_scaled) ->
  rows (Merge.stitch df_nir df_vis_scaled sw)
  = filter (fun r => ltb (fst r) sw) (rows df_vis_scaled)
    ++ filter (fun r => geb (fst r) sw) (rows df_nir).
Proof.
  intros Hn Hv. unfold Merge.stitch, Merge.sort_index, Merge.concat_rows.
  simpl. apply sort_rows_id. apply parts_sorted.
  - now apply (sorted_map (fun a b => ltb a b = true) fst).
  - now apply (sorted_map (fun a b => ltb a b = true) fst).
Qed.

Lemma position_in (c : string) (cols : list string) :
  In c cols -> exists j, Merge.position c cols = Some j.
Proof.
  induction cols as [| x cols IH]; simpl; [intros [] |].
  intros H. destruct (String.eqb_spec x c) as [E | N].
  - now exists 0%nat.
  - destruct H as [E | H]; [contradiction |].
    destruct (IH H) as [j Hj]. rewrite Hj. now exists (S j).
Qed.

Lemma select_columns_ok (df : DataFrame string) (labels : list string) :
  (forall c, In c labels -> In c (columns df)) ->
  exists out,
    Merge.select_columns df labels = Ok out /\
    columns out = labels /\ index out = index df /\
    Forall (fun r => List.length (snd r) = List.length labels) (rows out).
Proof.
  intros H. unfold Merge.select_columns.
  set (g := fun c => match Merge.position c (columns df) with
                     | Some j => j
                     | None => 0%nat
                     end).
  rewrite (@map_result_all_ok _ _ _ g labels).
  - simpl. eexists; split; [reflexivity |]. repeat split.
    + unfold index; simpl. now rewrite map_map.
    + apply Forall_forall. intros r Hr. apply in_map_iff in Hr.
      destruct Hr as [r0 [<- _]]. simpl. now rewrite !length_map.
  - intros c Hc. unfold g.
    destruct (position_in _ _ (H c Hc)) as [j Hj]. now rewrite Hj.
Qed.

Lemma intersection_left (a b : list string) (c : string) :
  In c (Merge.intersection a b) -> In c a /\ In c b.
Proof.
  unfold Merge.intersection. intros H. apply filter_In in H.
  destruct H as [Ha Hb]. split; [exact Ha |].
  apply existsb_exists in Hb. destruct Hb as [x [Hx E]].
  apply String.eqb_eq in E. now subst.
Qed.


End StitchFacts.


(** The merged frame of the two example bands: the visible rows below
    930 nm, unscaled because the visible signal in the window is weak, then
    the near-infrared rows from 930 nm on. *)
Example merged_example :
  exists merged,
    Merge.merge_frames Examples.nir_strong Examples.vis_weak
      Merge.default_stitch_wavelength Merge.default_stitch_window
      Merge.default_min_signal_threshold = Ok merged /\
    map (fun r => map (Num.same (fst r)) (map of_Z [900; 920; 925; 935; 950]))
        (rows merged)
    = [[true; false; false; false; false];
       [false; true; false; false; false];
       [false; false; true; false; false];
       [false; false; false; true; false];
       [false; false; false; false; true]] /\
    map (fun r => map (fun x => Num.same x (nth 0 (snd r) NaN))
                    (map of_Z [7; 10; 20; 200; 300]))
        (rows merged)
    = [[true; false; false; false; false];
       [false; true; false; false; false];
       [false; false; true; false; false];
       [false; false; false; true; false];
       [false; false; false; false; true]].
Proof.
  eexists. split; [vm_compute; reflexivity |].
  split; vm_compute; reflexivity.
Qed.

(** The merge step never raises. *)
Lemma merge_returns (d : RunDir) (sw win thr : fval) :
  Py.returns (Merge.merge_vis_nir_spectra d sw win thr).
Proof.
  unfold Merge.merge_vis_nir_spectra. apply try_except_all_returns.
  intros e. exists d. reflexivity.
Qed.

(* ------------------------------------------------------------------------- *)
(** ** Stage 4: the noise gate *)

Section FeatureFacts.

Lemma map_result_nth (A B : Type) (f : A -> result B) (xs : list A)
    (ys : list B) (j : nat) (x : A) :
  Py.map_result f xs = Ok ys -> nth_error xs j = Some x ->
  exists y, f x = Ok y /\ nth_error ys j = Some y.
Proof.
  revert ys j. induction xs as [| a xs IH]; intros ys j H Hj.
  - destruct j; discriminate.
  - simpl in H. destruct (f a) as [b | e] eqn:Ea; [| discriminate].
    destruct (Py.map_result f xs) as [bs | e] eqn:Es; [| discriminate].
    inversion H; subst ys; clear H.
    destruct j as [| j]; simpl in *.
    + inversion Hj; subst. exists b. auto.
    + apply (IH bs j eq_refl Hj).
Qed.

Lemma nth_error_combine_seq (A : Type) (l : list A) (j a : nat) (x : A) :
  nth_error l j = Some x ->
  nth_error (combine l (seq a (List.length l))) j = Some (x, (a + j)%nat).
Proof.
  revert j a. induction l as [| y l IH]; intros j a H.
  - destruct j; discriminate.
  - destruct j as [| j]; simpl in *.
    + inversion H; subst. now rewrite Nat.add_0_r.
    + rewrite (IH j (S a) H). f_equal. f_equal. lia.
Qed.

(** The gate on one column. *)
Lemma analyse_column_gated (wavelengths : list fval) (it tt : fval)
    (ts : string) (intensity : list fval) (peak_idx : nat) (t : fval) :
  Features.argmax intensity = Ok peak_idx ->
  ltb (Features.item intensity peak_idx) it = true ->
  Str.py_float ts = Ok t ->
  gtb t tt = true ->
  Features.analyse_column wavelengths it tt ts intensity
  = Ok (Features.mkOutcome
          (mkFeature ts (Features.item intensity peak_idx) NaN NaN) true).
Proof.
  intros Ha Hlow Ht Hlate. unfold Features.analyse_column.
  rewrite Ha. cbn [Py.bind]. rewrite Hlow, Ht. cbn [Py.bind].
  rewrite Hlate. reflexivity.
Qed.



End FeatureFacts.

(* ------------------------------------------------------------------------- *)
(** ** Stage 4: the example of the specification *)

Section ExampleFacts.

(** C3, counterexample: on the wavelengths [900..940] and the intensities
    [10, 50, 100, 50, 10] the wavelength-space peak has index 2, and the
    peak recomputed in energy space has index 2 as well: the two indices do
    not differ, so the energy-space peak is not shifted. *)
Lemma example_peak_shift_counterexample :
  Features.argmax Examples.nir_intensity = Ok 2%nat /\
  Features.peak_index_ev Examples.nir_wavelengths Examples.nir_intensity
  = Ok 2%nat /\
  ~ (exists i j,
       Features.argmax Examples.nir_intensity = Ok i /\
       Features.peak_index_ev Examples.nir_wavelengths Examples.nir_intensity
       = Ok j /\
       j <> i).
Proof.
  assert (Hi : Features.argmax Examples.nir_intensity = Ok 2%nat)
    by (vm_compute; reflexivity).
  assert (Hj : Features.peak_index_ev Examples.nir_wavelengths
                 Examples.nir_intensity = Ok 2%nat)
    by (vm_compute; reflexivity).
  split; [exact Hi |]. split; [exact Hj |].
  intros [i [j [Ei [Ej N]]]]. rewrite Hi in Ei. rewrite Hj in Ej.
  inversion Ei; inversion Ej; subst. now apply N.
Qed.

(** C3, amended: on that input, with the single timestamp "5", the
    extractor emits one record, with the peak at 920 nm and the intensity
    100 and a linewidth; the peak index recomputed in energy space after the
    Jacobian transformation is 2, the wavelength-space peak index: the peak
    is not shifted. *)
Theorem example_peak_not_shifted :
  index Examples.nir_example = Examples.nir_wavelengths /\
  column_values Examples.nir_example 0 = Examples.nir_intensity /\
  Features.argmax Examples.nir_intensity = Ok 2%nat /\
  Features.peak_index_ev Examples.nir_wavelengths Examples.nir_intensity
  = Ok 2%nat /\
  exists r,
    Features.feature_records Examples.nir_example
      Features.default_intensity_threshold Features.default_time_threshold
    = Ok [r] /\
    timestamp r = "5"%string /\
    max_intensity r = of_Z 100 /\
    peak_wavelength r = of_Z 920 /\
    fwhm_ev r
    = of_Q (319759885363263866681 # 10887985564477476000000).
Proof.
  split; [reflexivity |]. split; [reflexivity |].
  split; [vm_compute; reflexivity |]. split; [vm_compute; reflexivity |].
  eexists. split; [vm_compute; reflexivity |].
  split; [reflexivity |]. split; [reflexivity |]. split; [reflexivity |].
  apply same_eq. vm_compute. reflexivity.
Qed.

End ExampleFacts.

(* ------------------------------------------------------------------------- *)
(** ** Stage 5: the summary tables *)

Section TraceFacts.

Variable savgol_point : nat -> nat -> list fval -> nat -> fval.

Lemma interpolate_from_length (prev : option (nat * fval)) (k : nat)
    (xs : list fval) :
  List.length (Traces.interpolate_from prev k xs) = List.length xs.
Proof.
  revert prev k. induction xs as [| x r IH]; intros prev k; simpl;
    [reflexivity |].
  destruct (isnan x); simpl; now rewrite IH.
Qed.

Lemma bfill_length (xs : list fval) :
  List.length (Traces.bfill xs) = List.length xs.
Proof.
  induction xs as [| x r IH]; simpl; [reflexivity | now rewrite IH].
Qed.

Lemma ffill_from_length (last : fval) (xs : list fval) :
  List.length (Traces.ffill_from last xs) = List.length xs.
Proof.
  revert last. induction xs as [| x r IH]; intros last; simpl;
    [reflexivity |].
  destruct (isnan x); simpl; now rewrite IH.
Qed.

Lemma fill_gaps_length (xs : list fval) :
  List.length (Traces.fill_gaps xs) = List.length xs.
Proof.
  unfold Traces.fill_gaps, Traces.ffill, Traces.interpolate.
  now rewrite ffill_from_length, bfill_length, interpolate_from_length.
Qed.

Lemma metric_column_length (m : Traces.metric) (recs : list FeatureRecord) :
  List.length (Traces.metric_column m recs) = List.length recs.
Proof. unfold Traces.metric_column. apply length_map. Qed.

Lemma args_ok (n w p : nat) :
  Nat.odd w = true -> (p < w)%nat -> (w <= n)%nat ->
  Smoothing.savgol_args_ok n w p = true.
Proof.
  intros Ho Hp Hw. unfold Smoothing.savgol_args_ok.
  apply Nat.ltb_lt in Hp. apply Nat.leb_le in Hw. now rewrite Hp, Ho, Hw.
Qed.

Lemma trace_ok (folder : string) (recs : list FeatureRecord) (w p : nat)
    (m : Traces.metric) :
  Nat.odd w = true -> (p < w)%nat -> (w <= List.length recs)%nat ->
  Traces.trace savgol_point folder recs w p m
  = Ok (Traces.mkSeries folder (map timestamp recs)
          (map (savgol_point w p
                  (Traces.fill_gaps (Traces.metric_column m recs)))
               (seq 0 (List.length
                         (Traces.fill_gaps (Traces.metric_column m recs)))))).
Proof.
  intros Ho Hp Hw. unfold Traces.trace, Smoothing.savgol_filter.
  rewrite args_ok; [reflexivity | exact Ho | exact Hp |].
  now rewrite fill_gaps_length, metric_column_length.
Qed.

Lemma compilable_inv (w : nat) (run : string * RunDir)
    (recs : list FeatureRecord) :
  Traces.compilable w run = true ->
  features (snd run) = Some (Table recs) ->
  (w <= List.length recs)%nat /\
  Traces.nodupb (map timestamp recs) = true.
Proof.
  unfold Traces.compilable. intros H Hf. rewrite Hf in H.
  apply andb_prop in H. destruct H as [H _].
  apply andb_prop in H. destruct H as [Hw Hn].
  split; [now apply Nat.leb_le | exact Hn].
Qed.

Lemma compilable_readable (w : nat) (run : string * RunDir) :
  Traces.compilable w run = true ->
  features (snd run) <> Some Malformed.
Proof.
  unfold Traces.compilable. intros H Hf. rewrite Hf in H. discriminate.
Qed.

Lemma collect_folder_ok (w p : nat) (c : Traces.Collector)
    (run : string * RunDir) :
  Nat.odd w = true -> (p < w)%nat -> Traces.compilable w run = true ->
  exists c',
    Traces.collect_folder savgol_point w p c run = Ok c' /\
    forall m, Traces.collected m c'
              = Traces.collected m c
                ++ Traces.expected_series savgol_point w p m run.
Proof.
  intros Ho Hp Hc.
  unfold Traces.collect_folder, Traces.expected_series.
  destruct (features (snd run)) as [[| recs] |] eqn:Hf.
  - now elim (@compilable_readable w run Hc).
  - destruct (@compilable_inv w run recs Hc Hf) as [Hw _].
    assert (Hne : Traces.read_features (Table recs) = Ok recs).
    { destruct recs; [| reflexivity]. simpl in Hw.
      destruct w; [discriminate | lia]. }
    rewrite Hne. cbn [Py.bind]. unfold Traces.metrics.
    cbn [TimeAxis.for_each].
    rewrite !trace_ok by assumption. cbn [Py.bind].
    eexists; split; [reflexivity |].
    intros []; reflexivity.
  - exists c. split; [reflexivity |].
    intros m. now rewrite app_nil_r.
Qed.

Lemma collect_loop (w p : nat) (runs : list (string * RunDir))
    (c : Traces.Collector) :
  Nat.odd w = true -> (p < w)%nat ->
  forallb (Traces.compilable w) runs = true ->
  exists c',
    TimeAxis.for_each (Traces.collect_folder savgol_point w p) runs c
    = Ok c' /\
    forall m, Traces.collected m c'
              = Traces.collected m c
                ++ flat_map (Traces.expected_series savgol_point w p m) runs.
Proof.
  intros Ho Hp. revert c. induction runs as [| run runs IH]; intros c H.
  - exists c. split; [reflexivity |]. intros m. simpl. now rewrite app_nil_r.
  - simpl in H. apply andb_prop in H. destruct H as [Hr Hrs].
    destruct (collect_folder_ok c run Ho Hp Hr) as [c1 [E1 H1]].
    destruct (IH c1 Hrs) as [c2 [E2 H2]].
    exists c2. split.
    + simpl. rewrite E1. exact E2.
    + intros m. rewrite H2, H1. simpl. now rewrite app_assoc.
Qed.

Lemma expected_series_nodup (w p : nat) (m : Traces.metric)
    (runs : list (string * RunDir)) :
  forallb (Traces.compilable w) runs = true ->
  forallb (fun s => Traces.nodupb (Traces.s_index s))
    (flat_map (Traces.expected_series savgol_point w p m) runs) = true.
Proof.
  induction runs as [| run runs IH]; simpl; intros H; [reflexivity |].
  apply andb_prop in H. destruct H as [Hr Hrs].
  rewrite forallb_app, (IH Hrs), andb_true_r.
  unfold Traces.expected_series.
  destruct (features (snd run)) as [[| recs] |] eqn:Hf; try reflexivity.
  destruct (@compilable_inv w run recs Hr Hf) as [_ Hn].
  simpl. now rewrite Hn.
Qed.

Lemma expected_series_names (w p : nat) (m : Traces.metric)
    (runs : list (string * RunDir)) :
  forallb (Traces.compilable w) runs = true ->
  map Traces.name
    (flat_map (Traces.expected_series savgol_point w p m) runs)
  = map fst (filter Traces.has_features runs).
Proof.
  induction runs as [| run runs IH]; simpl; intros H; [reflexivity |].
  apply andb_prop in H. destruct H as [Hr Hrs].
  rewrite map_app, (IH Hrs).
  pose proof (@compilable_readable w run Hr) as Hm.
  unfold Traces.expected_series, Traces.has_features.
  destruct (features (snd run)) as [[| recs] |]; try reflexivity.
  now elim Hm.
Qed.

Lemma save_summary_ok (w p : nat) (m : Traces.metric)
    (runs : list (string * RunDir)) (c : Traces.Collector) :
  forallb (Traces.compilable w) runs = true ->
  Traces.collected m c
  = flat_map (Traces.expected_series savgol_point w p m) runs ->
  Traces.save_summary c m
  = Ok (match flat_map (Traces.expected_series savgol_point w p m) runs with
        | [] => None
        | ss =>
            Some (Traces.mkSummary (map Traces.name ss)
                    (map (fun t => (t, map (fun s => Traces.value_at s t) ss))
                         (Traces.union_index ss)))
        end).
Proof.
  intros H Hc. unfold Traces.save_summary.
  rewrite Hc.
  pose proof (expected_series_nodup w p m runs H) as Hn.
  destruct (flat_map _ runs) as [| s ss] eqn:E; [reflexivity |].
  unfold Traces.concat_axis1. rewrite Hn. reflexivity.
Qed.

End TraceFacts.

(* ------------------------------------------------------------------------- *)
(** ** Stage 5: filling the gaps over equally spaced timestamps *)

Section GapFacts.

Local Open Scope Qc_scope.

Lemma Qc_of_nat_add (a b : nat) :
  Qc_of_nat (a + b) = Qc_of_nat a + Qc_of_nat b.
Proof.
  unfold Qc_of_nat, Qcplus. apply Q2Qc_eq_iff. cbn [this Q2Qc].
  rewrite !Qred_correct, Nat2Z.inj_add, inject_Z_plus. reflexivity.
Qed.

Lemma Qc_of_nat_pos (n : nat) : (0 < n)%nat -> 0 < Qc_of_nat n.
Proof.
  intros H. unfold Qclt, Qc_of_nat. cbn [this Q2Qc].
  rewrite !Qred_correct. unfold Qlt; simpl. lia.
Qed.

Lemma Qc_pos_mul (a b : Qc) : 0 < a -> 0 < b -> 0 < a * b.
Proof.
  intros Ha Hb. rewrite <- (Qcmult_0_l b).
  now apply Qcmult_lt_compat_r.
Qed.

Lemma sgn_pos (b : Qc) : 0 < b -> Num.sgn b = Gt.
Proof. intros H. unfold Num.sgn. now apply Qcgt_alt. Qed.

Lemma Qc_pos_neq (b : Qc) : 0 < b -> b <> 0.
Proof. intros H E. subst. revert H. apply Qcle_not_lt, Qcle_refl. Qed.

Lemma Qc_eqb_pos (b : Qc) : 0 < b -> Num.Qc_eqb b (Q2Qc 0) = false.
Proof.
  intros H. unfold Num.Qc_eqb. fold (Num.sgn b). now rewrite sgn_pos.
Qed.

(** Stretching both legs of a chord by the same positive factor does not
    move the point read off it. *)
Lemma scale_eq (d : fval) (J K s : Qc) :
  0 < J -> 0 < K -> 0 < s ->
  mul (div d (Fin (J * s))) (Fin (K * s)) = mul (div d (Fin J)) (Fin K).
Proof.
  intros HJ HK Hs.
  pose proof (Qc_pos_mul HJ Hs) as HJs. pose proof (Qc_pos_mul HK Hs) as HKs.
  destruct d as [x | | |]; simpl.
  - rewrite (Qc_eqb_pos HJs), (Qc_eqb_pos HJ). simpl. f_equal.
    field. split; now apply Qc_pos_neq.
  - rewrite (sgn_pos HJs), (sgn_pos HJ). simpl.
    now rewrite (sgn_pos HKs), (sgn_pos HK).
  - rewrite (sgn_pos HJs), (sgn_pos HJ). simpl.
    now rewrite (sgn_pos HKs), (sgn_pos HK).
  - reflexivity.
Qed.

Variables (t0 step : Qc).
Hypothesis step_pos : 0 < step.

Local Abbreviation time := (Traces.time_at t0 step).
Local Abbreviation lift := (Traces.lift t0 step).

Lemma time_diff (i d : nat) : time (i + d) - time i = Qc_of_nat d * step.
Proof. unfold Traces.time_at. rewrite Qc_of_nat_add. ring. Qed.

Lemma chord_eq (d a : fval) (i k j : nat) :
  (i < k)%nat -> (k <= j)%nat ->
  add (mul (div d (Fin (time j - time i))) (Fin (time k - time i))) a
  = add (mul (div d (Traces.of_nat (j - i))) (Traces.of_nat (k - i))) a.
Proof.
  intros Hik Hkj. f_equal. unfold Traces.of_nat.
  replace j with (i + (j - i))%nat at 1 by lia.
  replace k with (i + (k - i))%nat at 1 by lia.
  rewrite !time_diff.
  apply scale_eq; [apply Qc_of_nat_pos; lia | apply Qc_of_nat_pos; lia |
                   exact step_pos].
Qed.

Lemma progression_cons (k n : nat) :
  Traces.progression t0 step k (S n)
  = time k :: Traces.progression t0 step (S k) n.
Proof. reflexivity. Qed.

Lemma next_valid_at_progression (r : list fval) (k : nat) :
  Traces.next_valid_at (Traces.progression t0 step k (List.length r)) r
  = lift (Traces.next_valid r k).
Proof.
  revert k. induction r as [| x r IH]; intros k; [reflexivity |].
  simpl List.length. rewrite progression_cons. simpl.
  destruct (isnan x); [apply IH | reflexivity].
Qed.

Lemma next_valid_bounds (r : list fval) (k j : nat) (b : fval) :
  Traces.next_valid r k = Some (j, b) -> (k <= j)%nat /\ isnan b = false.
Proof.
  revert k. induction r as [| x r IH]; intros k; simpl; [discriminate |].
  destruct (isnan x) eqn:E.
  - intros H. apply IH in H. split; [lia | tauto].
  - intros H. inversion H; subst. auto.
Qed.

(** A stretch without valid value. *)
Lemma interpolate_no_valid (prev : option (nat * fval)) (k : nat)
    (xs : list fval) :
  Traces.next_valid xs k = None ->
  Traces.interpolate_from prev k xs
  = repeat (match prev with Some (_, a) => a | None => NaN end)
      (List.length xs).
Proof.
  revert k. induction xs as [| x r IH]; intros k; simpl; [reflexivity |].
  destruct (isnan x); [| discriminate].
  intros H. rewrite (IH _ H). f_equal.
  destruct prev as [[i a] |]; [| reflexivity]. now rewrite H.
Qed.

Lemma spec_interpolate_no_valid (prev : option (Qc * fval)) (k : nat)
    (xs : list fval) :
  Traces.next_valid xs k = None ->
  Traces.spec_interpolate_from prev
    (Traces.progression t0 step k (List.length xs)) xs
  = repeat NaN (List.length xs).
Proof.
  revert k. induction xs as [| x r IH]; intros k; [reflexivity |].
  simpl List.length. rewrite progression_cons. simpl.
  destruct (isnan x); [| discriminate].
  intros H. rewrite (IH _ H). f_equal.
  rewrite next_valid_at_progression, H. simpl.
  destruct prev as [[ti a] |]; reflexivity.
Qed.

Lemma bfill_repeat (a : fval) (n : nat) :
  Traces.bfill (repeat a n) = repeat a n.
Proof.
  induction n as [| n IH]; simpl; [reflexivity |]. rewrite IH.
  destruct (isnan a) eqn:E; [| reflexivity].
  destruct n; simpl; [| reflexivity].
  destruct a; try discriminate. reflexivity.
Qed.

Lemma ffill_repeat_nan (last : fval) (n : nat) :
  Traces.ffill_from last (repeat NaN n) = repeat last n.
Proof. induction n as [| n IH]; simpl; [reflexivity | now rewrite IH]. Qed.

Lemma ffill_repeat_valid (last a : fval) (n : nat) :
  isnan a = false -> Traces.ffill_from last (repeat a n) = repeat a n.
Proof.
  intros H. revert last. induction n as [| n IH]; intros last; simpl;
    [reflexivity |].
  now rewrite H, IH.
Qed.

(** After the back-fill, a stretch that has a valid value starts with a
    value. *)
Lemma bfill_interpolate_head (prev : option (nat * fval)) (k : nat)
    (r : list fval) :
  Traces.next_valid r k <> None ->
  exists h t, Traces.bfill (Traces.interpolate_from prev k r) = h :: t /\
              isnan h = false.
Proof.
  revert prev k. induction r as [| x r IH]; intros prev k; simpl;
    [intros H; now elim H |].
  destruct (isnan x) eqn:E.
  - intros H. destruct (IH prev (S k) H) as [h [t [Eh Hh]]].
    cbn [Traces.bfill]. rewrite Eh.
    eexists; eexists; split; [reflexivity |].
    match goal with |- isnan (if isnan ?v then _ else _) = false =>
      destruct (isnan v) eqn:Ev; [exact Hh | exact Ev] end.
  - intros _. cbn [Traces.bfill]. rewrite E.
    eexists; eexists; split; [reflexivity |]. exact E.
Qed.

Lemma bfill_spec_head (prev : option (Qc * fval)) (k : nat)
    (r : list fval) :
  Traces.next_valid r k <> None ->
  exists h t,
    Traces.bfill
      (Traces.spec_interpolate_from prev
         (Traces.progression t0 step k (List.length r)) r) = h :: t /\
    isnan h = false.
Proof.
  revert prev k. induction r as [| x r IH]; intros prev k;
    [intros H; now elim H |].
  simpl List.length. rewrite progression_cons. simpl.
  destruct (isnan x) eqn:E.
  - intros H. destruct (IH prev (S k) H) as [h [t [Eh Hh]]].
    cbn [Traces.bfill]. rewrite Eh.
    eexists; eexists; split; [reflexivity |].
    match goal with |- isnan (if isnan ?v then _ else _) = false =>
      destruct (isnan v) eqn:Ev; [exact Hh | exact Ev] end.
  - intros _. cbn [Traces.bfill]. rewrite E.
    eexists; eexists; split; [reflexivity |]. exact E.
Qed.

Lemma fill_equiv (xs : list fval) :
  forall (prev : option (nat * fval)) (k : nat) (last : fval),
    (forall i a, prev = Some (i, a) -> (i < k)%nat) ->
    (Traces.next_valid xs k = None ->
     forall i a, prev = Some (i, a) -> last = a /\ isnan a = false) ->
    Traces.ffill_from last
      (Traces.bfill (Traces.interpolate_from prev k xs))
    = Traces.ffill_from last
        (Traces.bfill
           (Traces.spec_interpolate_from (lift prev)
              (Traces.progression t0 step k (List.length xs)) xs)).
Proof.
  induction xs as [| x r IH]; intros prev k last Hprev Hlast;
    [reflexivity |].
  destruct (Traces.next_valid (x :: r) k) as [[j b] |] eqn:Enext.
  2:{ rewrite (interpolate_no_valid prev _ _ Enext).
      rewrite (spec_interpolate_no_valid (lift prev) _ _ Enext).
      rewrite !bfill_repeat, ffill_repeat_nan.
      destruct prev as [[i a] |].
      - destruct (Hlast eq_refl i a eq_refl) as [-> Ha].
        now apply ffill_repeat_valid.
      - now rewrite ffill_repeat_nan. }
  clear Hlast. simpl List.length. rewrite progression_cons.
  simpl in Enext |- *. destruct (isnan x) eqn:Ex.
  - (* a gap, with a valid value further on *)
    rewrite next_valid_at_progression, Enext.
    destruct (next_valid_bounds _ _ Enext) as [Hkj Hb].
    assert (Hne : Traces.next_valid r (S k) <> None) by congruence.
    set (vc := match prev with
               | Some (i, a) =>
                   add (mul (div (sub b a) (Traces.of_nat (j - i)))
                          (Traces.of_nat (k - i))) a
               | None => NaN
               end).
    assert (Hv : match lift prev, lift (Some (j, b)) with
                 | Some (ti, a), Some (tj, b0) =>
                     add (mul (div (sub b0 a) (Fin (tj - ti)))
                            (Fin (time k - ti))) a
                 | _, _ => NaN
                 end = vc).
    { unfold vc. destruct prev as [[i a] |]; [| reflexivity]. simpl.
      apply chord_eq; [exact (Hprev i a eq_refl) | lia]. }
    rewrite Hv. clear Hv.
    destruct (@bfill_interpolate_head prev _ _ Hne) as [hc [tc [Ec Hc]]].
    destruct (@bfill_spec_head (lift prev) _ _ Hne) as [hs [ts [Es Hs]]].
    assert (Hrec : forall l, Traces.ffill_from l (hc :: tc)
                             = Traces.ffill_from l (hs :: ts)).
    { intros l. rewrite <- Ec, <- Es. apply IH.
      - intros i a E. specialize (Hprev i a E). lia.
      - intros E. congruence. }
    pose proof (Hrec NaN) as H0. simpl in H0. rewrite Hc, Hs in H0.
    inversion H0; subst hs.
    cbn [Traces.bfill]. rewrite Ec, Es.
    set (h := if isnan vc then hc else vc).
    assert (Hh : isnan h = false).
    { unfold h. destruct (isnan vc) eqn:Ev; [exact Hc | exact Ev]. }
    cbn [Traces.ffill_from]. rewrite Hh. f_equal. apply Hrec.
  - (* a valid value *)
    cbn [Traces.bfill]. rewrite Ex. cbn [Traces.ffill_from]. rewrite Ex.
    f_equal. apply (IH (Some (k, x)) (S k) x).
    + intros i a E. inversion E; subst. lia.
    + intros _ i a E. inversion E; subst. auto.
Qed.

End GapFacts.

(** In the exact arithmetic of the model, the gap filling of the code
    (pandas' positional [interpolate], then [bfill], then [ffill]) over
    equally spaced timestamps is the gap filling the specification words:
    linear interpolation over the timestamp axis, then back-fill and
    forward-fill of what is still missing. *)
Lemma fill_gaps_over_time (t0 step : Qc) (xs : list fval) :
  (0 < step)%Qc ->
  Traces.fill_gaps xs
  = Traces.spec_fill_gaps
      (Traces.progression t0 step 0 (List.length xs)) xs.
Proof.
  intros Hs. unfold Traces.fill_gaps, Traces.spec_fill_gaps, Traces.ffill,
    Traces.interpolate.
  apply (@fill_equiv t0 step Hs xs None 0%nat NaN).
  - intros i a E. discriminate.
  - intros _ i a E. discriminate.
Qed.

Lemma time_axis_length (recs : list FeatureRecord) (zs : list Z) :
  Traces.time_axis recs = Some zs -> List.length zs = List.length recs.
Proof.
  revert zs. induction recs as [| r recs IH]; intros zs H; simpl in H.
  - inversion H. reflexivity.
  - destruct (Traces.integer_label (timestamp r)); [| discriminate].
    destruct (Traces.time_axis recs) as [zs' |]; [| discriminate].
    inversion H; subst. simpl. f_equal. now apply IH.
Qed.

Lemma time_of_step (z0 : Z) (k : nat) :
  Traces.time_of (z0 + Z.of_nat k)
  = Traces.time_at (Traces.time_of z0) 1%Qc k.
Proof.
  unfold Traces.time_of, Traces.time_at, Qc_of_nat, Qcplus, Qcmult.
  apply Q2Qc_eq_iff. cbn [this Q2Qc].
  rewrite !Qred_correct, inject_Z_plus. ring.
Qed.

(** Over timestamps that are consecutive integers the differences of the
    timestamps are the differences of the positions: the gap filling of the
    code is the one over the timestamp axis. *)
Lemma fill_over_time_axis (recs : list FeatureRecord) (zs : list Z)
    (field : FeatureRecord -> fval) :
  Traces.time_axis recs = Some zs -> Traces.consecutive zs ->
  Traces.ffill (Traces.bfill (Traces.interpolate (map field recs)))
  = Traces.spec_fill_gaps (map Traces.time_of zs) (map field recs).
Proof.
  intros Ht [z0 Hz]. pose proof (@time_axis_length _ _ Ht) as Hl.
  fold (Traces.fill_gaps (map field recs)).
  rewrite (@fill_gaps_over_time (Traces.time_of z0) 1%Qc (map field recs))
    by reflexivity.
  f_equal. rewrite Hz, map_map, length_map, Hl.
  unfold Traces.progression. apply map_ext. intros k. symmetry.
  apply time_of_step.
Qed.

(* ------------------------------------------------------------------------- *)
(** ** Stage 5: the outer join *)

Section JoinFacts.

Lemma existsb_eqb_in (t : string) (l : list string) :
  existsb (String.eqb t) l = true <-> In t l.
Proof.
  rewrite existsb_exists. split.
  - intros [x [Hin E]]. apply String.eqb_eq in E. now subst.
  - intros H. exists t. split; [exact H | apply String.eqb_refl].
Qed.

Lemma nodupb_NoDup (l : list string) : Traces.nodupb l = true -> NoDup l.
Proof.
  induction l as [| x l IH]; simpl; intros H; [constructor |].
  apply andb_prop in H. destruct H as [Hx Hl].
  constructor; [| now apply IH].
  intros Hin. apply existsb_eqb_in in Hin. rewrite Hin in Hx. discriminate.
Qed.

Lemma union_step_in (acc idx : list string) (t : string) :
  In t (acc ++ filter (fun u => negb (existsb (String.eqb u) acc)) idx)
  <-> In t acc \/ In t idx.
Proof.
  rewrite in_app_iff, filter_In. split.
  - intros [H | [H _]]; [now left | now right].
  - intros [H | H]; [now left |].
    destruct (existsb (String.eqb t) acc) eqn:E.
    + left. now apply existsb_eqb_in.
    + right. split; [exact H | reflexivity].
Qed.

Lemma union_step_nodup (acc idx : list string) :
  NoDup acc -> NoDup idx ->
  NoDup (acc ++ filter (fun u => negb (existsb (String.eqb u) acc)) idx).
Proof.
  intros Ha Hi. apply NoDup_app; [exact Ha | now apply NoDup_filter |].
  intros a Hin Hf. apply filter_In in Hf. destruct Hf as [_ Hf].
  apply existsb_eqb_in in Hin. rewrite Hin in Hf. discriminate.
Qed.

Lemma union_fold_in (ss : list Traces.Series) (acc : list string)
    (t : string) :
  In t (fold_left
          (fun acc s =>
             acc ++ filter (fun u => negb (existsb (String.eqb u) acc))
                      (Traces.s_index s))
          ss acc)
  <-> In t acc \/ exists s, In s ss /\ In t (Traces.s_index s).
Proof.
  revert acc. induction ss as [| s ss IH]; intros acc; simpl.
  - split; [now left | intros [H | [s [[] _]]]; exact H].
  - rewrite IH, union_step_in. split.
    + intros [[H | H] | [s' [Hin H]]].
      * now left.
      * right. exists s. split; [now left | exact H].
      * right. exists s'. split; [now right | exact H].
    + intros [H | [s' [[<- | Hin] H]]].
      * left. now left.
      * left. now right.
      * right. exists s'. now split.
Qed.

(** The labels of the join are the labels of the series. *)
Lemma union_index_in (ss : list Traces.Series) (t : string) :
  In t (Traces.union_index ss)
  <-> exists s, In s ss /\ In t (Traces.s_index s).
Proof.
  unfold Traces.union_index. rewrite union_fold_in.
  split; [intros [[] | H]; exact H | now right].
Qed.

Lemma union_fold_nodup (ss : list Traces.Series) (acc : list string) :
  NoDup acc ->
  forallb (fun s => Traces.nodupb (Traces.s_index s)) ss = true ->
  NoDup (fold_left
           (fun acc s =>
              acc ++ filter (fun u => negb (existsb (String.eqb u) acc))
                       (Traces.s_index s))
           ss acc).
Proof.
  revert acc. induction ss as [| s ss IH]; intros acc Ha H; simpl;
    [exact Ha |].
  simpl in H. apply andb_prop in H. destruct H as [Hs Hss].
  apply IH; [| exact Hss].
  apply union_step_nodup; [exact Ha | now apply nodupb_NoDup].
Qed.

(** No label of the join comes twice. *)
Lemma union_index_nodup (ss : list Traces.Series) :
  forallb (fun s => Traces.nodupb (Traces.s_index s)) ss = true ->
  NoDup (Traces.union_index ss).
Proof. apply union_fold_nodup. constructor. Qed.

Lemma lookup_label_absent (t : string) (idx : list string)
    (vals : list fval) :
  ~ In t idx -> Traces.lookup_label t idx vals = NaN.
Proof.
  revert vals. induction idx as [| i idx IH]; intros vals H; [reflexivity |].
  destruct vals as [| v vals]; [reflexivity |]. simpl.
  destruct (String.eqb i t) eqn:E.
  - apply String.eqb_eq in E. subst. elim H. now left.
  - apply IH. intros Hin. apply H. now right.
Qed.

Lemma lookup_label_at (t : string) (idx : list string) (vals : list fval)
    (i : nat) (v : fval) :
  NoDup idx -> nth_error idx i = Some t -> nth_error vals i = Some v ->
  Traces.lookup_label t idx vals = v.
Proof.
  revert vals i. induction idx as [| j idx IH]; intros vals i Hn Hi Hv.
  - destruct i; discriminate.
  - destruct vals as [| u vals]; [destruct i; discriminate |].
    inversion Hn as [| ? ? Hj Hn']; subst. simpl.
    destruct i as [| i]; simpl in Hi, Hv.
    + inversion Hi; inversion Hv; subst. now rewrite String.eqb_refl.
    + destruct (String.eqb j t) eqn:E.
      * apply String.eqb_eq in E. subst. elim Hj.
        eapply nth_error_In; eauto.
      * eapply IH; eauto.
Qed.

Lemma nth_error_map_seq (B : Type) (g : nat -> B) (n i : nat) :
  (i < n)%nat -> nth_error (map g (seq 0 n)) i = Some (g i).
Proof.
  intros H. apply map_nth_error. rewrite nth_error_seq.
  apply Nat.ltb_lt in H. now rewrite H.
Qed.

Lemma forall2_left (A B : Type) (R : A -> B -> Prop) (l : list A)
    (l' : list B) (x : A) :
  Forall2 R l l' -> In x l -> exists y, In y l' /\ R x y.
Proof.
  induction 1 as [| a b l l' Hab _ IH]; intros Hin; [destruct Hin |].
  destruct Hin as [<- | Hin].
  - exists b. split; [now left | exact Hab].
  - destruct (IH Hin) as [y [Hy HR]]. exists y. split; [now right | exact HR].
Qed.

Lemma forall2_right (A B : Type) (R : A -> B -> Prop) (l : list A)
    (l' : list B) (y : B) :
  Forall2 R l l' -> In y l' -> exists x, In x l /\ R x y.
Proof.
  induction 1 as [| a b l l' Hab _ IH]; intros Hin; [destruct Hin |].
  destruct Hin as [<- | Hin].
  - exists a. split; [now left | exact Hab].
  - destruct (IH Hin) as [x [Hx HR]]. exists x. split; [now right | exact HR].
Qed.

Lemma forall2_map_right (A B C : Type) (R : A -> B -> Prop)
    (Q : A -> C -> Prop) (f : B -> C) (l : list A) (l' : list B) :
  (forall x y, R x y -> Q x (f y)) ->
  Forall2 R l l' -> Forall2 Q l (map f l').
Proof.
  intros H. induction 1; simpl; constructor; auto.
Qed.

End JoinFacts.

Section SummaryFacts.

Variable savgol_point : nat -> nat -> list fval -> nat -> fval.

Lemma trace_name (folder : string) (recs : list FeatureRecord) (w p : nat)
    (m : Traces.metric) (s : Traces.Series) :
  Traces.trace savgol_point folder recs w p m = Ok s ->
  Traces.name s = folder.
Proof.
  unfold Traces.trace. intros H. apply bind_ok_inv in H.
  destruct H as [v [_ H]]. inversion H. reflexivity.
Qed.

Lemma collect_folder_names (w p : nat) (c c' : Traces.Collector)
    (run : string * RunDir) :
  Traces.collect_folder savgol_point w p c run = Ok c' ->
  forall m,
    map Traces.name (Traces.collected m c')
    = map Traces.name (Traces.collected m c)
      ++ (if Traces.has_features run then [fst run] else []).
Proof.
  unfold Traces.collect_folder, Traces.has_features.
  destruct (features (snd run)) as [f |].
  - intros H. apply bind_ok_inv in H. destruct H as [recs [_ H]].
    unfold Traces.metrics in H. cbn [TimeAxis.for_each] in H.
    apply bind_ok_inv in H. destruct H as [c1 [H1 H]].
    apply bind_ok_inv in H. destruct H as [c2 [H2 H]].
    apply bind_ok_inv in H. destruct H as [c3 [H3 H]].
    inversion H; subst c'; clear H.
    apply bind_ok_inv in H1. destruct H1 as [s1 [T1 H1]].
    apply bind_ok_inv in H2. destruct H2 as [s2 [T2 H2]].
    apply bind_ok_inv in H3. destruct H3 as [s3 [T3 H3]].
    inversion H1; inversion H2; inversion H3; subst; clear H1 H2 H3.
    apply trace_name in T1, T2, T3.
    intros []; simpl; rewrite ?map_app; simpl; congruence.
  - intros H. inversion H; subst. intros m. now rewrite app_nil_r.
Qed.

Lemma collect_loop_names (w p : nat) (runs : list (string * RunDir)) :
  forall c c',
    TimeAxis.for_each (Traces.collect_folder savgol_point w p) runs c
    = Ok c' ->
    forall m,
      map Traces.name (Traces.collected m c')
      = map Traces.name (Traces.collected m c)
        ++ map fst (filter Traces.has_features runs).
Proof.
  induction runs as [| run runs IH]; intros c c' H m.
  - inversion H; subst. simpl. now rewrite app_nil_r.
  - simpl in H. apply bind_ok_inv in H. destruct H as [c1 [H1 H]].
    rewrite (IH _ _ H m), (@collect_folder_names _ _ _ _ _ H1 m),
      <- app_assoc.
    f_equal. simpl. destruct (Traces.has_features run); reflexivity.
Qed.

Lemma concat_names (ss : list Traces.Series) (t : Traces.SummaryTable) :
  Traces.concat_axis1 ss = Ok t -> Traces.run_columns t = map Traces.name ss.
Proof.
  unfold Traces.concat_axis1.
  destruct (forallb _ ss); [intros H; now inversion H |].
  destruct ss as [| s0 ss]; [intros H; now inversion H |].
  destruct (forallb _ (s0 :: ss)); intros H; now inversion H.
Qed.

Lemma save_summary_names (c : Traces.Collector) (m : Traces.metric)
    (o : option Traces.SummaryTable) :
  Traces.save_summary c m = Ok o ->
  match o with
  | Some t => Traces.run_columns t = map Traces.name (Traces.collected m c)
  | None => Traces.collected m c = []
  end.
Proof.
  unfold Traces.save_summary.
  destruct (Traces.collected m c) as [| s ss] eqn:E.
  - intros H; now inversion H.
  - intros H. apply bind_ok_inv in H. destruct H as [t [Ht H]].
    inversion H; subst. now apply concat_names.
Qed.

(** Whatever the feature files hold: a table the aggregator writes has one
    column per run that has a feature file, named after its folder. *)
Lemma compile_columns (runs : list (string * RunDir)) (w p : nat)
    (S : Traces.Summaries) (m : Traces.metric) :
  Traces.compile_experiment_traces savgol_point runs w p = Ok S ->
  match Traces.summary_of m S with
  | Some t => Traces.run_columns t = map fst (filter Traces.has_features runs)
  | None => filter Traces.has_features runs = []
  end.
Proof.
  unfold Traces.compile_experiment_traces. intros H.
  apply bind_ok_inv in H. destruct H as [c [Hc H]].
  apply bind_ok_inv in H. destruct H as [a [Ha H]].
  apply bind_ok_inv in H. destruct H as [b [Hb H]].
  apply bind_ok_inv in H. destruct H as [f [Hf H]].
  inversion H; subst S; clear H.
  pose proof (@collect_loop_names _ _ _ _ _ Hc m) as Hn.
  assert (Ho : exists o, Traces.save_summary c m = Ok o /\
                         Traces.summary_of m (Traces.mkSummaries a b f) = o)
    by (destruct m; eexists; split; eauto).
  destruct Ho as [o [Hs ->]]. apply save_summary_names in Hs.
  replace (Traces.collected m (Traces.mkCollector [] [] [])) with
    (@nil Traces.Series) in Hn by now destruct m.
  simpl in Hn. destruct o as [t |].
  - now rewrite Hs.
  - rewrite Hs in Hn. simpl in Hn.
    destruct (filter Traces.has_features runs);
      [reflexivity | discriminate Hn].
Qed.

(** The series the aggregator collects, one for each run that has a
    feature file, in the order of the folders. *)
Lemma collected_series (w p : nat) (m : Traces.metric)
    (field : FeatureRecord -> fval) (runs : list (string * RunDir)) :
  (forall recs, Traces.metric_column m recs = map field recs) ->
  forallb (Traces.compilable w) runs = true ->
  Forall2
    (fun run s =>
       exists recs,
         features (snd run) = Some (Table recs) /\
         (w <= List.length recs)%nat /\
         NoDup (map timestamp recs) /\
         s = Traces.mkSeries (fst run) (map timestamp recs)
               (map (savgol_point w p (Traces.fill_gaps (map field recs)))
                    (seq 0 (List.length recs))))
    (filter Traces.has_features runs)
    (flat_map (Traces.expected_series savgol_point w p m) runs).
Proof.
  intros Hm. induction runs as [| run runs IH]; intros H; [constructor |].
  cbn [forallb] in H. apply andb_prop in H. destruct H as [Hr Hrs].
  specialize (IH Hrs).
  pose proof (@compilable_readable w run Hr) as Hread.
  cbn [filter flat_map].
  unfold Traces.has_features at 1, Traces.expected_series at 1.
  destruct (features (snd run)) as [[| recs] |] eqn:Hf.
  - now elim Hread.
  - destruct (@compilable_inv w run recs Hr Hf) as [Hw Hn].
    cbn [app]. constructor; [| exact IH].
    exists recs. split; [exact Hf |]. split; [exact Hw |].
    split; [now apply nodupb_NoDup |].
    now rewrite Hm, fill_gaps_length, length_map.
  - exact IH.
Qed.

(** The cell a collected series has at a label. *)
Lemma cell_of_series (w p : nat) (field : FeatureRecord -> fval)
    (run : string * RunDir) (s : Traces.Series) (label : string) :
  Nat.odd w = true -> (p < w)%nat ->
  (exists recs,
     features (snd run) = Some (Table recs) /\
     (w <= List.length recs)%nat /\
     NoDup (map timestamp recs) /\
     s = Traces.mkSeries (fst run) (map timestamp recs)
           (map (savgol_point w p (Traces.fill_gaps (map field recs)))
                (seq 0 (List.length recs)))) ->
  Traces.column_cell savgol_point field w p run label
    (Traces.value_at s label).
Proof.
  intros Ho Hp [recs [Hf [Hw [Hn ->]]]].
  exists recs,
    (map (savgol_point w p (Traces.fill_gaps (map field recs)))
       (seq 0 (List.length recs))).
  split; [exact Hf |]. split.
  { fold (Traces.fill_gaps (map field recs)).
    unfold Smoothing.savgol_filter.
    rewrite args_ok;
      [| exact Ho | exact Hp | now rewrite fill_gaps_length, length_map].
    now rewrite fill_gaps_length, length_map. }
  unfold Traces.value_at. cbn [Traces.s_index Traces.s_values].
  destruct (in_dec string_dec label (map timestamp recs)) as [Hin | Hout].
  - right. apply In_nth_error in Hin. destruct Hin as [i Hi].
    pose proof Hi as Hi'. rewrite nth_error_map in Hi'.
    destruct (nth_error recs i) as [r |] eqn:Er; [| discriminate].
    simpl in Hi'. injection Hi' as Hr.
    assert (Hlt : (i < List.length recs)%nat)
      by (apply nth_error_Some; congruence).
    pose proof (nth_error_map_seq
                  (savgol_point w p (Traces.fill_gaps (map field recs)))
                  Hlt) as Hv.
    exists i, r. split; [exact Er |]. split; [exact Hr |].
    now rewrite (@lookup_label_at label _ _ i _ Hn Hi Hv).
  - left. split; [exact Hout | now apply lookup_label_absent].
Qed.

(** The table saved for a channel is the outer join of the columns of the
    runs. *)
Lemma joined_table (w p : nat) (m : Traces.metric)
    (field : FeatureRecord -> fval) (runs : list (string * RunDir)) :
  (forall recs, Traces.metric_column m recs = map field recs) ->
  Nat.odd w = true -> (p < w)%nat ->
  forallb (Traces.compilable w) runs = true ->
  Traces.summary_is savgol_point field w p runs
    (match flat_map (Traces.expected_series savgol_point w p m) runs with
     | [] => None
     | ss =>
         Some (Traces.mkSummary (map Traces.name ss)
                 (map (fun t => (t, map (fun s => Traces.value_at s t) ss))
                      (Traces.union_index ss)))
     end).
Proof.
  intros Hm Ho Hp Hc.
  pose proof (@collected_series w p m field runs Hm Hc) as HF.
  pose proof (@expected_series_names savgol_point w p m runs Hc) as Hnames.
  pose proof (@expected_series_nodup savgol_point w p m runs Hc) as Hnd.
  destruct (flat_map (Traces.expected_series savgol_point w p m) runs)
    as [| s0 ss'] eqn:E.
  - simpl. simpl in Hnames. symmetry in Hnames.
    now apply map_eq_nil in Hnames.
  - remember (s0 :: ss') as ss eqn:Ess. clear Ess E s0 ss'.
    unfold Traces.summary_is, Traces.outer_join.
    cbn [Traces.run_columns Traces.table_rows].
    split; [exact Hnames |].
    assert (Hrows : map fst
                      (map (fun t =>
                              (t, map (fun s => Traces.value_at s t) ss))
                           (Traces.union_index ss))
                    = Traces.union_index ss)
      by (rewrite map_map; cbn [fst]; apply map_id).
    rewrite Hrows.
    split; [now apply union_index_nodup |]. split.
    + intros label. rewrite union_index_in. split.
      * intros [s [Hin Hl]].
        destruct (@forall2_right _ _ _ _ _ s HF Hin) as [run [Hrun [recs [Hf [_ [_ Hs]]]]]].
        apply filter_In in Hrun. destruct Hrun as [Hrun _].
        exists run, recs. subst s.
        split; [exact Hrun |]. split; [exact Hf | exact Hl].
      * intros [run [recs [Hin [Hf Hl]]]].
        assert (Hrun : In run (filter Traces.has_features runs)).
        { apply filter_In. split; [exact Hin |].
          unfold Traces.has_features. now rewrite Hf. }
        destruct (@forall2_left _ _ _ _ _ run HF Hrun) as [s [Hs [recs' [Hf' [_ [_ E]]]]]].
        rewrite Hf in Hf'. inversion Hf'; subst recs'.
        exists s. split; [exact Hs |]. subst s. exact Hl.
    + intros label cells Hin. apply in_map_iff in Hin.
      destruct Hin as [t [E _]]. inversion E; subst.
      apply (forall2_map_right (R := fun run s =>
               exists recs,
                 features (snd run) = Some (Table recs) /\
                 (w <= List.length recs)%nat /\
                 NoDup (map timestamp recs) /\
                 s = Traces.mkSeries (fst run) (map timestamp recs)
                       (map (savgol_point w p
                               (Traces.fill_gaps (map field recs)))
                            (seq 0 (List.length recs))))); [| exact HF].
      intros run s H. now apply cell_of_series.
Qed.


End SummaryFacts.



(** The summary of the peak wavelengths of the three example runs: two
    columns, named after the first and the third folder; twelve rows, the
    last of which ("55") has no value for the first run. *)
Example summary_example :
  exists S t,
    Traces.compile_experiment_traces Savgol.savgol_point Examples.three_runs
      11 2 = Ok S /\
    Traces.summary_peak_wavelength S = Some t /\
    Traces.run_columns t = ["01_Ratio-0.5"; "03_Ratio-2.0"]%string /\
    map fst (Traces.table_rows t)
    = ["0"; "5"; "10"; "15"; "20"; "25"; "30"; "35"; "40"; "45"; "50";
       "55"]%string /\
    map (fun r => map isnan (snd r)) (Traces.table_rows t)
    = repeat [false; false] 11 ++ [[true; false]].
Proof.
  eexists. eexists. split; [vm_compute; reflexivity |].
  split; [reflexivity |]. repeat split.
Qed.

(* ------------------------------------------------------------------------- *)
(** ** The pipeline: which stages can raise *)

Section PipelineFacts.

Variable savgol_point : nat -> nat -> list fval -> nat -> fval.

(** The stages that wrap their unit of work in [try ... except Exception]
    return whatever the files hold; the standardizer can raise only while it
    builds the time axis, on a zero stride. *)
Lemma guarded_stages_return (d : RunDir) (tp : list Z) (w p : nat)
    (sw win thr : fval) :
  Py.returns (TimeAxis.for_each (TimeAxis.standardize_band tp) [NIR; VIS] d)
  /\ Py.returns (Smoothing.apply_smoothing savgol_point d w p)
  /\ Py.returns (Merge.merge_vis_nir_spectra d sw win thr).
Proof.
  split; [| split].
  - apply for_each_returns. intros s b. apply standardize_band_returns.
  - apply apply_smoothing_returns.
  - apply merge_returns.
Qed.

(** The feature extractor reads its input outside of any [try]. *)
Lemma extract_raises_on_malformed (d : RunDir) (it tt : fval) :
  smoothed_nir d = Some Malformed ->
  Features.extract_spectral_features d it tt = Raise ParserError.
Proof.
  intros H. unfold Features.extract_spectral_features. now rewrite H.
Qed.

(** The aggregator filters every trace outside of any [try]: a first run
    with fewer records than the window makes it raise, whatever the other
    runs are. *)
Lemma compile_raises_on_short_run (w p : nat) (run : string * RunDir)
    (rest : list (string * RunDir)) (recs : list FeatureRecord) :
  features (snd run) = Some (Table recs) -> recs <> [] ->
  (List.length recs < w)%nat ->
  Traces.compile_experiment_traces savgol_point (run :: rest) w p
  = Raise ValueError.
Proof.
  intros Hf Hne Hlen.
  unfold Traces.compile_experiment_traces. cbn [TimeAxis.for_each].
  unfold Traces.collect_folder. rewrite Hf.
  assert (Hr : Traces.read_features (Table recs) = Ok recs)
    by (destruct recs; [now elim Hne | reflexivity]).
  rewrite Hr. cbn [Py.bind]. unfold Traces.metrics.
  cbn [TimeAxis.for_each]. unfold Traces.trace at 1.
  unfold Smoothing.savgol_filter, Smoothing.savgol_args_ok.
  rewrite fill_gaps_length, metric_column_length.
  apply Nat.leb_gt in Hlen. rewrite Hlen, andb_false_r. reflexivity.
Qed.

End PipelineFacts.

(** C2, the code at a failing input: a data directory with its parameters
    table and two well-formed runs, the first stopped after five
    acquisitions.  Every per-run stage succeeds, then the aggregator raises
    [ValueError] on the five-point trace and [main] ends with that
    exception: no summary is written, not even for the second run, which
    alone goes through. *)
Theorem short_run_aborts_pipeline :
  (exists params,
     Pipeline.param_file Examples.two_runs = Some (Table params)) /\
  (exists runs,
     Py.map_result
       (Pipeline.process_folder Savgol.savgol_point
          [mkParams 1 5 1; mkParams 2 12 1])
       (Pipeline.subdirs Examples.two_runs) = Ok runs /\
     map (fun r => match features (snd r) with
                   | Some (Table recs) => List.length recs
                   | _ => 0%nat
                   end) runs = [5%nat; 12%nat]) /\
  Pipeline.main Savgol.savgol_point Examples.two_runs = Raise ValueError /\
  (exists runs summaries,
     Pipeline.main Savgol.savgol_point Examples.long_run_only
     = Ok (Pipeline.Finished runs summaries) /\
     map fst runs = ["02_Ratio-1.0"%string] /\
     Traces.summary_max_intensity summaries <> None).
Proof.
  split; [eexists; reflexivity |].
  split; [eexists; split; [vm_compute; reflexivity | reflexivity] |].
  split; [vm_compute; reflexivity |].
  eexists. eexists. split; [vm_compute; reflexivity |].
  split; [reflexivity | discriminate].
Qed.

(** A smoothed file that cannot be parsed, left in a run folder, ends
    [main] as well: the exception of the feature extractor goes through the
    processing loop. *)
Example stale_file_aborts_pipeline :
  Pipeline.main Savgol.savgol_point
    (Pipeline.mkExperiment (Some (Table [mkParams 1 5 1]))
       [("01_Ratio-0.5"%string, Examples.stale_run)])
  = Raise ParserError.
Proof. vm_compute. reflexivity. Qed.

(** Without parameters table nothing is processed, and nothing is raised. *)
Lemma missing_parameters_stop (subdirs : list (string * RunDir)) :
  Pipeline.main Savgol.savgol_point (Pipeline.mkExperiment None subdirs)
  = Ok Pipeline.Stopped.
Proof. reflexivity. Qed.

(* ------------------------------------------------------------------------- *)
(** ** Stage 4: the weight of the Jacobian *)

Section JacobianFacts.

Local Open Scope Qc_scope.

Local Abbreviation hc := (Q2Qc (123984193 # 100000)).

Lemma hc_pos : 0 < hc.
Proof. reflexivity. Qed.

Lemma Qc_inv_pos (q : Qc) : 0 < q -> 0 < / q.
Proof.
  intros Hq. apply Qcnot_le_lt. intros Hle.
  assert (Hc : / q * q <= 0 * q).
  { apply Qcmult_le_compat_r; [exact Hle | now apply Qclt_le_weak]. }
  rewrite Qcmult_inv_l, Qcmult_0_l in Hc by now apply Qc_pos_neq.
  revert Hc. apply Qclt_not_le. reflexivity.
Qed.

(** For a positive wavelength the weight [HC_CONST / energy ** 2] is
    [wavelength ** 2 / HC_CONST]: it grows with the wavelength. *)
Lemma jacobian_factor_value (q : Qc) :
  0 < q ->
  Features.jacobian_factor (Features.energies_of [Fin q])
  = [Fin (q * q / hc)].
Proof.
  intros Hq. pose proof hc_pos as Hh.
  unfold Features.jacobian_factor, Features.energies_of,
    Features.HC_CONST, of_Q. cbn [map Num.div].
  rewrite (Qc_eqb_pos Hq). cbn [Num.mul Num.div].
  assert (H1 : 0 < hc / q)
    by (unfold Qcdiv; apply Qc_pos_mul; [exact Hh | now apply Qc_inv_pos]).
  rewrite (Qc_eqb_pos (Qc_pos_mul H1 H1)). f_equal. f_equal.
  field. split; now apply Qc_pos_neq.
Qed.

Lemma jacobian_factor_increasing (q1 q2 : Qc) :
  0 < q1 -> q1 < q2 -> q1 * q1 / hc < q2 * q2 / hc.
Proof.
  intros H1 H12.
  assert (H2 : 0 < q2) by (now apply Qclt_trans with q1).
  unfold Qcdiv. apply Qcmult_lt_compat_r; [apply Qc_inv_pos, hc_pos |].
  apply Qclt_trans with (q2 * q1).
  - now apply Qcmult_lt_compat_r.
  - rewrite (Qcmult_comm q2 q1). now apply Qcmult_lt_compat_r.
Qed.

End JacobianFacts.

(* ========================================================================= *)
(** * Further properties of the stages *)

Unset Implicit Arguments.

(* ------------------------------------------------------------------------- *)
(** ** Stage 1: runs that are skipped, bands that are missing *)

Section StandardizeFacts.

Local Open Scope string_scope.

Lemma lookup_params_absent (tbl : list ReactionParameters) (rid : Z) :
  (forall p, In p tbl -> reaction_id p <> rid) ->
  TimeAxis.lookup_params tbl rid = Raise IndexError.
Proof.
  intros H. unfold TimeAxis.lookup_params.
  replace (filter (fun p => (reaction_id p =? rid)%Z) tbl) with
    (@nil ReactionParameters); [reflexivity |].
  symmetry. apply filter_nil_iff. intros p Hp.
  apply Z.eqb_neq. now apply H.
Qed.

Lemma digit_not_letter (c : ascii) (d : Z) :
  Str.digit_of c = Some d -> More.is_letter c = false.
Proof.
  unfold Str.digit_of, More.is_letter. cbv zeta.
  destruct (48 <=? nat_of_ascii c)%nat eqn:E1; [| discriminate].
  destruct (nat_of_ascii c <=? 57)%nat eqn:E2; [| discriminate].
  intros _. apply Nat.leb_le in E2.
  assert (H1 : (65 <=? nat_of_ascii c)%nat = false)
    by (apply Nat.leb_gt; lia).
  assert (H2 : (97 <=? nat_of_ascii c)%nat = false)
    by (apply Nat.leb_gt; lia).
  now rewrite H1, H2.
Qed.

Lemma digits_acc_letter (s : string) (acc : Z) :
  More.has_letter s = true -> Str.digits_acc s acc = None.
Proof.
  revert acc. induction s as [| c r IH]; intros acc H; [discriminate |].
  cbn [More.has_letter] in H. cbn [Str.digits_acc].
  destruct (Str.digit_of c) as [d |] eqn:E; [| reflexivity].
  rewrite (digit_not_letter c d E) in H. now apply IH.
Qed.

Lemma digits_letter (s : string) :
  More.has_letter s = true -> Str.digits s = None.
Proof.
  intros H. destruct s as [| c r]; [discriminate |].
  unfold Str.digits. now apply digits_acc_letter.
Qed.

Lemma split_sign_letter (s : string) :
  More.has_letter s = true ->
  More.has_letter (snd (Str.split_sign s)) = true.
Proof.
  destruct s as [| c r]; [discriminate |].
  destruct c as [[] [] [] [] [] [] [] []]; intros H; exact H.
Qed.

(** A text with a letter is no spelling of an integer. *)
Lemma py_int_letter (s : string) :
  More.has_letter s = true -> Str.py_int s = Raise ValueError.
Proof.
  intros H. apply split_sign_letter in H. unfold Str.py_int.
  destruct (Str.split_sign s) as [neg body]. cbn [snd] in H.
  now rewrite (digits_letter body H).
Qed.

(** A folder whose leading token holds a letter, or is an integer that is
    no reaction id of the parameters table, is skipped: nothing is raised,
    and no file of the run is written or changed. *)
Theorem standardize_skips_unknown_run (d : RunDir) (folder : string)
    (params : list ReactionParameters) :
  (More.has_letter (Str.before "_" folder) = true \/
   exists rid,
     Str.py_int (Str.before "_" folder) = Ok rid /\
     forall p, In p params -> reaction_id p <> rid) ->
  TimeAxis.standardize_time_axis d folder params = Ok d.
Proof.
  intros [H | [rid [H Habs]]]; unfold TimeAxis.standardize_time_axis.
  - now rewrite (py_int_letter _ H).
  - rewrite H. cbn [Py.bind].
    now rewrite (lookup_params_absent params rid Habs).
Qed.

Lemma standardize_skips_unknown_run_witness :
  TimeAxis.standardize_time_axis (Examples.raw_run 5) "07_Ratio-3.0"
    [mkParams 1 5 1; mkParams 2 12 1]
  = Ok (Examples.raw_run 5) /\
  TimeAxis.standardize_time_axis (Examples.raw_run 5) "1b_Ratio-3.0"
    [mkParams 1 5 1; mkParams 2 12 1]
  = Ok (Examples.raw_run 5).
Proof.
  split.
  - apply standardize_skips_unknown_run. right. exists 7. split.
    + reflexivity.
    + intros p [<- | [<- | []]]; simpl; lia.
  - apply standardize_skips_unknown_run. left. reflexivity.
Defined.

(** A run that is found in the table with a stride of zero: building the
    time axis raises, outside of any [try], and the exception leaves
    [standardize_time_axis]. *)
Theorem standardize_zero_frequency_raises (d : RunDir) (folder : string)
    (params : list ReactionParameters) (rid : Z) (p : ReactionParameters) :
  Str.py_int (Str.before "_" folder) = Ok rid ->
  TimeAxis.lookup_params params rid = Ok p ->
  frequency p = 0 ->
  Py.raises (TimeAxis.standardize_time_axis d folder params).
Proof.
  intros Hid Hp Hf. unfold TimeAxis.standardize_time_axis.
  rewrite Hid. cbn [Py.bind]. rewrite Hp. cbn [Py.bind Py.try_except].
  unfold TimeAxis.time_points, Np.arange. rewrite Hf. simpl.
  eexists; reflexivity.
Qed.

Lemma standardize_zero_frequency_raises_witness :
  Py.raises
    (TimeAxis.standardize_time_axis (Examples.raw_run 5) "01_Ratio-0.5"
       [mkParams 1 5 0]).
Proof.
  apply (standardize_zero_frequency_raises (Examples.raw_run 5)
           "01_Ratio-0.5" [mkParams 1 5 0] 1 (mkParams 1 5 0));
    reflexivity.
Defined.

Lemma map_fst_filter (A B : Type) (f : A -> bool) (l : list (A * B)) :
  map fst (filter (fun r => f (fst r)) l) = filter f (map fst l).
Proof.
  induction l as [| r l IH]; [reflexivity |].
  cbn [filter map]. destruct (f (fst r)); cbn [map]; now rewrite IH.
Qed.

Lemma standardize_frame_index (b : band) (tp : list Z)
    (raw : DataFrame string) (outz : DataFrame Z) :
  TimeAxis.standardize_frame b tp raw = Ok outz ->
  index outz = index (TimeAxis.cutoff b raw).
Proof.
  unfold TimeAxis.standardize_frame, TimeAxis.match_shape, Pd.set_columns.
  destruct (negb (ncols (TimeAxis.cutoff b raw) =? List.length tp)%nat).
  - match goal with |- context [if ?c then _ else _] => destruct c end;
      intros H; inversion H; subst.
    unfold index, Pd.iloc_cols; simpl. now rewrite map_map.
  - match goal with |- context [if ?c then _ else _] => destruct c end;
      intros H; inversion H; subst. reflexivity.
Qed.

(** The wavelength cutoff: the cleaned visible frame keeps exactly the rows
    of the raw frame whose wavelength is at least 500 (a label that is not
    a number goes too), the cleaned near-infrared frame keeps every row. *)
Theorem visible_cutoff (tp : list Z) (raw : DataFrame string) :
  (exists out,
     TimeAxis.standardize_frame VIS tp raw = Ok out /\
     index out = filter (fun w => geb w (of_Z 500)) (index raw) /\
     Forall (fun w => geb w (of_Z 500) = true /\ isnan w = false)
       (index out)) /\
  (exists out,
     TimeAxis.standardize_frame NIR tp raw = Ok out /\
     index out = index raw).
Proof.
  split.
  - destruct (@standardize_frame_returns VIS tp raw) as [out Ho].
    pose proof (standardize_frame_index VIS tp raw out Ho) as Hi.
    exists out. split; [exact Ho |].
    assert (E : index out = filter (fun w => geb w (of_Z 500)) (index raw)).
    { rewrite Hi. unfold index, TimeAxis.cutoff, Pd.filter_rows.
      cbn [rows]. apply map_fst_filter. }
    split; [exact E |]. rewrite E. apply Forall_forall.
    intros w Hw. apply filter_In in Hw. destruct Hw as [_ Hw].
    split; [exact Hw |]. destruct w; try reflexivity. discriminate.
  - destruct (@standardize_frame_returns NIR tp raw) as [out Ho].
    exists out. split; [exact Ho |].
    exact (standardize_frame_index NIR tp raw out Ho).
Qed.

End StandardizeFacts.

Section OwnershipFacts.

Local Open Scope string_scope.

Variable savgol_point : nat -> nat -> list fval -> nat -> fval.

(** What one band of the standardizer leaves behind. *)
Lemma standardize_band_result (tp : list Z) (d : RunDir) (b : band) :
  TimeAxis.standardize_band tp d b
  = Ok match TimeAxis._get_file_by_prefix (corrected_data d)
               (prefix_of b ++ "_corrected") with
       | Ok (_, Table raw) =>
           match TimeAxis.standardize_frame b tp raw with
           | Ok out => write_cleaned b (Pd.to_csv_int_columns out) d
           | Raise _ => d
           end
       | _ => d
       end.
Proof.
  unfold TimeAxis.standardize_band.
  destruct (TimeAxis._get_file_by_prefix (corrected_data d)
              (prefix_of b ++ "_corrected")) as [[name [| raw]] | e].
  - reflexivity.
  - cbn [Py.bind snd read_csv].
    destruct (TimeAxis.standardize_frame b tp raw) as [out | e];
      [reflexivity | destruct e; reflexivity].
  - destruct e; reflexivity.
Qed.

(** The two bands are standardized independently: after the loop, the
    cleaned file of a band is the standardized raw frame of that band when
    its raw file is found and readable, and is what it was before
    otherwise, whatever happens to the other band; no exception leaves the
    loop, and no other file of the run is touched. *)
Theorem standardize_bands_independent (tp : list Z) (d : RunDir) :
  exists d',
    TimeAxis.for_each (TimeAxis.standardize_band tp) [NIR; VIS] d = Ok d' /\
    (forall b,
       cleaned b d'
       = match TimeAxis._get_file_by_prefix (corrected_data d)
                 (prefix_of b ++ "_corrected") with
         | Ok (_, Table raw) =>
             match TimeAxis.standardize_frame b tp raw with
             | Ok out => Some (Table (Pd.to_csv_int_columns out))
             | Raise _ => cleaned b d
             end
         | _ => cleaned b d
         end) /\
    corrected_data d' = corrected_data d /\
    smoothed_nir d' = smoothed_nir d /\
    smoothed_vis d' = smoothed_vis d /\
    merged d' = merged d /\
    features d' = features d.
Proof.
  cbn [TimeAxis.for_each]. rewrite (standardize_band_result tp d NIR).
  cbn [Py.bind].
  set (d1 := match TimeAxis._get_file_by_prefix (corrected_data d)
                     (prefix_of NIR ++ "_corrected") with
             | Ok (_, Table raw) =>
                 match TimeAxis.standardize_frame NIR tp raw with
                 | Ok out => write_cleaned NIR (Pd.to_csv_int_columns out) d
                 | Raise _ => d
                 end
             | _ => d
             end).
  assert (H1 : corrected_data d1 = corrected_data d /\
               cleaned_vis d1 = cleaned_vis d /\
               smoothed_nir d1 = smoothed_nir d /\
               smoothed_vis d1 = smoothed_vis d /\
               merged d1 = merged d /\ features d1 = features d).
  { unfold d1.
    destruct (TimeAxis._get_file_by_prefix (corrected_data d)
                (prefix_of NIR ++ "_corrected")) as [[name [| raw]] | e];
      try (repeat split; reflexivity).
    destruct (TimeAxis.standardize_frame NIR tp raw);
      repeat split; reflexivity. }
  destruct H1 as [Hc [Hv [Hsn [Hsv [Hm Hf]]]]].
  rewrite (standardize_band_result tp d1 VIS). cbn [Py.bind].
  eexists; split; [reflexivity |]. rewrite Hc.
  split.
  - intros [].
    + (* NIR *)
      assert (Hn : forall d2, cleaned_nir d2 = cleaned_nir d1 ->
                cleaned NIR d2 = cleaned NIR d1) by (intros; assumption).
      transitivity (cleaned NIR d1).
      * destruct (TimeAxis._get_file_by_prefix (corrected_data d)
                    (prefix_of VIS ++ "_corrected")) as [[name [| raw]] | e];
          try reflexivity.
        destruct (TimeAxis.standardize_frame VIS tp raw); reflexivity.
      * unfold d1.
        destruct (TimeAxis._get_file_by_prefix (corrected_data d)
                    (prefix_of NIR ++ "_corrected")) as [[name [| raw]] | e];
          try reflexivity.
        destruct (TimeAxis.standardize_frame NIR tp raw); reflexivity.
    + (* VIS *)
      destruct (TimeAxis._get_file_by_prefix (corrected_data d)
                  (prefix_of VIS ++ "_corrected")) as [[name [| raw]] | e];
        try exact Hv.
      destruct (TimeAxis.standardize_frame VIS tp raw);
        [reflexivity | exact Hv].
  - destruct (TimeAxis._get_file_by_prefix (corrected_data d)
                (prefix_of VIS ++ "_corrected")) as [[name [| raw]] | e];
      try (repeat split; assumption).
    destruct (TimeAxis.standardize_frame VIS tp raw);
      repeat split; assumption.
Qed.

Lemma smooth_band_cases (w p : nat) (d d' : RunDir) (b : band) :
  Smoothing.smooth_band savgol_point w p d b = Ok d' ->
  d' = d \/ exists out, d' = write_smoothed b out d.
Proof.
  unfold Smoothing.smooth_band.
  destruct (cleaned b d) as [[| df] |]; cbn [Py.bind read_csv Py.try_except_all].
  - intros H; inversion H; now left.
  - destruct (Smoothing.smooth_frame savgol_point df w p) as [out | e];
      cbn [Py.bind Py.try_except_all]; intros H; inversion H;
      [right; now exists out | now left].
  - intros H; inversion H; now left.
Qed.

Lemma merge_cases (d d' : RunDir) (sw win thr : fval) :
  Merge.merge_vis_nir_spectra d sw win thr = Ok d' ->
  d' = d \/ exists out, d' = write_merged out d.
Proof.
  unfold Merge.merge_vis_nir_spectra.
  destruct (smoothed_nir d) as [[| n] |], (smoothed_vis d) as [[| v] |];
    cbn [Py.bind read_csv Py.try_except_all];
    try (intros H; inversion H; now left);
    try (intros H; inversion H; right; eexists; reflexivity).
  destruct (Merge.merge_frames n v sw win thr) as [m | e];
    cbn [Py.bind Py.try_except_all]; intros H; inversion H;
    [right; now exists m | now left].
Qed.

Lemma extract_cases (d d' : RunDir) (it tt : fval) :
  Features.extract_spectral_features d it tt = Ok d' ->
  d' = d \/ exists recs, d' = write_features recs d.
Proof.
  unfold Features.extract_spectral_features.
  destruct (smoothed_nir d) as [[| df] |]; cbn [Py.bind read_csv].
  - discriminate.
  - destruct (Features.feature_records df it tt) as [recs | e];
      cbn [Py.bind]; intros H; inversion H. right. now exists recs.
  - intros H; inversion H; now left.
Qed.

(** Each stage writes its own output and nothing else: when it returns,
    the smoother has changed at most the smoothed files, the merger at most
    the merged file, the feature extractor at most the feature file. *)
Theorem stages_write_only_their_output (d d' : RunDir) :
  (forall w p,
     Smoothing.apply_smoothing savgol_point d w p = Ok d' ->
     corrected_data d' = corrected_data d /\
     cleaned_nir d' = cleaned_nir d /\ cleaned_vis d' = cleaned_vis d /\
     merged d' = merged d /\ features d' = features d) /\
  (forall sw win thr,
     Merge.merge_vis_nir_spectra d sw win thr = Ok d' ->
     corrected_data d' = corrected_data d /\
     cleaned_nir d' = cleaned_nir d /\ cleaned_vis d' = cleaned_vis d /\
     smoothed_nir d' = smoothed_nir d /\ smoothed_vis d' = smoothed_vis d /\
     features d' = features d) /\
  (forall it tt,
     Features.extract_spectral_features d it tt = Ok d' ->
     corrected_data d' = corrected_data d /\
     cleaned_nir d' = cleaned_nir d /\ cleaned_vis d' = cleaned_vis d /\
     smoothed_nir d' = smoothed_nir d /\ smoothed_vis d' = smoothed_vis d /\
     merged d' = merged d).
Proof.
  split; [| split].
  - intros w p H. unfold Smoothing.apply_smoothing in H.
    cbn [TimeAxis.for_each] in H.
    apply bind_ok_inv in H. destruct H as [d1 [H1 H]].
    apply bind_ok_inv in H. destruct H as [d2 [H2 H]].
    inversion H; subst d2; clear H.
    apply smooth_band_cases in H1, H2.
    destruct H1 as [-> | [o1 ->]], H2 as [-> | [o2 ->]];
      repeat split; reflexivity.
  - intros sw win thr H. apply merge_cases in H.
    destruct H as [-> | [o ->]]; repeat split; reflexivity.
  - intros it tt H. apply extract_cases in H.
    destruct H as [-> | [o ->]]; repeat split; reflexivity.
Qed.

End OwnershipFacts.

(* ------------------------------------------------------------------------- *)
(** ** The processing loop keeps the raw data *)

Section RawDataFacts.

Local Open Scope string_scope.

Variable savgol_point : nat -> nat -> list fval -> nat -> fval.

Lemma standardize_band_keeps_raw (tp : list Z) (d d' : RunDir) (b : band) :
  TimeAxis.standardize_band tp d b = Ok d' ->
  corrected_data d' = corrected_data d.
Proof.
  rewrite standardize_band_result. intros H; inversion H; clear H.
  destruct (TimeAxis._get_file_by_prefix (corrected_data d)
              (prefix_of b ++ "_corrected")) as [[name [| raw]] | e];
    try reflexivity.
  destruct (TimeAxis.standardize_frame b tp raw); [| reflexivity].
  destruct b; reflexivity.
Qed.

Lemma standardize_keeps_raw (d d' : RunDir) (folder : string)
    (params : list ReactionParameters) :
  TimeAxis.standardize_time_axis d folder params = Ok d' ->
  corrected_data d' = corrected_data d.
Proof.
  unfold TimeAxis.standardize_time_axis.
  destruct (Py.try_except _ _ _) as [[p |] | e]; try discriminate.
  - intros H. apply bind_ok_inv in H. destruct H as [tp [_ H]].
    cbn [TimeAxis.for_each] in H.
    apply bind_ok_inv in H. destruct H as [d1 [H1 H]].
    apply bind_ok_inv in H. destruct H as [d2 [H2 H]].
    inversion H; subst d2.
    apply standardize_band_keeps_raw in H1, H2. congruence.
  - intros H; now inversion H.
Qed.

Lemma smoothing_keeps_raw (d d' : RunDir) (w p : nat) :
  Smoothing.apply_smoothing savgol_point d w p = Ok d' ->
  corrected_data d' = corrected_data d.
Proof.
  unfold Smoothing.apply_smoothing. cbn [TimeAxis.for_each]. intros H.
  apply bind_ok_inv in H. destruct H as [d1 [H1 H]].
  apply bind_ok_inv in H. destruct H as [d2 [H2 H]].
  inversion H; subst d2.
  apply smooth_band_cases in H1, H2.
  destruct H1 as [-> | [o1 ->]], H2 as [-> | [o2 ->]]; reflexivity.
Qed.

Lemma process_folder_keeps_raw (params : list ReactionParameters)
    (run run' : string * RunDir) :
  Pipeline.process_folder savgol_point params run = Ok run' ->
  fst run' = fst run /\
  corrected_data (snd run') = corrected_data (snd run).
Proof.
  unfold Pipeline.process_folder. intros H.
  apply bind_ok_inv in H. destruct H as [d1 [H1 H]].
  apply bind_ok_inv in H. destruct H as [d2 [H2 H]].
  apply bind_ok_inv in H. destruct H as [d3 [H3 H]].
  apply bind_ok_inv in H. destruct H as [d4 [H4 H]].
  inversion H; subst run'; clear H. split; [reflexivity |]. cbn [snd].
  apply standardize_keeps_raw in H1. apply smoothing_keeps_raw in H2.
  apply merge_cases in H3. apply extract_cases in H4.
  destruct H3 as [-> | [o3 ->]], H4 as [-> | [o4 ->]]; cbn; congruence.
Qed.

Lemma map_result_forall2 (A B : Type) (f : A -> result B) (xs : list A)
    (ys : list B) :
  Py.map_result f xs = Ok ys -> Forall2 (fun x y => f x = Ok y) xs ys.
Proof.
  revert ys. induction xs as [| x xs IH]; intros ys H; simpl in H.
  - inversion H. constructor.
  - destruct (f x) as [y | e] eqn:E; [| discriminate].
    destruct (Py.map_result f xs) as [ys' | e]; [| discriminate].
    inversion H; subst. constructor; [exact E | now apply IH].
Qed.


End RawDataFacts.


(* ------------------------------------------------------------------------- *)
(** ** Stage 2: invalid windows, rounding, column-wise filtering *)

Section SmoothingMore.

Variable savgol_point : nat -> nat -> list fval -> nat -> fval.

Lemma map_index_nrows (C : Type) (f : fval -> fval) (df : DataFrame C) :
  nrows (Pd.map_index f df) = nrows df.
Proof. unfold nrows, Pd.map_index; cbn [rows]. apply length_map. Qed.

Lemma map_index_column (C : Type) (f : fval -> fval) (df : DataFrame C)
    (j : nat) :
  column_values (Pd.map_index f df) j = column_values df j.
Proof.
  unfold column_values, Pd.map_index; cbn [rows]. rewrite map_map.
  reflexivity.
Qed.

(** A band is left without smoothed file, and nothing is raised, when its
    cleaned file is missing, or unreadable, or has fewer rows than the
    window, or when the window is even or not above the polynomial order:
    the run directory is returned as it is. *)
Theorem smoothing_skips_invalid_band (w p : nat) (d : RunDir) (b : band) :
  (cleaned b d = None \/
   cleaned b d = Some Malformed \/
   exists df,
     cleaned b d = Some (Table df) /\
     ((nrows df < w)%nat \/ Nat.even w = true \/ (w <= p)%nat)) ->
  Smoothing.smooth_band savgol_point w p d b = Ok d.
Proof.
  unfold Smoothing.smooth_band.
  intros [H | [H | [df [H Hbad]]]]; rewrite H; try reflexivity.
  cbn [Py.bind read_csv]. unfold Smoothing.smooth_frame.
  unfold Smoothing.savgol_filter_axis0.
  replace (Smoothing.savgol_args_ok
             (nrows (Pd.map_index (round_dec 1) df)) w p) with false;
    [reflexivity |].
  symmetry. unfold Smoothing.savgol_args_ok. rewrite map_index_nrows.
  destruct Hbad as [Hn | [He | Hp]].
  - apply Nat.leb_gt in Hn. rewrite Hn. apply andb_false_r.
  - unfold Nat.odd. rewrite He. cbn [negb]. now rewrite andb_false_r.
  - apply Nat.ltb_ge in Hp. now rewrite Hp.
Qed.

(** A value rounded to [n] decimals is not changed by rounding it again. *)
Lemma Qred_inject_Z (k : Z) : Qred (inject_Z k) = inject_Z k.
Proof. apply Qred_identity. simpl. apply Z.gcd_1_r. Qed.

Lemma round_half_even_int (k : Z) : Num.round_half_even (inject_Z k) = k.
Proof.
  unfold Num.round_half_even. simpl.
  rewrite Z.div_1_r, Z.mod_1_r. reflexivity.
Qed.

Lemma round_dec_idempotent (n : nat) (x : fval) :
  round_dec n (round_dec n x) = round_dec n x.
Proof.
  destruct x as [a | | |]; try reflexivity.
  unfold round_dec. f_equal. f_equal. f_equal. f_equal.
  set (s := inject_Z (10 ^ Z.of_nat n)).
  set (k := Num.round_half_even (Qred (a * s))).
  assert (Hs : ~ s == 0).
  { unfold s, Qeq. simpl. rewrite Z.mul_1_r.
    pose proof (Z.pow_pos_nonneg 10 (Z.of_nat n)). lia. }
  assert (E : Qred (this (Q2Qc (inject_Z k / s)) * s) = inject_Z k).
  { transitivity (Qred (inject_Z k)); [| apply Qred_inject_Z].
    apply Qred_complete. cbn [this Q2Qc]. rewrite Qred_correct.
    field. exact Hs. }
  rewrite E. apply round_half_even_int.
Qed.

Lemma round_frame_cells (C : Type) (n : nat) (df : DataFrame C) :
  Forall (fun r => Forall (fun x => round_dec n x = x) (snd r))
    (rows (Pd.round_frame n df)).
Proof.
  unfold Pd.round_frame; cbn [rows]. apply Forall_forall. intros r Hr.
  apply in_map_iff in Hr. destruct Hr as [r0 [<- _]]. cbn [snd].
  apply Forall_forall. intros x Hx. apply in_map_iff in Hx.
  destruct Hx as [x0 [<- _]]. apply round_dec_idempotent.
Qed.

Lemma smooth_frame_shape (cleaned out : DataFrame string) (w p : nat) :
  Smoothing.smooth_frame savgol_point cleaned w p = Ok out ->
  exists data,
    Smoothing.savgol_filter_axis0 savgol_point
      (Pd.map_index (round_dec 1) cleaned) w p = Ok data /\
    out = Pd.round_frame 2
            (mkDF (columns cleaned)
               (combine (map (round_dec 1) (index cleaned)) data)) /\
    List.length data = nrows cleaned.
Proof.
  unfold Smoothing.smooth_frame. intros H.
  apply bind_ok_inv in H. destruct H as [data [Hd H]].
  apply bind_ok_inv in H. destruct H as [df [Hf H]].
  inversion H; subst out; clear H. exists data. split; [exact Hd |].
  destruct (@savgol_axis0_shape savgol_point _ _ _ _ _ Hd) as [Hl Hr].
  rewrite map_index_nrows in Hl.
  assert (Hli : List.length data
                = List.length (index (Pd.map_index (round_dec 1) cleaned))).
  { unfold index. rewrite length_map. fold (nrows (Pd.map_index (round_dec 1)
      cleaned)). now rewrite map_index_nrows. }
  rewrite (@make_frame_ok _ data _ _ Hli Hr) in Hf. inversion Hf; subst df.
  rewrite map_index_index. split; [reflexivity | exact Hl].
Qed.

(** What the smoother writes is rounded: every cell of the smoothed frame
    is a fixed point of the rounding to two decimals, every row label a
    fixed point of the rounding to one decimal. *)
Theorem smoothed_frame_is_rounded (cleaned out : DataFrame string)
    (w p : nat) :
  Smoothing.smooth_frame savgol_point cleaned w p = Ok out ->
  Forall (fun r => Forall (fun x => round_dec 2 x = x) (snd r)) (rows out) /\
  Forall (fun l => round_dec 1 l = l) (index out).
Proof.
  intros H. destruct (smooth_frame_shape _ _ _ _ H) as [data [_ [-> Hl]]].
  split; [apply round_frame_cells |].
  rewrite round_frame_index. unfold index; cbn [rows].
  rewrite map_fst_combine
    by (rewrite length_map; unfold index; rewrite length_map;
        symmetry; exact Hl).
  apply Forall_forall. intros l Hin. apply in_map_iff in Hin.
  destruct Hin as [l0 [<- _]]. apply round_dec_idempotent.
Qed.

Lemma map_snd_combine (A B : Type) (l : list A) (l' : list B) :
  List.length l = List.length l' -> map snd (combine l l') = l'.
Proof.
  revert l'. induction l as [| a l IH]; intros [| b l']; simpl;
    intros H; try discriminate; [reflexivity |].
  f_equal. apply IH. now inversion H.
Qed.

Lemma nth_map_seq (B : Type) (g : nat -> B) (n j : nat) (d : B) :
  (j < n)%nat -> nth j (map g (seq 0 n)) d = g j.
Proof.
  intros H. rewrite (nth_indep _ d (g 0%nat))
    by (now rewrite length_map, length_seq).
  rewrite map_nth, seq_nth by exact H. reflexivity.
Qed.

(** The filter works on every timestamp column on its own: column [j] of
    the smoothed frame is the kernel run along column [j] of the cleaned
    frame, rounded to two decimals; no other column enters. *)
Theorem smoothing_is_columnwise (cleaned out : DataFrame string)
    (w p j : nat) :
  Smoothing.smooth_frame savgol_point cleaned w p = Ok out ->
  (j < ncols cleaned)%nat ->
  column_values out j
  = map (fun i => round_dec 2
                    (savgol_point w p (column_values cleaned j) i))
        (seq 0 (nrows cleaned)).
Proof.
  intros H Hj. destruct (smooth_frame_shape _ _ _ _ H) as [data [Hd [-> Hl]]].
  unfold Smoothing.savgol_filter_axis0 in Hd.
  destruct (Smoothing.savgol_args_ok _ w p); [| discriminate].
  inversion Hd; subst data; clear Hd.
  rewrite map_index_nrows in *.
  unfold column_values at 1, Pd.round_frame; cbn [rows].
  rewrite map_map. cbn [snd].
  rewrite <- (map_map snd (fun cells => nth j (map (round_dec 2) cells) NaN)).
  rewrite map_snd_combine
    by (rewrite !length_map, length_seq; unfold index, nrows;
        now rewrite length_map).
  rewrite map_map. apply map_ext_in. intros i _.
  unfold ncols; cbn [columns]. fold (ncols cleaned).
  rewrite map_map, (nth_map_seq _ _ _ _ NaN Hj).
  now rewrite map_index_column.
Qed.

End SmoothingMore.

Lemma smoothing_skips_invalid_band_witness :
  Smoothing.smooth_band Savgol.savgol_point 11 2
    (write_cleaned NIR Examples.nir_example Examples.stale_run) NIR
  = Ok (write_cleaned NIR Examples.nir_example Examples.stale_run).
Proof.
  apply (smoothing_skips_invalid_band Savgol.savgol_point). right. right.
  exists Examples.nir_example. split; [reflexivity |].
  left. vm_compute. lia.
Defined.

Lemma smoothed_frame_is_rounded_witness :
  exists out,
    Smoothing.smooth_frame Savgol.savgol_point Examples.cleaned_fine 11 2
    = Ok out /\
    Forall (fun r => Forall (fun x => round_dec 2 x = x) (snd r)) (rows out) /\
    Forall (fun l => round_dec 1 l = l) (index out).
Proof.
  destruct (Smoothing.smooth_frame Savgol.savgol_point Examples.cleaned_fine
              11 2) as [out | e] eqn:E.
  - exists out. split; [reflexivity |].
    exact (smoothed_frame_is_rounded Savgol.savgol_point
             Examples.cleaned_fine out 11 2 E).
  - vm_compute in E. discriminate.
Defined.

Lemma smoothing_is_columnwise_witness :
  exists out,
    Smoothing.smooth_frame Savgol.savgol_point Examples.cleaned_fine 11 2
    = Ok out /\
    column_values out 0
    = map (fun i =>
             round_dec 2
               (Savgol.savgol_point 11 2
                  (column_values Examples.cleaned_fine 0) i))
          (seq 0 (nrows Examples.cleaned_fine)).
Proof.
  destruct (Smoothing.smooth_frame Savgol.savgol_point Examples.cleaned_fine
              11 2) as [out | e] eqn:E.
  - exists out. split; [reflexivity |].
    apply (smoothing_is_columnwise Savgol.savgol_point
             Examples.cleaned_fine out 11 2 0 E).
    vm_compute. lia.
  - vm_compute in E. discriminate.
Defined.

(* ------------------------------------------------------------------------- *)
(** ** Stage 3: the merged frame is sorted, whatever the input order *)

Section SortFacts.

Import More.

Lemma leb_total (a b : fval) :
  isnan a = false -> isnan b = false -> leb a b = true \/ leb b a = true.
Proof.
  destruct a as [x | | |], b as [y | | |]; simpl; intros Ha Hb;
    try discriminate; auto.
  destruct (Qclt_le_dec x y) as [H | H].
  - left. apply Qc_leb_le. now apply Qclt_le_weak.
  - right. now apply Qc_leb_le.
Qed.

Lemma leb_trans (a b c : fval) :
  leb a b = true -> leb b c = true -> leb a c = true.
Proof.
  destruct a as [x | | |], b as [y | | |], c as [z | | |]; simpl;
    intros H1 H2; try reflexivity; try discriminate.
  apply Qc_leb_le. apply Qcle_trans with y; now apply Qc_leb_le.
Qed.

Lemma label_le_total (a b : fval) :
  Merge.label_le a b = true \/ Merge.label_le b a = true.
Proof.
  unfold Merge.label_le.
  destruct (isnan b) eqn:Hb; [now left |].
  destruct (isnan a) eqn:Ha; [now right |].
  now apply leb_total.
Qed.

Lemma label_le_trans (a b c : fval) :
  Merge.label_le a b = true -> Merge.label_le b c = true ->
  Merge.label_le a c = true.
Proof.
  unfold Merge.label_le.
  destruct (isnan c) eqn:Hc; [reflexivity |].
  destruct (isnan b) eqn:Hb; [discriminate |].
  destruct (isnan a) eqn:Ha; [discriminate |].
  apply leb_trans.
Qed.

Lemma insert_row_perm (r : fval * list fval)
    (l : list (fval * list fval)) :
  Permutation (Merge.insert_row r l) (r :: l).
Proof.
  induction l as [| x l IH]; simpl; [reflexivity |].
  destruct (Merge.label_le (fst x) (fst r)); [| reflexivity].
  rewrite IH. apply perm_swap.
Qed.

Lemma insert_row_sorted (r : fval * list fval)
    (l : list (fval * list fval)) :
  StronglySorted row_le l -> StronglySorted row_le (Merge.insert_row r l).
Proof.
  induction 1 as [| x l Hs IH Hf]; simpl.
  - repeat constructor.
  - destruct (Merge.label_le (fst x) (fst r)) eqn:E.
    + constructor; [exact IH |].
      apply Forall_forall. intros y Hy.
      apply (Permutation_in _ (insert_row_perm r l)) in Hy.
      destruct Hy as [<- | Hy]; [exact E |].
      rewrite Forall_forall in Hf. now apply Hf.
    + assert (Hrx : row_le r x).
      { unfold row_le. destruct (label_le_total (fst r) (fst x)) as [H | H];
          [exact H | congruence]. }
      constructor; [now constructor |].
      constructor; [exact Hrx |].
      rewrite Forall_forall in *. intros y Hy.
      unfold row_le in *. apply label_le_trans with (fst x); auto.
Qed.

Lemma sort_rows_fold (l acc : list (fval * list fval)) :
  StronglySorted row_le acc ->
  StronglySorted row_le
    (fold_left (fun acc r => Merge.insert_row r acc) l acc) /\
  Permutation (fold_left (fun acc r => Merge.insert_row r acc) l acc)
    (acc ++ l).
Proof.
  revert acc. induction l as [| r l IH]; intros acc Hacc; simpl.
  - split; [exact Hacc | now rewrite app_nil_r].
  - destruct (IH (Merge.insert_row r acc) (insert_row_sorted r acc Hacc))
      as [Hs Hp].
    split; [exact Hs |]. rewrite Hp, insert_row_perm.
    simpl. apply Permutation_middle.
Qed.

Lemma sort_rows_spec (l : list (fval * list fval)) :
  StronglySorted row_le (Merge.sort_rows l) /\
  Permutation (Merge.sort_rows l) l.
Proof.
  unfold Merge.sort_rows. apply (sort_rows_fold l []). constructor.
Qed.

Lemma sorted_weaken (A : Type) (R R' : A -> A -> Prop) (l : list A) :
  (forall a b, In a l -> In b l -> R a b -> R' a b) ->
  StronglySorted R l -> StronglySorted R' l.
Proof.
  intros H Hs. induction Hs as [| a l Hs IH Hf]; constructor.
  - apply IH. intros x y Hx Hy. apply H; now right.
  - rewrite Forall_forall in *. intros y Hy.
    apply H; [now left | now right | now apply Hf].
Qed.

(** Whatever the order of the rows of the two smoothed frames, the merge
    returns a frame whose rows are, up to their order, the scaled visible
    rows strictly below the stitch centre and the near-infrared rows at or
    above it, and whose wavelength index is in ascending order and has no
    NaN label. *)
Theorem merged_frame_is_sorted (df_nir df_vis : DataFrame string)
    (stitch_wavelength stitch_window min_signal_threshold : fval) :
  exists nir vis merged,
    Merge.select_columns df_nir
      (Merge.intersection (columns df_nir) (columns df_vis)) = Ok nir /\
    Merge.select_columns df_vis
      (Merge.intersection (columns df_nir) (columns df_vis)) = Ok vis /\
    Merge.merge_frames df_nir df_vis stitch_wavelength stitch_window
      min_signal_threshold = Ok merged /\
    Permutation (rows merged)
      (filter (fun r => ltb (fst r) stitch_wavelength)
         (rows (Merge.scale_vis nir vis stitch_wavelength stitch_window
                  min_signal_threshold))
       ++ filter (fun r => geb (fst r) stitch_wavelength) (rows nir)) /\
    ascending (index merged).
Proof.
  set (common := Merge.intersection (columns df_nir) (columns df_vis)).
  destruct (@select_columns_ok df_nir common) as [nir [En _]].
  { intros c Hc. now apply intersection_left in Hc. }
  destruct (@select_columns_ok df_vis common) as [vis [Ev _]].
  { intros c Hc. now apply intersection_left in Hc. }
  exists nir, vis. eexists. split; [exact En |]. split; [exact Ev |].
  split.
  { unfold Merge.merge_frames. fold common. rewrite En. cbn [Py.bind].
    rewrite Ev. reflexivity. }
  set (parts := filter (fun r => ltb (fst r) stitch_wavelength)
                  (rows (Merge.scale_vis nir vis stitch_wavelength
                           stitch_window min_signal_threshold))
                ++ filter (fun r => geb (fst r) stitch_wavelength)
                     (rows nir)).
  assert (Hrows : rows (Merge.stitch nir
                          (Merge.scale_vis nir vis stitch_wavelength
                             stitch_window min_signal_threshold)
                          stitch_wavelength) = Merge.sort_rows parts)
    by reflexivity.
  destruct (sort_rows_spec parts) as [Hs Hp].
  rewrite Hrows. split; [exact Hp |].
  assert (Hnan : forall r, In r (Merge.sort_rows parts) ->
                           isnan (fst r) = false).
  { intros r Hr. apply (Permutation_in _ Hp) in Hr.
    unfold parts in Hr. apply in_app_or in Hr.
    destruct Hr as [Hr | Hr]; apply filter_In in Hr; destruct Hr as [_ Hr].
    - now apply ltb_not_nan in Hr.
    - unfold geb in Hr. destruct (fst r); try reflexivity.
      destruct stitch_wavelength; discriminate. }
  unfold ascending, index. rewrite Hrows. split.
  - apply (sorted_map (fun a b => leb a b = true) fst).
    apply sorted_weaken with (R := row_le); [| exact Hs].
    intros a b Ha Hb Hab. unfold row_le, Merge.label_le in Hab.
    now rewrite (Hnan a Ha), (Hnan b Hb) in Hab.
  - apply Forall_forall. intros l Hl. apply in_map_iff in Hl.
    destruct Hl as [r [<- Hr]]. now apply Hnan.
Qed.

End SortFacts.

(* ------------------------------------------------------------------------- *)
(** ** Stage 4: the peak of a column *)

Section PeakFacts.

Lemma leb_refl (a : fval) : isnan a = false -> leb a a = true.
Proof.
  destruct a as [x | | |]; simpl; intros H; try reflexivity;
    try discriminate.
  apply Qc_leb_le. apply Qcle_refl.
Qed.

Lemma leb_false_ltb (a b : fval) :
  isnan a = false -> isnan b = false -> leb a b = false -> ltb b a = true.
Proof.
  destruct a as [x | | |], b as [y | | |]; simpl; intros Ha Hb H;
    try reflexivity; try discriminate.
  apply Qc_ltb_lt. apply Qcnot_le_lt. intros Hle.
  apply Qc_leb_le in Hle. congruence.
Qed.

Lemma leb_ltb_trans (a b c : fval) :
  leb a b = true -> ltb b c = true -> ltb a c = true.
Proof.
  destruct a as [x | | |], b as [y | | |], c as [z | | |]; simpl;
    intros H1 H2; try reflexivity; try discriminate.
  apply Qc_ltb_lt. apply Qcle_lt_trans with y.
  - now apply Qc_leb_le.
  - now apply Qc_ltb_lt.
Qed.

Lemma argmax_from_spec (xs : list fval) :
  forall (pre : list fval) (mp : fval) (mi : nat),
    Forall (fun x => isnan x = false) (pre ++ xs) ->
    isnan mp = false ->
    (mi < List.length pre)%nat ->
    nth mi pre NaN = mp ->
    (forall y, In y pre -> leb y mp = true) ->
    (forall i, (i < mi)%nat -> ltb (nth i pre NaN) mp = true) ->
    let k := Features.argmax_from xs (List.length pre) mp mi in
    (k < List.length (pre ++ xs))%nat /\
    (forall y, In y (pre ++ xs) -> leb y (nth k (pre ++ xs) NaN) = true) /\
    (forall i, (i < k)%nat ->
               ltb (nth i (pre ++ xs) NaN) (nth k (pre ++ xs) NaN) = true).
Proof.
  induction xs as [| x r IH]; intros pre mp mi Hnan Hmp Hmi Hnth Hmax Hfirst.
  - cbn [Features.argmax_from]. rewrite app_nil_r. rewrite Hnth.
    repeat split; assumption.
  - cbn [Features.argmax_from]. rewrite Hmp.
    assert (Hx : isnan x = false).
    { rewrite Forall_forall in Hnan. apply Hnan.
      apply in_or_app. right. now left. }
    assert (Eapp : pre ++ x :: r = (pre ++ [x]) ++ r)
      by (now rewrite <- app_assoc).
    assert (Elen : S (List.length pre) = List.length (pre ++ [x]))
      by (rewrite length_app; simpl; lia).
    rewrite Eapp in *. rewrite Elen.
    destruct (leb x mp) eqn:E; cbn [negb].
    + apply IH; try assumption.
      * rewrite length_app. simpl. lia.
      * now rewrite app_nth1.
      * intros y Hy. apply in_app_or in Hy.
        destruct Hy as [Hy | [<- | []]]; [now apply Hmax | exact E].
      * intros i Hi. rewrite app_nth1 by lia. now apply Hfirst.
    + pose proof (leb_false_ltb x mp Hx Hmp E) as Hlt.
      apply IH; try assumption.
      * rewrite length_app. simpl. lia.
      * apply nth_middle.
      * intros y Hy. apply in_app_or in Hy.
        destruct Hy as [Hy | [<- | []]].
        -- apply ltb_leb. apply leb_ltb_trans with mp; auto.
        -- now apply leb_refl.
      * intros i Hi. rewrite app_nth1 by exact Hi.
        apply leb_ltb_trans with mp; [| exact Hlt].
        apply Hmax. now apply nth_In.
Qed.

(** [np.argmax] on values none of which is NaN: the index of the first
    maximum. *)
Lemma argmax_spec (xs : list fval) (k : nat) :
  Forall (fun x => isnan x = false) xs ->
  Features.argmax xs = Ok k ->
  (k < List.length xs)%nat /\
  (forall y, In y xs -> leb y (Features.item xs k) = true) /\
  (forall i, (i < k)%nat ->
             ltb (Features.item xs i) (Features.item xs k) = true).
Proof.
  intros Hnan H. destruct xs as [| x r]; [discriminate |].
  cbn [Features.argmax] in H. inversion H; subst k; clear H.
  assert (Hx : isnan x = false) by (now inversion Hnan).
  apply (argmax_from_spec r [x] x 0%nat); try assumption.
  - simpl. lia.
  - reflexivity.
  - intros y [<- | []]. now apply leb_refl.
  - intros i Hi. lia.
Qed.

Lemma abs_nonneg (x : fval) :
  isnan (Num.abs x) = true \/ leb Num.zero (Num.abs x) = true.
Proof.
  destruct x as [q | | |]; cbn; auto.
  destruct (Num.Qc_ltb q (Q2Qc 0)) eqn:E; right; cbn; apply Qc_leb_le.
  - apply Qc_ltb_lt in E. apply Qclt_le_weak in E.
    apply Qcopp_le_compat in E.
    replace (- Q2Qc 0)%Qc with (Q2Qc 0) in E by ring. exact E.
  - apply Qcnot_lt_le. intros H.
    apply (proj2 (Qc_ltb_lt q (Q2Qc 0))) in H. rewrite H in E. discriminate.
Qed.

(** What a column that goes through the loop body leaves in [results]. *)
Lemma analyse_column_inv (wl : list fval) (it tt : fval) (ts : string)
    (intensity : list fval) (o : Features.ColumnOutcome) :
  Features.analyse_column wl it tt ts intensity = Ok o ->
  exists k,
    Features.argmax intensity = Ok k /\
    timestamp (Features.record o) = ts /\
    max_intensity (Features.record o) = Features.item intensity k /\
    (Features.gated o = true ->
     peak_wavelength (Features.record o) = NaN /\
     fwhm_ev (Features.record o) = NaN) /\
    (Features.gated o = false ->
     peak_wavelength (Features.record o) = Features.item wl k) /\
    (isnan (fwhm_ev (Features.record o)) = true \/
     leb Num.zero (fwhm_ev (Features.record o)) = true).
Proof.
  unfold Features.analyse_column. intros H.
  apply bind_ok_inv in H. destruct H as [k [Hk H]].
  apply bind_ok_inv in H. destruct H as [gate [_ H]].
  exists k. split; [exact Hk |]. destruct gate.
  - inversion H; subst o; cbn. repeat split; auto; discriminate.
  - apply bind_ok_inv in H. destruct H as [ke [_ H]].
    apply bind_ok_inv in H. destruct H as [fwhm [Hf H]].
    inversion H; subst o; cbn.
    split; [reflexivity |]. split; [reflexivity |].
    split; [discriminate |]. split; [reflexivity |].
    unfold Py.try_except in Hf.
    match type of Hf with
    | match ?c with _ => _ end = _ => destruct c as [v | e] eqn:Ec
    end.
    + inversion Hf; subst fwhm. unfold Features.fwhm_of in Ec.
      apply bind_ok_inv in Ec. destruct Ec as [li [_ Ec]].
      apply bind_ok_inv in Ec. destruct Ec as [ri [_ Ec]].
      apply bind_ok_inv in Ec. destruct Ec as [el [_ Ec]].
      apply bind_ok_inv in Ec. destruct Ec as [er [_ Ec]].
      inversion Ec. apply abs_nonneg.
    + destruct (existsb (Py.exn_eqb e) [IndexError; ValueError]);
        [inversion Hf; cbn; auto | discriminate].
Qed.

End PeakFacts.

Section RecordFacts.

(** The peak of a column without NaN: the record carries the largest value
    of the column as [max_intensity], this value is first reached at the
    row of the peak (every earlier value is strictly smaller), and a record
    that is not gated out carries the wavelength of that row. *)
Theorem peak_is_first_maximum (wl : list fval) (it tt : fval) (ts : string)
    (intensity : list fval) (o : Features.ColumnOutcome) :
  Forall (fun x => isnan x = false) intensity ->
  Features.analyse_column wl it tt ts intensity = Ok o ->
  exists k,
    (k < List.length intensity)%nat /\
    max_intensity (Features.record o) = Features.item intensity k /\
    (forall y, In y intensity ->
               leb y (max_intensity (Features.record o)) = true) /\
    (forall i, (i < k)%nat ->
               ltb (Features.item intensity i)
                 (max_intensity (Features.record o)) = true) /\
    (Features.gated o = false ->
     peak_wavelength (Features.record o) = Features.item wl k).
Proof.
  intros Hnan H.
  destruct (analyse_column_inv wl it tt ts intensity o H)
    as [k [Hk [_ [Hm [_ [Hw _]]]]]].
  destruct (argmax_spec intensity k Hnan Hk) as [Hlt [Hmax Hfirst]].
  exists k. rewrite Hm. repeat split; assumption.
Qed.

Lemma feature_records_forall2 (df : DataFrame string) (it tt : fval)
    (recs : list FeatureRecord) :
  Features.feature_records df it tt = Ok recs ->
  Forall2
    (fun tj r =>
       exists o,
         Features.analyse_column (index df) it tt (fst tj)
           (column_values df (snd tj)) = Ok o /\
         r = Features.record o)
    (combine (columns df) (seq 0 (ncols df))) recs.
Proof.
  unfold Features.feature_records. intros H.
  apply map_result_forall2 in H.
  induction H as [| tj r l l' Hh _ IH]; constructor; [| exact IH].
  apply bind_ok_inv in Hh. destruct Hh as [o [Ho Hr]].
  exists o. split; [exact Ho | now inversion Hr].
Qed.

(** One record per timestamp column, in the order of the columns: the
    timestamps of the records are the column labels of the frame. *)
Theorem records_follow_columns (df : DataFrame string) (it tt : fval)
    (recs : list FeatureRecord) :
  Features.feature_records df it tt = Ok recs ->
  map timestamp recs = columns df.
Proof.
  intros H. apply feature_records_forall2 in H.
  assert (E : map timestamp recs
              = map fst (combine (columns df) (seq 0 (ncols df)))).
  { induction H as [| tj r l l' [o [Ho ->]] _ IH]; [reflexivity |].
    cbn [map]. rewrite IH. f_equal.
    destruct (analyse_column_inv _ _ _ _ _ _ Ho) as [k [_ [Ht _]]].
    exact Ht. }
  rewrite E. apply map_fst_combine. unfold ncols. now rewrite length_seq.
Qed.

(** No negative linewidth: the linewidth of every record is absent or at
    least zero. *)
Theorem linewidth_is_nonnegative (df : DataFrame string) (it tt : fval)
    (recs : list FeatureRecord) :
  Features.feature_records df it tt = Ok recs ->
  Forall (fun r => isnan (fwhm_ev r) = true \/
                   leb Num.zero (fwhm_ev r) = true) recs.
Proof.
  intros H. apply feature_records_forall2 in H.
  induction H as [| tj r l l' [o [Ho ->]] _ IH]; constructor; [| exact IH].
  destruct (analyse_column_inv _ _ _ _ _ _ Ho) as [k [_ [_ [_ [_ [_ Hf]]]]]].
  exact Hf.
Qed.

End RecordFacts.

Lemma peak_is_first_maximum_witness :
  exists o k,
    Features.analyse_column Examples.nir_wavelengths (of_Z 50) (of_Z 100)
      "5" Examples.nir_intensity = Ok o /\
    (k < List.length Examples.nir_intensity)%nat /\
    max_intensity (Features.record o)
    = Features.item Examples.nir_intensity k /\
    (forall y, In y Examples.nir_intensity ->
               leb y (max_intensity (Features.record o)) = true) /\
    (forall i, (i < k)%nat ->
               ltb (Features.item Examples.nir_intensity i)
                 (max_intensity (Features.record o)) = true) /\
    (Features.gated o = false ->
     peak_wavelength (Features.record o)
     = Features.item Examples.nir_wavelengths k).
Proof.
  destruct (Features.analyse_column Examples.nir_wavelengths (of_Z 50)
              (of_Z 100) "5" Examples.nir_intensity) as [o | e] eqn:E.
  - destruct (peak_is_first_maximum Examples.nir_wavelengths (of_Z 50)
                (of_Z 100) "5" Examples.nir_intensity o) as [k Hk].
    + repeat constructor.
    + exact E.
    + exists o, k. split; [reflexivity | exact Hk].
  - vm_compute in E. discriminate.
Defined.

Lemma records_follow_columns_witness :
  exists recs,
    Features.feature_records Examples.nir_two_columns (of_Z 50) (of_Z 100)
    = Ok recs /\
    map timestamp recs = columns Examples.nir_two_columns.
Proof.
  destruct (Features.feature_records Examples.nir_two_columns (of_Z 50)
              (of_Z 100)) as [recs | e] eqn:E.
  - exists recs. split; [reflexivity |].
    exact (records_follow_columns Examples.nir_two_columns (of_Z 50)
             (of_Z 100) recs E).
  - vm_compute in E. discriminate.
Defined.

Lemma linewidth_is_nonnegative_witness :
  exists recs,
    Features.feature_records Examples.nir_two_columns (of_Z 50) (of_Z 100)
    = Ok recs /\
    Forall (fun r => isnan (fwhm_ev r) = true \/
                     leb Num.zero (fwhm_ev r) = true) recs.
Proof.
  destruct (Features.feature_records Examples.nir_two_columns (of_Z 50)
              (of_Z 100)) as [recs | e] eqn:E.
  - exists recs. split; [reflexivity |].
    exact (linewidth_is_nonnegative Examples.nir_two_columns (of_Z 50)
             (of_Z 100) recs E).
  - vm_compute in E. discriminate.
Defined.

(* ------------------------------------------------------------------------- *)
(** ** Stage 4: the noise filter and the column header *)

Section HeaderFacts.

Lemma map_result_raises (A B : Type) (f : A -> result B) (xs : list A)
    (j : nat) (x : A) :
  nth_error xs j = Some x -> Py.raises (f x) ->
  Py.raises (Py.map_result f xs).
Proof.
  revert j. induction xs as [| a xs IH]; intros j Hj Hr.
  - destruct j; discriminate.
  - cbn [Py.map_result]. destruct j as [| j]; cbn in Hj.
    + inversion Hj; subst a. destruct Hr as [e ->]. now exists e.
    + destruct (f a) as [b | e]; [| now exists e].
      destruct (IH j Hj Hr) as [e ->]. now exists e.
Qed.

Lemma foreign_letter_is_letter (s : string) :
  More.has_foreign_letter s = true -> More.has_letter s = true.
Proof.
  induction s as [| c r IH]; [discriminate |].
  cbn [More.has_foreign_letter More.has_letter]. intros H.
  apply orb_prop in H. destruct H as [H | H].
  - apply andb_prop in H. destruct H as [H _]. now rewrite H.
  - rewrite (IH H). apply orb_true_r.
Qed.

Lemma digits_or_empty_letter (s : string) :
  More.has_letter s = true -> Str.digits_or_empty s = None.
Proof.
  intros H. destruct s as [| c r]; [discriminate |].
  unfold Str.digits_or_empty. now apply digits_acc_letter.
Qed.

Lemma split_dot_letter (s : string) :
  More.has_letter s = true ->
  More.has_letter (fst (Str.split_dot s)) = true \/
  exists f, snd (Str.split_dot s) = Some f /\ More.has_letter f = true.
Proof.
  induction s as [| c r IH]; [discriminate |].
  cbn [More.has_letter Str.split_dot]. intros H.
  destruct (Ascii.eqb c ".") eqn:E.
  - apply Ascii.eqb_eq in E. subst c. cbn in H.
    right. exists r. split; [reflexivity | exact H].
  - destruct (Str.split_dot r) as [i f] eqn:Er. cbn [fst snd] in *.
    cbn [More.has_letter].
    destruct (More.is_letter c); [now left |].
    cbn [orb] in H |- *. exact (IH H).
Qed.

(** A text with a letter that no spelling of a number has is no spelling
    of a number. *)
Lemma py_float_letter (s : string) :
  More.has_foreign_letter s = true -> Str.py_float s = Raise ValueError.
Proof.
  intros H. apply foreign_letter_is_letter, split_sign_letter in H.
  unfold Str.py_float.
  destruct (Str.split_sign s) as [neg body]. cbn [snd] in H.
  apply split_dot_letter in H.
  destruct (Str.split_dot body) as [ip fp]. cbn [fst snd] in H.
  destruct H as [H | [f [-> H]]].
  - destruct fp as [f |].
    + rewrite (digits_or_empty_letter ip H).
      destruct ip; [discriminate |]. reflexivity.
    + now rewrite (digits_letter ip H).
  - rewrite (digits_or_empty_letter f H).
    destruct ip, f; try discriminate;
      destruct (Str.digits_or_empty _); reflexivity.
Qed.

(** The header of a column is read as a number only when the peak of the
    column is below the intensity threshold; when it is, and the header
    holds a letter that no spelling of a number has, the [ValueError] of
    [float] leaves the extractor: no feature file is written for the run. *)
Theorem dim_column_needs_numeric_header (d : RunDir) (df : DataFrame string)
    (it tt : fval) (j : nat) (ts : string) (k : nat) :
  smoothed_nir d = Some (Table df) ->
  nth_error (columns df) j = Some ts ->
  Features.argmax (column_values df j) = Ok k ->
  ltb (Features.item (column_values df j) k) it = true ->
  More.has_foreign_letter ts = true ->
  Py.raises (Features.extract_spectral_features d it tt).
Proof.
  intros Hd Hts Hk Hlow Hletter.
  pose proof (py_float_letter ts Hletter) as Hbad.
  unfold Features.extract_spectral_features. rewrite Hd. cbn [Py.bind read_csv].
  assert (Hr : Py.raises (Features.feature_records df it tt)).
  { unfold Features.feature_records.
    apply map_result_raises with (j := j) (x := (ts, j)).
    - pose proof (@nth_error_combine_seq _ (columns df) j 0 ts Hts) as H.
      exact H.
    - cbn [fst snd]. unfold Features.analyse_column.
      rewrite Hk. cbn [Py.bind]. rewrite Hlow, Hbad. cbn [Py.bind].
      now exists ValueError. }
  destruct Hr as [e ->]. now exists e.
Qed.

Lemma bind_raise_inv (A B : Type) (c : result A) (k : A -> result B)
    (e : exn) :
  Py.bind c k = Raise e ->
  c = Raise e \/ exists a, c = Ok a /\ k a = Raise e.
Proof.
  destruct c as [a | e0]; cbn [Py.bind]; intros H.
  - right. now exists a.
  - left. inversion H. reflexivity.
Qed.

Lemma interp1d_exn (x y : list fval) (v : fval) (e : exn) :
  Features.interp1d x y v = Raise e -> e = ValueError.
Proof.
  unfold Features.interp1d.
  destruct x as [| x0 [| x1 [| x2 x]]];
    destruct y as [| y0 [| y1 [| y2 y]]];
    try (intros H; inversion H; reflexivity).
  destruct (ltb x1 x0 || (isnan x0 && negb (isnan x1)));
    repeat match goal with
           | |- context [if ?c then _ else _] => destruct c
           end;
    intros H; inversion H; reflexivity.
Qed.

Lemma last_item_exn (l : list nat) (e : exn) :
  Features.last_item l = Raise e -> e = IndexError.
Proof.
  unfold Features.last_item. destruct (rev l); intros H; now inversion H.
Qed.

Lemma first_item_exn (l : list nat) (e : exn) :
  Features.first_item l = Raise e -> e = IndexError.
Proof.
  unfold Features.first_item. destruct l; intros H; now inversion H.
Qed.

Lemma fwhm_of_exn (iev en : list fval) (p : nat) (hm : fval) (e : exn) :
  Features.fwhm_of iev en p hm = Raise e ->
  e = IndexError \/ e = ValueError.
Proof.
  unfold Features.fwhm_of. intros H.
  apply bind_raise_inv in H. destruct H as [H | [li [_ H]]];
    [left; exact (last_item_exn _ _ H) |].
  apply bind_raise_inv in H. destruct H as [H | [ri [_ H]]];
    [left; exact (first_item_exn _ _ H) |].
  apply bind_raise_inv in H. destruct H as [H | [el [_ H]]];
    [right; exact (interp1d_exn _ _ _ _ H) |].
  apply bind_raise_inv in H. destruct H as [H | [er [_ H]]];
    [right; exact (interp1d_exn _ _ _ _ H) |].
  discriminate H.
Qed.

(** A column that the noise filter lets through, because its peak is not
    below the intensity threshold (the header is then not even read) or
    because its timestamp does not exceed the time threshold, always gets a
    record with the wavelength of its peak: the linewidth computation
    cannot make the extractor fail. *)
Theorem ungated_column_keeps_peak (wl : list fval) (it tt : fval)
    (ts : string) (intensity : list fval) (k : nat) :
  List.length wl = List.length intensity ->
  Features.argmax intensity = Ok k ->
  (ltb (Features.item intensity k) it = false \/
   exists t, Str.py_float ts = Ok t /\ gtb t tt = false) ->
  exists fwhm,
    Features.analyse_column wl it tt ts intensity
    = Ok (Features.mkOutcome
            (mkFeature ts (Features.item intensity k) (Features.item wl k)
               fwhm) false).
Proof.
  intros Hlen Hk Hgate. unfold Features.analyse_column.
  rewrite Hk. cbn [Py.bind].
  assert (Hg : (if ltb (Features.item intensity k) it
                then t <- Str.py_float ts ;; ret (gtb t tt)
                else Ok false) = Ok false).
  { destruct Hgate as [-> | [t [Ht Hlate]]]; [reflexivity |].
    destruct (ltb (Features.item intensity k) it); [| reflexivity].
    rewrite Ht. cbn [Py.bind]. now rewrite Hlate. }
  rewrite Hg. cbn [Py.bind].
  destruct intensity as [| x xs]; [discriminate |].
  destruct wl as [| w ws]; [discriminate |].
  set (iev := Features.to_energy_space (x :: xs)
                (Features.jacobian_factor (Features.energies_of (w :: ws)))).
  assert (Hne : exists ke, Features.argmax iev = Ok ke).
  { unfold iev, Features.to_energy_space, Features.jacobian_factor,
      Features.energies_of. cbn [map combine]. eexists. reflexivity. }
  destruct Hne as [ke Hke]. rewrite Hke. cbn [Py.bind].
  destruct (Features.fwhm_of iev (Features.energies_of (w :: ws)) ke
              (div (Features.item iev ke) (of_Z 2))) as [v | e] eqn:Ef.
  - cbn. now exists v.
  - destruct (fwhm_of_exn _ _ _ _ _ Ef) as [-> | ->]; cbn; now exists NaN.
Qed.

End HeaderFacts.

Lemma dim_column_needs_numeric_header_witness :
  Py.raises
    (Features.extract_spectral_features
       (write_smoothed NIR
          (mkDF ["late"%string] (rows Examples.nir_two_columns))
          Examples.stale_run)
       (of_Z 200) (of_Z 100)).
Proof.
  apply (dim_column_needs_numeric_header
           (write_smoothed NIR
              (mkDF ["late"%string] (rows Examples.nir_two_columns))
              Examples.stale_run)
           (mkDF ["late"%string] (rows Examples.nir_two_columns))
           (of_Z 200) (of_Z 100) 0 "late"%string 2).
  - reflexivity.
  - reflexivity.
  - vm_compute. reflexivity.
  - vm_compute. reflexivity.
  - reflexivity.
Defined.

Lemma ungated_column_keeps_peak_witness :
  exists fwhm,
    Features.analyse_column Examples.nir_wavelengths (of_Z 50) (of_Z 100)
      "not a number"%string Examples.nir_intensity
    = Ok (Features.mkOutcome
            (mkFeature "not a number"%string
               (Features.item Examples.nir_intensity 2)
               (Features.item Examples.nir_wavelengths 2) fwhm) false).
Proof.
  apply (ungated_column_keeps_peak Examples.nir_wavelengths (of_Z 50)
           (of_Z 100) "not a number"%string Examples.nir_intensity 2).
  - reflexivity.
  - vm_compute. reflexivity.
  - left. vm_compute. reflexivity.
Defined.

(* ------------------------------------------------------------------------- *)
(** ** Stage 5: runs without feature file, runs that are too short *)

Section AggregatorFacts.

Variable savgol_point : nat -> nat -> list fval -> nat -> fval.

Lemma collect_skips (w p : nat) (runs : list (string * RunDir)) :
  forall c,
    TimeAxis.for_each (Traces.collect_folder savgol_point w p) runs c
    = TimeAxis.for_each (Traces.collect_folder savgol_point w p)
        (filter Traces.has_features runs) c.
Proof.
  induction runs as [| run runs IH]; intros c; [reflexivity |].
  cbn [filter]. destruct (Traces.has_features run) eqn:E.
  - cbn [TimeAxis.for_each].
    destruct (Traces.collect_folder savgol_point w p c run) as [c' | e];
      [apply IH | reflexivity].
  - cbn [TimeAxis.for_each]. unfold Traces.collect_folder at 1.
    unfold Traces.has_features in E.
    destruct (features (snd run)); [discriminate |]. apply IH.
Qed.

(** Runs that have no feature file do not enter the aggregation: the
    aggregator does on the list of folders what it does on the folders that
    have a feature file. *)
Theorem aggregator_skips_runs_without_features
    (runs : list (string * RunDir)) (w p : nat) :
  Traces.compile_experiment_traces savgol_point runs w p
  = Traces.compile_experiment_traces savgol_point
      (filter Traces.has_features runs) w p.
Proof.
  unfold Traces.compile_experiment_traces. now rewrite collect_skips.
Qed.

Lemma for_each_app (A S : Type) (body : S -> A -> result S)
    (xs ys : list A) (s : S) :
  TimeAxis.for_each body (xs ++ ys) s
  = Py.bind (TimeAxis.for_each body xs s) (TimeAxis.for_each body ys).
Proof.
  revert s. induction xs as [| x xs IH]; intros s; [reflexivity |].
  cbn [app TimeAxis.for_each]. destruct (body s x) as [s' | e];
    [apply IH | reflexivity].
Qed.

(** One run whose feature file has fewer records than the window stops
    the whole aggregation, wherever it stands among runs the aggregator can
    take in: the [ValueError] of the filter leaves
    [compile_experiment_traces] and no summary is written. *)
Theorem short_run_stops_aggregation (w p : nat)
    (before after : list (string * RunDir)) (run : string * RunDir)
    (recs : list FeatureRecord) :
  Nat.odd w = true -> (p < w)%nat ->
  forallb (Traces.compilable w) before = true ->
  features (snd run) = Some (Table recs) -> recs <> [] ->
  (List.length recs < w)%nat ->
  Traces.compile_experiment_traces savgol_point (before ++ run :: after) w p
  = Raise ValueError.
Proof.
  intros Ho Hp Hb Hf Hne Hlen.
  unfold Traces.compile_experiment_traces. rewrite for_each_app.
  destruct (@collect_loop savgol_point w p before
              (Traces.mkCollector [] [] []) Ho Hp Hb) as [c [Ec _]].
  rewrite Ec. cbn [Py.bind TimeAxis.for_each].
  unfold Traces.collect_folder at 1. rewrite Hf.
  assert (Hr : Traces.read_features (Table recs) = Ok recs)
    by (destruct recs; [now elim Hne | reflexivity]).
  rewrite Hr. cbn [Py.bind]. unfold Traces.metrics.
  cbn [TimeAxis.for_each]. unfold Traces.trace at 1.
  unfold Smoothing.savgol_filter, Smoothing.savgol_args_ok.
  rewrite fill_gaps_length, metric_column_length.
  apply Nat.leb_gt in Hlen. rewrite Hlen, andb_false_r. reflexivity.
Qed.

End AggregatorFacts.

Lemma short_run_stops_aggregation_witness :
  Traces.compile_experiment_traces Savgol.savgol_point
    (Examples.three_runs
     ++ ("04_Ratio-3.0"%string,
         Examples.run_with (Some (firstn 5 Examples.features_a)))
        :: [("05_Ratio-4.0"%string,
             Examples.run_with (Some Examples.features_b))])
    11 2
  = Raise ValueError.
Proof.
  apply (short_run_stops_aggregation Savgol.savgol_point 11 2
           Examples.three_runs
           [("05_Ratio-4.0"%string,
             Examples.run_with (Some Examples.features_b))]
           ("04_Ratio-3.0"%string,
            Examples.run_with (Some (firstn 5 Examples.features_a)))
           (firstn 5 Examples.features_a)).
  - reflexivity.
  - lia.
  - vm_compute. reflexivity.
  - reflexivity.
  - discriminate.
  - vm_compute. lia.
Defined.

(* ------------------------------------------------------------------------- *)
(** ** Stage 1: the file that is found *)

Section FoundFileFacts.

Local Open Scope string_scope.

(** The raw file that the standardizer reads for a band is an entry of
    the raw directory whose name is the prefix of the band, then
    [_corrected], then any text, then [.csv]. *)
Theorem found_file_matches_pattern (F : Type)
    (directory : list (string * F)) (b : band) (name : string) (f : F) :
  TimeAxis._get_file_by_prefix directory (prefix_of b ++ "_corrected")
  = Ok (name, f) ->
  In (name, f) directory /\
  exists mid, name = (prefix_of b ++ "_corrected") ++ mid ++ ".csv".
Proof.
  unfold TimeAxis._get_file_by_prefix.
  destruct (filter (fun e => Str.glob_match (prefix_of b ++ "_corrected")
                               (fst e)) directory)
    as [| x l] eqn:E; [discriminate |].
  intros H; inversion H; subst x.
  assert (Hin : In (name, f)
                  (filter (fun e => Str.glob_match
                                      (prefix_of b ++ "_corrected") (fst e))
                     directory))
    by (rewrite E; now left).
  apply filter_In in Hin. destruct Hin as [Hin Hm].
  split; [exact Hin |]. now apply glob_match_iff in Hm.
Qed.

End FoundFileFacts.

Lemma found_file_matches_pattern_witness :
  In ("Emission_nir_corrected_a.csv"%string, 1%nat)
    [("notes.txt"%string, 0%nat);
     ("Emission_nir_corrected_a.csv"%string, 1%nat)] /\
  exists mid,
    "Emission_nir_corrected_a.csv"%string
    = ((prefix_of NIR ++ "_corrected") ++ mid ++ ".csv")%string.
Proof.
  apply (found_file_matches_pattern nat
           [("notes.txt"%string, 0%nat);
            ("Emission_nir_corrected_a.csv"%string, 1%nat)]
           NIR "Emission_nir_corrected_a.csv"%string 1%nat).
  reflexivity.
Defined.

(* ------------------------------------------------------------------------- *)
(** ** Stage 5: what the gap filling keeps and what it fills *)

Section GapFilling.

Lemma interpolate_keeps (xs : list fval) :
  forall prev j k v,
    nth_error xs k = Some v -> isnan v = false ->
    nth_error (Traces.interpolate_from prev j xs) k = Some v.
Proof.
  induction xs as [| x r IH]; intros prev j k v Hk Hv.
  - destruct k; discriminate.
  - cbn [Traces.interpolate_from]. destruct k as [| k]; cbn in Hk.
    + inversion Hk; subst x. rewrite Hv. reflexivity.
    + destruct (isnan x); cbn [nth_error]; now apply IH.
Qed.

Lemma bfill_keeps (xs : list fval) :
  forall k v,
    nth_error xs k = Some v -> isnan v = false ->
    nth_error (Traces.bfill xs) k = Some v.
Proof.
  induction xs as [| x r IH]; intros k v Hk Hv.
  - destruct k; discriminate.
  - cbn [Traces.bfill]. cbv zeta. destruct k as [| k]; cbn in Hk.
    + inversion Hk; subst x. rewrite Hv. reflexivity.
    + cbn [nth_error]. now apply IH.
Qed.

Lemma ffill_from_keeps (xs : list fval) :
  forall last k v,
    nth_error xs k = Some v -> isnan v = false ->
    nth_error (Traces.ffill_from last xs) k = Some v.
Proof.
  induction xs as [| x r IH]; intros last k v Hk Hv.
  - destruct k; discriminate.
  - cbn [Traces.ffill_from]. destruct k as [| k]; cbn in Hk.
    + inversion Hk; subst x. rewrite Hv. reflexivity.
    + destruct (isnan x); cbn [nth_error]; now apply IH.
Qed.

Lemma bfill_head (xs : list fval) :
  (exists v, In v xs /\ isnan v = false) ->
  exists h t, Traces.bfill xs = h :: t /\ isnan h = false.
Proof.
  induction xs as [| x r IH]; intros [v [Hin Hv]]; [destruct Hin |].
  cbn [Traces.bfill]. cbv zeta. destruct (isnan x) eqn:Ex.
  - destruct Hin as [<- | Hin]; [congruence |].
    destruct (IH (ex_intro _ v (conj Hin Hv))) as [h [t [E Hh]]].
    rewrite E. exists h, (h :: t). split; [reflexivity | exact Hh].
  - eexists. eexists. split; [reflexivity | exact Ex].
Qed.

Lemma ffill_from_valid (last : fval) (xs : list fval) :
  isnan last = false ->
  Forall (fun v => isnan v = false) (Traces.ffill_from last xs).
Proof.
  revert last. induction xs as [| x r IH]; intros last Hl;
    cbn [Traces.ffill_from]; [constructor |].
  destruct (isnan x) eqn:Ex; constructor; auto.
Qed.

(** The gap filling of a trace ([interpolate], then [bfill], then
    [ffill]) keeps the length of the series and every value that is there,
    at its place; and when the series has a value at all, it leaves no
    gap. *)
Theorem gap_filling_keeps_values (xs : list fval) :
  List.length (Traces.fill_gaps xs) = List.length xs /\
  (forall k v,
     nth_error xs k = Some v -> isnan v = false ->
     nth_error (Traces.fill_gaps xs) k = Some v) /\
  ((exists v, In v xs /\ isnan v = false) ->
   Forall (fun v => isnan v = false) (Traces.fill_gaps xs)).
Proof.
  split; [apply fill_gaps_length |]. split.
  - intros k v Hk Hv. unfold Traces.fill_gaps, Traces.ffill,
      Traces.interpolate.
    apply ffill_from_keeps; [| exact Hv].
    apply bfill_keeps; [| exact Hv].
    now apply interpolate_keeps.
  - intros [v [Hin Hv]]. apply In_nth_error in Hin. destruct Hin as [k Hk].
    pose proof (interpolate_keeps xs None 0 k v Hk Hv) as Hi.
    apply nth_error_In in Hi.
    destruct (bfill_head (Traces.interpolate_from None 0 xs)
                (ex_intro _ v (conj Hi Hv))) as [h [t [E Hh]]].
    unfold Traces.fill_gaps, Traces.ffill, Traces.interpolate.
    rewrite E. cbn [Traces.ffill_from]. rewrite Hh.
    constructor; [exact Hh | now apply ffill_from_valid].
Qed.

End GapFilling.

Lemma gap_filling_keeps_values_witness :
  nth_error
    (Traces.fill_gaps (map peak_wavelength Examples.features_a)) 1
  = Some (of_Z 921) /\
  Forall (fun v => isnan v = false)
    (Traces.fill_gaps (map peak_wavelength Examples.features_a)).
Proof.
  destruct (gap_filling_keeps_values
              (map peak_wavelength Examples.features_a)) as [_ [H1 H2]].
  split.
  - apply H1; reflexivity.
  - apply H2. exists (of_Z 921). split; [| reflexivity].
    right. left. reflexivity.
Defined.
